(** * EaseVerse asset scripts

  A shallow embedding of [scripts/generate_apple_icons.py] (the icon
  rendering pipeline) and [scripts/optimize_web_assets.py] (the web asset
  optimizer), with the properties the specification states about them.

  Python objects that are mutated in place (the canvas a builder draws on)
  live in an explicit heap; the filesystem and the standard output are
  components of the same world, which every effectful function threads
  through an error-and-state monad.  Pillow's rasteriser and PNG codec are
  the interface [Pillow]: the scripts only call them, so every statement
  holds for any implementation of that interface. *)

From Stdlib Require Import ZArith QArith Qround Qabs Lia Ascii.
From stdpp Require Import base option list gmap strings sorting pretty.

Open Scope Z_scope.

(** ** Pillow: images as the scripts see them *)

Module Pil.

(** The image modes of Pillow ([ImageMode]); ["1"] is [Bilevel] and
    ["I;16"] is [I16]. *)
Inductive Mode :=
| Bilevel | L | P | RGB | RGBA | CMYK | YCbCr | LAB | HSV | I | F
| LA | PA | RGBX | RGBa | La | I16.

Definition getbands (m : Mode) : list string :=
  match m with
  | Bilevel => ["1"] | L => ["L"] | P => ["P"]
  | RGB => ["R"; "G"; "B"] | RGBA => ["R"; "G"; "B"; "A"]
  | CMYK => ["C"; "M"; "Y"; "K"] | YCbCr => ["Y"; "Cb"; "Cr"]
  | LAB => ["L"; "A"; "B"] | HSV => ["H"; "S"; "V"]
  | I => ["I"] | F => ["F"]
  | LA => ["L"; "A"] | PA => ["P"; "A"]
  | RGBX => ["R"; "G"; "B"; "X"] | RGBa => ["R"; "G"; "B"; "a"]
  | La => ["L"; "a"] | I16 => ["I"]
  end.

(** A colour is a 4-tuple of channel values. *)
Definition Color : Type := Z * Z * Z * Z.

Definition Box : Type := Z * Z * Z * Z.

Inductive Font := DefaultFont (size : Z).

Inductive Resampling := NEAREST | LANCZOS | BILINEAR | BICUBIC | BOX | HAMMING.

(** One call on an [ImageDraw] handle, with the arguments it was given
    (keyword arguments that were left out carry Pillow's defaults). *)
Inductive Prim :=
| Ellipse (xy : Box) (fill outline : option Color) (width : Z)
| Arc (xy : Box) (start end_ : Z) (fill : option Color) (width : Z)
| Line (xy : list Z) (fill : option Color) (width : Z) (joint : option string)
| Polygon (xy : list (Z * Z)) (fill outline : option Color) (width : Z)
| RoundedRectangle (xy : Box) (radius : Z) (fill outline : option Color) (width : Z)
| Text (xy : Z * Z) (text : string) (fill : option Color) (font : Font).

(** Pixel data, as the history of what produced it. *)
Inductive Raster :=
| Filled (c : Color)
| Drawn (r : Raster) (p : Prim)
| Resized (r : Raster) (from to : Z * Z) (f : Resampling)
| Converted (r : Raster) (from to : Mode)
| Decoded (data : list Byte.byte).

Record Image := mkImage { mode : Mode; size : Z * Z; raster : Raster }.

Record SaveOptions := mkSaveOptions { opt_optimize : bool; opt_compress_level : option Z }.

Definition default_options : SaveOptions := mkSaveOptions false None.

(** What the scripts take from Pillow without looking inside: the
    rasteriser (the value a primitive leaves at a pixel, given the value it
    found there), the resampling kernel, mode conversion of a pixel, and
    the PNG codec.  The codec reads a file in two steps: the header, which
    identifies the file and gives the mode and the size of the image, and
    the pixel data, which a file with a good header may still lack. *)
Class Pillow := {
  paint : Prim -> Z -> Z -> Color -> Color;
  resample : Resampling -> Z * Z -> Z * Z -> (Z -> Z -> Color) -> Z -> Z -> Color;
  convert_pixel : Mode -> Mode -> Color -> Color;
  decode_pixel : list Byte.byte -> Z -> Z -> Color;
  png_encode : SaveOptions -> Image -> list Byte.byte;
  png_header : list Byte.byte -> option (Mode * (Z * Z));
  png_complete : list Byte.byte -> bool
}.

(** The image in a file that is read to the end: the header identifies it
    and the pixel data is all there. *)
Definition png_decode `{Pillow} (data : list Byte.byte) : option Image :=
  match png_header data with
  | Some (m, sz) =>
      if png_complete data then Some (mkImage m sz (Decoded data)) else None
  | None => None
  end.

(** [Image.new(mode, size, color)] *)
Definition new (m : Mode) (sz : Z * Z) (color : Color) : Image :=
  mkImage m sz (Filled color).

(** [Image.resize(size, resample)] *)
Definition resize (im : Image) (sz : Z * Z) (f : Resampling) : Image :=
  mkImage (mode im) sz (Resized (raster im) (size im) sz f).

(** [Image.convert(mode)] *)
Definition convert (im : Image) (m : Mode) : Image :=
  mkImage m (size im) (Converted (raster im) (mode im) m).

(** What a drawing call does to the image behind the handle. *)
Definition draw (p : Prim) (im : Image) : Image :=
  mkImage (mode im) (size im) (Drawn (raster im) p).

Fixpoint pixel `{Pillow} (r : Raster) (x y : Z) : Color :=
  match r with
  | Filled c => c
  | Drawn r' p => paint p x y (pixel r' x y)
  | Resized r' from to f => resample f from to (pixel r') x y
  | Converted r' from to => convert_pixel from to (pixel r' x y)
  | Decoded data => decode_pixel data x y
  end.

(** [Image.getpixel((x, y))]: [None] stands for the [IndexError] outside
    the image. *)
Definition getpixel `{Pillow} (im : Image) (x y : Z) : option Color :=
  if (0 <=? x) && (x <? fst (size im)) && (0 <=? y) && (y <? snd (size im))
  then Some (pixel (raster im) x y)
  else None.

(** The primitives drawn on an image since it was created, oldest first. *)
Fixpoint drawn (r : Raster) : list Prim :=
  match r with
  | Drawn r' p => drawn r' ++ [p]
  | _ => []
  end.

(** The pixel data before the first drawing call. *)
Fixpoint blank (r : Raster) : Raster :=
  match r with
  | Drawn r' _ => blank r'
  | _ => r
  end.

End Pil.

(** ** The Python runtime the scripts rely on *)

Module Py.

Inductive exn :=
| ZeroDivisionError | ValueError | FileNotFoundError | FileExistsError
| NotADirectoryError | IsADirectoryError | UnidentifiedImageError
| SameFileError | OSError | OverflowError.

Inductive result (A : Type) :=
| Ok (a : A)
| Raise (e : exn).
Arguments Ok {A} a.
Arguments Raise {A} e.

Definition result_bind {A B} (r : result A) (k : A -> result B) : result B :=
  match r with
  | Ok a => k a
  | Raise e => Raise e
  end.

#[global] Instance result_ret : MRet result := @Ok.
#[global] Instance result_mbind : MBind result := fun A B k r => result_bind r k.

(** *** Numbers *)

(** [int(x)] of a float: the integer part, rounding toward zero.  A finite
    float is a rational number, and multiplying one by a power of two is
    exact, so rationals stand for the floats the scripts compute with. *)
Definition int (x : Q) : Z := Z.quot (Qnum x) (Zpos (Qden x)).

(** [round(x)] of a float: the nearest integer, a tie going to the even one. *)
Definition round (x : Q) : Z :=
  let f := Qfloor x in
  match Qcompare (x - inject_Z f) (1 # 2) with
  | Lt => f
  | Gt => f + 1
  | Eq => if Z.even f then f else f + 1
  end.

(** [float(n)] of an integer: [n] itself where it has at most 53
    significant bits, otherwise the nearest number that has, a tie going to
    the one whose last bit is zero; [OverflowError] where that number is
    beyond the largest float. *)
Definition float_of_int (n : Z) : result Q :=
  let a := Z.abs n in
  let e := Z.log2 a + 1 - 53 in
  let r :=
    if e <=? 0 then a
    else
      let m := Z.shiftr a e in
      let rest := a - Z.shiftl m e in
      let half := Z.shiftl 1 (e - 1) in
      let m' := if (half <? rest) || ((rest =? half) && Z.odd m)
                then m + 1 else m in
      Z.shiftl m' e in
  if 2 ^ 1024 <=? r then Raise OverflowError
  else Ok (inject_Z (Z.sgn n * r)).

(** [a / b] on integers is true division; it raises on a zero divisor. *)
Definition truediv (a b : Z) : result Q :=
  if b =? 0 then Raise ZeroDivisionError else Ok (inject_Z a / inject_Z b)%Q.

(** [f"{x:.1f}"]: the decimal with one digit after the point that is
    nearest to [x], a tie going to the even digit. *)
Definition format_1f (x : Q) : string :=
  let t := round (Qabs x * 10) in
  (if Qle_bool 0 x then "" else "-")
  +:+ pretty (t `div` 10) +:+ "." +:+ pretty (t `mod` 10).

(** *** Strings *)

Definition startswith (s prefix : string) : bool := String.prefix prefix s.

Definition endswith (s suffix : string) : bool :=
  let n := String.length s in
  let k := String.length suffix in
  (k <=? n)%nat && String.eqb (String.substring (n - k) k s) suffix.

(** [s.rfind(c)]: the index of the last [c] in [s], or [-1]. *)
Fixpoint rfind (s : string) (c : ascii) : Z :=
  match s with
  | EmptyString => -1
  | String a s' =>
      let j := rfind s' c in
      if 0 <=? j then j + 1 else if Ascii.eqb a c then 0 else -1
  end.

Definition lower_char (c : Ascii.ascii) : Ascii.ascii :=
  let n := Ascii.nat_of_ascii c in
  if (65 <=? n)%nat && (n <=? 90)%nat then Ascii.ascii_of_nat (n + 32) else c.

(** [s.lower()] *)
Fixpoint lower (s : string) : string :=
  match s with
  | EmptyString => EmptyString
  | String c s' => String (lower_char c) (lower s')
  end.

Fixpoint all_dots (s : string) : bool :=
  match s with
  | EmptyString => true
  | String c s' => Ascii.eqb c "." && all_dots s'
  end.

(** [os.path.splitext(name)] of a file name: the extension starts at the
    last dot, unless nothing but dots comes before it. *)
Definition splitext (nm : string) : string * string :=
  let i := rfind nm "."%char in
  if 0 <=? i then
    let root := String.substring 0 (Z.to_nat i) nm in
    if all_dots root then (nm, EmptyString)
    else (root, String.substring (Z.to_nat i)
                  (String.length nm - Z.to_nat i) nm)
  else (nm, EmptyString).

(** *** pathlib *)

(** A path is the list of its components below the repository root (the
    directory [ROOT] of both scripts), so [[]] is [ROOT] itself. *)
Abbreviation Path := (list string).

Definition joinpath (p : Path) (c : string) : Path := p ++ [c].

Definition name (p : Path) : string := List.last p EmptyString.

Definition parent (p : Path) : Path := removelast p.

Definition as_posix (p : Path) : string :=
  match p with
  | [] => "."
  | _ => String.concat "/" p
  end.

Fixpoint relative_to (p base : Path) : result Path :=
  match base, p with
  | [], _ => Ok p
  | b :: base', c :: p' =>
      if String.eqb b c then relative_to p' base' else Raise ValueError
  | _ :: _, [] => Raise ValueError
  end.

(** [PurePath.stem]: the name without its last suffix; a leading or a
    trailing dot starts no suffix. *)
Definition stem (p : Path) : string :=
  let nm := name p in
  let i := rfind nm "."%char in
  if (0 <? i) && (i <? Z.of_nat (String.length nm) - 1)
  then String.substring 0 (Z.to_nat i) nm
  else nm.

(** [PurePath.with_name(name)]; components hold no separator, so the only
    names refused here are the empty one and ["."]. *)
Definition with_name (p : Path) (nm : string) : result Path :=
  if String.eqb (name p) "" then Raise ValueError
  else if String.eqb nm "" || String.eqb nm "." then Raise ValueError
  else Ok (joinpath (parent p) nm).

(** *** The world: object heap, filesystem, standard output *)

(** A line of standard output.  The optimizer's report lines keep the
    numbers they format. *)
Inductive Line :=
| Text (s : string)
| FileReport (src dst : string) (before after : Z) (reduction : Q)
| TotalReport (count before after : Z) (reduction : Q).

Record World := mkWorld {
  heap : list Pil.Image;
  dirs : gset Path;
  files : gmap Path (list Byte.byte);
  stdout : list Line
}.

Definition M (A : Type) : Type := World -> result (A * World).

Definition ret {A} (a : A) : M A := fun w => Ok (a, w).

Definition bind {A B} (m : M A) (k : A -> M B) : M B :=
  fun w => match m w with
           | Ok (a, w') => k a w'
           | Raise e => Raise e
           end.

#[global] Instance M_ret : MRet M := @ret.
#[global] Instance M_bind : MBind M := fun A B k m => bind m k.

Definition raise {A} (e : exn) : M A := fun _ => Raise e.

Definition lift {A} (r : result A) : M A :=
  fun w => match r with Ok a => Ok (a, w) | Raise e => Raise e end.

(** [for x in xs: body(x)] *)
Fixpoint for_each {A} (xs : list A) (body : A -> M unit) : M unit :=
  match xs with
  | [] => mret tt
  | x :: xs' => body x;; for_each xs' body
  end.

(** [for x in xs: s = body(s, x)]: a loop that updates a local variable *)
Fixpoint for_fold {A S} (xs : list A) (s : S) (body : S -> A -> M S) : M S :=
  match xs with
  | [] => mret s
  | x :: xs' => s' ← body s x; for_fold xs' s' body
  end.

(** [enumerate(xs, start)] *)
Fixpoint enumerate {A} (xs : list A) (start : Z) : list (Z * A) :=
  match xs with
  | [] => []
  | x :: xs' => (start, x) :: enumerate xs' (start + 1)
  end.

(** [range(n)] *)
Definition range (n : Z) : list Z := map Z.of_nat (seq 0 (Z.to_nat n)).

(** [print(line)] *)
Definition print (l : Line) : M unit :=
  fun w => Ok (tt, mkWorld (heap w) (dirs w) (files w) (stdout w ++ [l])).

(** **** Heap: image objects, by reference *)

Abbreviation Ref := nat.

#[global] Instance Image_inhabited : Inhabited Pil.Image :=
  populate (Pil.new Pil.RGBA (0, 0) (0, 0, 0, 0)).

Definition alloc (im : Pil.Image) : M Ref :=
  fun w => Ok (length (heap w),
               mkWorld (heap w ++ [im]) (dirs w) (files w) (stdout w)).

(** A reference is only ever obtained from [alloc], so it is allocated. *)
Definition load (r : Ref) : M Pil.Image :=
  fun w => Ok (heap w !!! r, w).

Definition update (r : Ref) (f : Pil.Image -> Pil.Image) : M unit :=
  fun w => Ok (tt, mkWorld (alter f r (heap w)) (dirs w) (files w) (stdout w)).

(** **** Filesystem *)

Definition is_dir (p : Path) (w : World) : bool :=
  bool_decide (p = [] ∨ p ∈ dirs w).

Definition is_file (p : Path) (w : World) : bool :=
  bool_decide (is_Some (files w !! p)).

(** [os.mkdir(p)] *)
Definition os_mkdir (p : Path) : M unit :=
  fun w =>
    if is_dir p w || is_file p w then Raise FileExistsError
    else if is_dir (parent p) w
    then Ok (tt, mkWorld (heap w) ({[p]} ∪ dirs w) (files w) (stdout w))
    else if is_file (parent p) w then Raise NotADirectoryError
    else Raise FileNotFoundError.

(** [Path.mkdir(parents=True, exist_ok=True)], as pathlib writes it: try
    [os.mkdir]; when the parent is missing, make the parent first and try
    again; any other [OSError] is swallowed when the path is a directory.
    The recursion stops at the root, so the path's length bounds it. *)
Fixpoint mkdir_from (n : nat) (p : Path) : M unit :=
  fun w =>
    match os_mkdir p w with
    | Ok r => Ok r
    | Raise FileNotFoundError =>
        match n with
        | O => Raise FileNotFoundError
        | S n' => (mkdir_from n' (parent p);; os_mkdir p) w
        end
    | Raise e => if is_dir p w then Ok (tt, w) else Raise e
    end.

Definition mkdir (p : Path) : M unit := mkdir_from (length p) p.

(** [p.stat().st_size]; for a directory the number is the operating
    system's business, and no caller gets to use it. *)
Definition stat_size (p : Path) : M Z :=
  fun w =>
    match files w !! p with
    | Some data => Ok (Z.of_nat (length data), w)
    | None => if is_dir p w then Ok (0, w) else Raise FileNotFoundError
    end.

(** [open(p, "rb").read()] *)
Definition read_bytes (p : Path) : M (list Byte.byte) :=
  fun w =>
    if is_dir p w then Raise IsADirectoryError
    else match files w !! p with
         | Some data => Ok (data, w)
         | None => Raise FileNotFoundError
         end.

(** [open(p, "wb").write(data)]: the file is created or truncated. *)
Definition write_bytes (p : Path) (data : list Byte.byte) : M unit :=
  fun w =>
    if is_dir p w then Raise IsADirectoryError
    else if is_dir (parent p) w
    then Ok (tt, mkWorld (heap w) (dirs w) (<[p := data]> (files w)) (stdout w))
    else if is_file (parent p) w then Raise NotADirectoryError
    else Raise FileNotFoundError.

(** The order of [PurePath.__lt__]: component by component, strings by
    their characters' codes. *)
Fixpoint path_leb (p q : Path) : bool :=
  match p, q with
  | [], _ => true
  | _ :: _, [] => false
  | a :: p', b :: q' =>
      match String.compare a b with
      | Lt => true
      | Gt => false
      | Eq => path_leb p' q'
      end
  end.

Definition path_le (p q : Path) : Prop := path_leb p q = true.

#[global] Instance path_le_dec : RelDecision path_le.
Proof. intros p q. unfold path_le. apply _. Defined.

(** [sorted(paths)] *)
Definition sorted (ps : list Path) : list Path := merge_sort path_le ps.

(** [base.rglob("*" + suffix)]: every entry below [base], file or
    directory, whose name ends with [suffix]; the order is the operating
    system's. *)
Definition rglob (base : Path) (suffix : string) : M (list Path) :=
  fun w =>
    Ok (filter (fun p => base `prefix_of` p ∧ p ≠ base
                         ∧ endswith (name p) suffix = true)
               (elements (dirs w ∪ dom (files w))), w).

(** [shutil.copyfile(src, dst)] *)
Definition copyfile (src dst : Path) : M unit :=
  if bool_decide (src = dst) then raise SameFileError
  else data ← read_bytes src; write_bytes dst data.

End Py.

Import Py.

Notation "p </> c" := (joinpath p c) (at level 40, left associativity).

(** ** Pillow's calls that touch the world *)

Module Image.

Section Codec.
Context `{Pil.Pillow}.

(** [Image.open(fp)]: the file is read and identified by its header, which
    gives the mode and the size; the pixel data is decoded later, by
    [load]. *)
Definition open (fp : Path) : M Pil.Image :=
  data ← read_bytes fp;
  match Pil.png_header data with
  | Some (m, sz) => mret (Pil.mkImage m sz (Pil.Decoded data))
  | None => raise UnidentifiedImageError
  end.

(** [Image.load()]: decodes the pixel data of an opened file and raises
    [OSError] where it is truncated or broken; an image made in memory has
    its pixels already. *)
Definition load (im : Pil.Image) : M unit :=
  match Pil.raster im with
  | Pil.Decoded data =>
      if Pil.png_complete data then mret tt else raise OSError
  | _ => mret tt
  end.

(** [Image.convert(mode)], which loads the image first. *)
Definition convert (im : Pil.Image) (m : Pil.Mode) : M Pil.Image :=
  load im;; mret (Pil.convert im m).

(** [Image.save(fp, format, **params)]: without a format the lower-cased
    extension of the file name decides; of Pillow's writers only the PNG one
    is used by the scripts, so any other extension is an unknown one. *)
Definition save (im : Pil.Image) (fp : Path) (format : option string)
    (params : Pil.SaveOptions) : M unit :=
  fmt ← match format with
        | Some f => mret f
        | None =>
            if String.eqb (lower (snd (splitext (name fp)))) ".png"
            then mret "PNG"
            else raise ValueError
        end;
  if String.eqb fmt "PNG" then write_bytes fp (Pil.png_encode params im)
  else raise ValueError.

End Codec.

End Image.

Module ImageDraw.

Record ImageDraw := mkDraw { im : Ref; mode : Pil.Mode; blend : bool }.

#[global] Instance Mode_eq_dec : EqDecision Pil.Mode.
Proof. solve_decision. Defined.

(** [ImageDraw.Draw(im, mode)] *)
Definition Draw (img : Ref) (mode : Pil.Mode) : M ImageDraw :=
  image ← load img;
  if bool_decide (mode = Pil.mode image) then mret (mkDraw img mode false)
  else if bool_decide (mode = Pil.RGBA) && bool_decide (Pil.mode image = Pil.RGB)
  then mret (mkDraw img mode true)
  else raise ValueError.

Definition ellipse (d : ImageDraw) (xy : Pil.Box)
    (fill outline : option Pil.Color) (width : Z) : M unit :=
  update (im d) (Pil.draw (Pil.Ellipse xy fill outline width)).

Definition arc (d : ImageDraw) (xy : Pil.Box) (start end_ : Z)
    (fill : option Pil.Color) (width : Z) : M unit :=
  update (im d) (Pil.draw (Pil.Arc xy start end_ fill width)).

Definition line (d : ImageDraw) (xy : list Z) (fill : option Pil.Color)
    (width : Z) (joint : option string) : M unit :=
  update (im d) (Pil.draw (Pil.Line xy fill width joint)).

Definition polygon (d : ImageDraw) (xy : list (Z * Z))
    (fill outline : option Pil.Color) (width : Z) : M unit :=
  update (im d) (Pil.draw (Pil.Polygon xy fill outline width)).

Definition rounded_rectangle (d : ImageDraw) (xy : Pil.Box) (radius : Z)
    (fill outline : option Pil.Color) (width : Z) : M unit :=
  update (im d) (Pil.draw (Pil.RoundedRectangle xy radius fill outline width)).

Definition text (d : ImageDraw) (xy : Z * Z) (s : string)
    (fill : option Pil.Color) (font : Pil.Font) : M unit :=
  update (im d) (Pil.draw (Pil.Text xy s fill font)).

(** [ImageFont.load_default(size)] *)
Definition load_default (size : Z) : Pil.Font := Pil.DefaultFont size.

End ImageDraw.

(** ** scripts/generate_apple_icons.py *)

Module Icons.

Import ImageDraw.

Definition ROOT : Path := [].
Definition ASSETS : Path := ROOT </> "assets" </> "images".
Definition ICON_SET : Path := ASSETS </> "icon-set".

Definition SIZE : Z := 512.
Definition SCALE : Z := 4.
Definition CANVAS : Z := SIZE * SCALE.

Definition WHITE : Pil.Color := (243, 246, 252, 255).
Definition SOFT_WHITE : Pil.Color := (220, 228, 242, 255).
Definition BLUE : Pil.Color := (10, 132, 255, 255).
Definition ORANGE : Pil.Color := (255, 159, 10, 255).
Definition RED : Pil.Color := (255, 69, 58, 255).
Definition GREEN : Pil.Color := (52, 199, 89, 255).

Definition _w (value : Q) : Z := int (value * inject_Z SCALE).
Arguments _w value%_Q.

Definition _stroke (base : Q) : Z := _w base.
Arguments _stroke base%_Q.

Definition _new : M (Ref * ImageDraw) :=
  img ← alloc (Pil.new Pil.RGBA (CANVAS, CANVAS) (0, 0, 0, 0));
  d ← Draw img Pil.RGBA;
  mret (img, d).

Definition _save `{Pil.Pillow} (img : Ref) (target : Path) : M unit :=
  mkdir (parent target);;
  image ← load img;
  let out := Pil.resize image (SIZE, SIZE) Pil.LANCZOS in
  Image.save out target None Pil.default_options.

Definition _rounded_rect (draw : ImageDraw) (xy : Pil.Box) (radius : Z)
    (outline : Pil.Color) (width : Z) : M unit :=
  rounded_rectangle draw xy radius None (Some outline) width.

Definition icon_singing : M Ref :=
  '(img, d) ← _new;
  let s := _stroke 42 in
  ellipse d (_w 180, _w 90, _w 332, _w 250) None (Some WHITE) s;;
  arc d (_w 180, _w 154, _w 332, _w 316) 20 160 (Some WHITE) s;;
  line d [_w 256; _w 250; _w 256; _w 372] (Some WHITE) s None;;
  arc d (_w 174, _w 356, _w 338, _w 432) 200 340 (Some WHITE) s;;
  line d [_w 384; _w 180; _w 422; _w 164; _w 462; _w 180; _w 500; _w 164] (Some
    ORANGE) (_stroke 24) (Some "curve");;
  mret img.

Definition icon_lyrics : M Ref :=
  '(img, d) ← _new;
  let s := _stroke 34 in
  _rounded_rect d (_w 108, _w 80, _w 336, _w 426) (_w 28) WHITE s;;
  line d [_w 142; _w 170; _w 280; _w 170] (Some SOFT_WHITE) (_stroke 26) None;;
  line d [_w 142; _w 230; _w 280; _w 230] (Some SOFT_WHITE) (_stroke 26) None;;
  line d [_w 142; _w 290; _w 240; _w 290] (Some SOFT_WHITE) (_stroke 26) None;;
  line d [_w 330; _w 174; _w 426; _w 142; _w 426; _w 288] (Some BLUE) (_stroke
    30) (Some "curve");;
  ellipse d (_w 298, _w 300, _w 352, _w 354) (Some BLUE) None 1;;
  ellipse d (_w 394, _w 268, _w 448, _w 322) (Some BLUE) None 1;;
  mret img.

Definition icon_sessions : M Ref :=
  '(img, d) ← _new;
  let s := _stroke 30 in
  _rounded_rect d (_w 130, _w 132, _w 318, _w 390) (_w 24) SOFT_WHITE s;;
  _rounded_rect d (_w 176, _w 96, _w 364, _w 354) (_w 24) WHITE s;;
  _rounded_rect d (_w 222, _w 62, _w 410, _w 320) (_w 24) WHITE s;;
  line d [_w 252; _w 142; _w 374; _w 142] (Some SOFT_WHITE) (_stroke 20) None;;
  line d [_w 252; _w 198; _w 360; _w 198] (Some SOFT_WHITE) (_stroke 20) None;;
  line d [_w 252; _w 254; _w 338; _w 254] (Some SOFT_WHITE) (_stroke 20) None;;
  mret img.

Definition icon_profile : M Ref :=
  '(img, d) ← _new;
  let s := _stroke 34 in
  ellipse d (_w 186, _w 82, _w 326, _w 222) None (Some WHITE) s;;
  rounded_rectangle d (_w 104, _w 236, _w 408, _w 412) (_w 90) None (Some WHITE)
    s;;
  mret img.

Definition icon_live_mode : M Ref :=
  '(img, d) ← _new;
  let s := _stroke 32 in
  _rounded_rect d (_w 84, _w 138, _w 430, _w 346) (_w 50) WHITE s;;
  ellipse d (_w 372, _w 172, _w 420, _w 220) (Some ORANGE) None 1;;
  line d [_w 158; _w 244; _w 356; _w 244] (Some SOFT_WHITE) (_stroke 24) None;;
  mret img.

Definition icon_lyrics_sync : M Ref :=
  '(img, d) ← _new;
  let s := _stroke 28 in
  _rounded_rect d (_w 194, _w 174, _w 318, _w 334) (_w 20) WHITE s;;
  arc d (_w 70, _w 70, _w 442, _w 442) 35 170 (Some WHITE) s;;
  polygon d [(_w 420, _w 120); (_w 462, _w 120); (_w 438, _w 160)] (Some WHITE)
    None 1;;
  arc d (_w 70, _w 70, _w 442, _w 442) 215 350 (Some WHITE) s;;
  polygon d [(_w 92, _w 394); (_w 132, _w 394); (_w 108, _w 430)] (Some WHITE)
    None 1;;
  mret img.

Definition icon_feedback (high : bool) : M Ref :=
  '(img, d) ← _new;
  let base_y := _w 390 in
  let bar_w := _w 54 in
  let gap := _w 34 in
  let x := _w 112 in
  let heights := [_w 120; _w 170; _w 230; _w 280] in
  let heights :=
    if negb high then [_w 260; _w 210; _w 160; _w 110] else heights in
  for_fold (enumerate heights 0) x (fun x '(i, h) =>
    let color :=
      if (high && (i =? 3)) || (negb high && (i =? 0))
      then ORANGE else SOFT_WHITE in
    rounded_rectangle d (x, base_y - h, x + bar_w, base_y) (_w 16)
      (Some color) None 1;;
    mret (x + bar_w + gap));;
  mret img.

Definition icon_mindfulness_voice : M Ref :=
  '(img, d) ← _new;
  let s := _stroke 34 in
  ellipse d (_w 182, _w 92, _w 330, _w 248) None (Some WHITE) s;;
  arc d (_w 182, _w 154, _w 330, _w 308) 20 160 (Some WHITE) s;;
  line d [_w 256; _w 246; _w 256; _w 350] (Some WHITE) s None;;
  arc d (_w 174, _w 336, _w 338, _w 412) 200 340 (Some WHITE) s;;
  line d [_w 350; _w 250; _w 382; _w 214; _w 414; _w 266; _w 452; _w 228; _w
    490; _w 246] (Some ORANGE) (_stroke 24) (Some "curve");;
  mret img.

Definition icon_language_accent : M Ref :=
  '(img, d) ← _new;
  let s := _stroke 26 in
  ellipse d (_w 90, _w 84, _w 358, _w 352) None (Some WHITE) s;;
  arc d (_w 120, _w 84, _w 328, _w 352) 90 270 (Some SOFT_WHITE) (_stroke 20);;
  arc d (_w 140, _w 84, _w 308, _w 352) 90 270 (Some SOFT_WHITE) (_stroke 16);;
  line d [_w 90; _w 218; _w 358; _w 218] (Some SOFT_WHITE) (_stroke 20) None;;
  rounded_rectangle d (_w 292, _w 148, _w 456, _w 274) (_w 46) None
    (Some WHITE) s;;
  polygon d [(_w 330, _w 274); (_w 300, _w 308); (_w 334, _w 292)]
    (Some WHITE) None 1;;
  for_each [338; 374; 410] (fun x =>
    ellipse d (_w (inject_Z x), _w 198, _w (inject_Z (x + 20)), _w 218)
      (Some ORANGE) None 1);;
  mret img.

Definition icon_howto : M Ref :=
  '(img, d) ← _new;
  let s := _stroke 30 in
  _rounded_rect d (_w 110, _w 92, _w 402, _w 424) (_w 34) WHITE s;;
  _rounded_rect d (_w 198, _w 58, _w 314, _w 118) (_w 18) WHITE (_stroke 24);;
  line d [_w 156; _w 192; _w 292; _w 192] (Some SOFT_WHITE) (_stroke 20) None;;
  line d [_w 156; _w 246; _w 272; _w 246] (Some SOFT_WHITE) (_stroke 20) None;;
  line d [_w 156; _w 300; _w 292; _w 300] (Some SOFT_WHITE) (_stroke 20) None;;
  ellipse d (_w 286, _w 174, _w 404, _w 292) None (Some WHITE) (_stroke 20);;
  polygon d [(_w 330, _w 208); (_w 330, _w 258); (_w 372, _w 233)] (Some BLUE)
    None 1;;
  text d (_w 382, _w 94) "?" (Some ORANGE) (load_default (_w 82));;
  mret img.

Definition icon_record : M Ref :=
  '(img, d) ← _new;
  ellipse d (_w 108, _w 108, _w 404, _w 404) None (Some RED) (_stroke 36);;
  ellipse d (_w 194, _w 194, _w 318, _w 318) (Some RED) None 1;;
  mret img.

Definition icon_stop : M Ref :=
  '(img, d) ← _new;
  rounded_rectangle d (_w 128, _w 128, _w 384, _w 384) (_w 76) (Some RED) None
    1;;
  mret img.

Definition icon_metronome : M Ref :=
  '(img, d) ← _new;
  let s := _stroke 26 in
  polygon d [(_w 256, _w 92); (_w 128, _w 412); (_w 384, _w 412)] (Some (0, 0,
    0, 0)) (Some WHITE) s;;
  line d [_w 256; _w 180; _w 338; _w 308] (Some ORANGE) (_stroke 24) None;;
  ellipse d (_w 324, _w 292, _w 362, _w 330) (Some ORANGE) None 1;;
  mret img.

Definition icon_flag : M Ref :=
  '(img, d) ← _new;
  let s := _stroke 24 in
  line d [_w 146; _w 88; _w 146; _w 420] (Some WHITE) s None;;
  polygon d [(_w 158, _w 110); (_w 376, _w 154); (_w 158, _w 210)] (Some ORANGE)
    None 1;;
  line d [_w 146; _w 420; _w 222; _w 420] (Some WHITE) s None;;
  mret img.

Definition icon_bpm : M Ref :=
  '(img, d) ← _new;
  let s := _stroke 24 in
  polygon d [(_w 256, _w 92); (_w 144, _w 354); (_w 368, _w 354)] (Some (0, 0,
    0, 0)) (Some WHITE) s;;
  line d [_w 256; _w 184; _w 316; _w 276] (Some ORANGE) (_stroke 20) None;;
  ellipse d (_w 300, _w 260, _w 332, _w 292) (Some ORANGE) None 1;;
  line d [_w 92; _w 418; _w 184; _w 418; _w 214; _w 392; _w 242; _w 436; _w 272;
    _w 406; _w 420; _w 406] (Some BLUE) (_stroke 16) (Some "curve");;
  mret img.

Definition icon_count_in : M Ref :=
  '(img, d) ← _new;
  let s := _stroke 20 in
  arc d (_w 82, _w 82, _w 430, _w 430) 300 580 (Some WHITE) s;;
  for_each (enumerate [170; 230; 290; 350] 1) (fun '(i, x) =>
    let color := if i =? 4 then ORANGE else SOFT_WHITE in
    ellipse d (_w (inject_Z x), _w 244, _w (inject_Z (x + 30)), _w 274)
      (Some color) None 1);;
  line d [_w 256; _w 112; _w 256; _w 170] (Some ORANGE) (_stroke 16) None;;
  mret img.

Definition icon_lyrics_flow : M Ref :=
  '(img, d) ← _new;
  line d [_w 98; _w 170; _w 290; _w 170] (Some SOFT_WHITE) (_stroke 24) None;;
  polygon d [(_w 290, _w 146); (_w 352, _w 170); (_w 290, _w 194)] (Some
    SOFT_WHITE) None 1;;
  line d [_w 98; _w 256; _w 330; _w 256] (Some WHITE) (_stroke 24) None;;
  polygon d [(_w 330, _w 230); (_w 394, _w 256); (_w 330, _w 282)] (Some BLUE)
    None 1;;
  line d [_w 98; _w 340; _w 370; _w 340] (Some SOFT_WHITE) (_stroke 24) None;;
  polygon d [(_w 370, _w 314); (_w 434, _w 340); (_w 370, _w 366)] (Some ORANGE)
    None 1;;
  mret img.

Definition icon_about : M Ref :=
  '(img, d) ← _new;
  ellipse d (_w 110, _w 110, _w 402, _w 402) None (Some WHITE) (_stroke 28);;
  ellipse d (_w 244, _w 168, _w 268, _w 192) (Some BLUE) None 1;;
  line d [_w 256; _w 216; _w 256; _w 330] (Some WHITE) (_stroke 26) None;;
  mret img.

Definition icon_no_song : M Ref :=
  '(img, d) ← _new;
  _rounded_rect d (_w 120, _w 96, _w 318, _w 394) (_w 24) SOFT_WHITE (_stroke
    26);;
  line d [_w 338; _w 170; _w 418; _w 144; _w 418; _w 258] (Some BLUE) (_stroke
    20) (Some "curve");;
  ellipse d (_w 312, _w 274, _w 358, _w 320) (Some BLUE) None 1;;
  line d [_w 118; _w 402; _w 404; _w 108] (Some ORANGE) (_stroke 22) None;;
  mret img.

Definition icon_gender (female : bool) : M Ref :=
  '(img, d) ← _new;
  let s := _stroke 24 in
  ellipse d (_w 180, _w 96, _w 332, _w 248) None (Some WHITE) s;;
  (if female
   then arc d (_w 158, _w 90, _w 354, _w 286) 205 335 (Some BLUE) (_stroke 30)
   else rounded_rectangle d (_w 176, _w 90, _w 336, _w 156) (_w 26)
          (Some BLUE) None 1);;
  rounded_rectangle d (_w 108, _w 252, _w 404, _w 418) (_w 90) None
    (Some WHITE) s;;
  mret img.

Definition icon_beats (count : Z) : M Ref :=
  '(img, d) ← _new;
  let spacing := 70 in
  let total := (count - 1) * spacing in
  let start := 256 - total `div` 2 in
  for_each (range count) (fun i =>
    let x := start + i * spacing in
    let color := if i =? count - 1 then ORANGE else SOFT_WHITE in
    ellipse d (_w (inject_Z (x - 22)), _w 220, _w (inject_Z (x + 22)), _w 264)
      (Some color) None 1);;
  line d [_w 130; _w 320; _w 382; _w 320] (Some WHITE) (_stroke 18) None;;
  mret img.

Definition icon_easepocket : M Ref :=
  '(img, d) ← _new;
  ellipse d (_w 92, _w 86, _w 420, _w 414) None (Some SOFT_WHITE) (_stroke 20);;
  line d [_w 124; _w 256; _w 188; _w 256; _w 236; _w 210; _w 280; _w 302; _w
    336; _w 236; _w 390; _w 236] (Some BLUE) (_stroke 20) (Some "curve");;
  ellipse d (_w 356, _w 146, _w 392, _w 182) (Some ORANGE) None 1;;
  ellipse d (_w 140, _w 318, _w 170, _w 348) (Some (120, 120, 255, 210)) None
    1;;
  mret img.


Definition ICON_BUILD : list (Path * M Ref) := [
  (ICON_SET </> "Singing.png", icon_singing);
  (ICON_SET </> "Lyrics.png", icon_lyrics);
  (ICON_SET </> "sessions.png", icon_sessions);
  (ICON_SET </> "Profile.png", icon_profile);
  (ICON_SET </> "Live_mode.png", icon_live_mode);
  (ICON_SET </> "Lyrics_sync.png", icon_lyrics_sync);
  (ICON_SET </> "Feedback_intensity_high.png", icon_feedback true);
  (ICON_SET </> "Feedback_intensity_low.png", icon_feedback false);
  (ICON_SET </> "Mindfullness_voice.png", icon_mindfulness_voice);
  (ICON_SET </> "Language_accent.png", icon_language_accent);
  (ICON_SET </> "howto-icon.png", icon_howto);
  (ASSETS </> "record_icon.png", icon_record);
  (ASSETS </> "Stop_icon.png", icon_stop);
  (ASSETS </> "metronome_icon.png", icon_metronome);
  (ASSETS </> "flag_icon.png", icon_flag);
  (ASSETS </> "bpm_icon.png", icon_bpm);
  (ASSETS </> "count_in_icon.png", icon_count_in);
  (ASSETS </> "lyrics_flow_speed_icon.png", icon_lyrics_flow);
  (ASSETS </> "about_icon.png", icon_about);
  (ASSETS </> "nosong_state.png", icon_no_song);
  (ASSETS </> "Female.png", icon_gender true);
  (ASSETS </> "Male.png", icon_gender false);
  (ASSETS </> "two_beats.png", icon_beats 2);
  (ASSETS </> "four_beats.png", icon_beats 4);
  (ASSETS </> "EasePocket.png", icon_easepocket)
].

(** The body of the loop under [if __name__ == "__main__"]. *)
Definition generate `{Pil.Pillow} (entry : Path * M Ref) : M unit :=
  let '(target, builder) := entry in
  img ← builder;
  _save img target;;
  rel ← lift (relative_to target ROOT);
  print (Text ("generated " +:+ as_posix rel)).

Definition main `{Pil.Pillow} : M unit := for_each ICON_BUILD generate.

End Icons.

(** ** scripts/optimize_web_assets.py *)

Module WebAssets.

Definition ROOT : Path := [].
Definition IMAGES_ROOT : Path := ROOT </> "assets" </> "images".

Definition SKIP_PREFIXES : gset string := {[ "assets/images/web/" ]}.

Definition SKIP_EXACT : gset string := {[
  "assets/images/android-icon-background.png";
  "assets/images/android-icon-foreground.png";
  "assets/images/android-icon-monochrome.png"
]}.

(** The loop of [human_size] over [units[1:]], with its [break]. *)
Fixpoint human_size_loop (next_units : list string) (value : Q) (unit : string)
    : Q * string :=
  match next_units with
  | [] => (value, unit)
  | next_unit :: rest =>
      match (value ?= 1024)%Q with
      | Lt => (value, unit)
      | _ => human_size_loop rest (value / 1024)%Q next_unit
      end
  end.

(** The division of a float by 1024 is exact, so past [float(size)] the
    value is a rational number. *)
Definition human_size (size : Z) : result string :=
  let units := ["B"; "KB"; "MB"] in
  value ← float_of_int size;
  let unit := units !!! 0%nat in
  let '(value, unit) := human_size_loop (tail units) value unit in
  if String.eqb unit "B" then mret (pretty (int value) +:+ unit)
  else mret (format_1f value +:+ unit).

Definition should_process (path : Path) : result bool :=
  below ← relative_to path ROOT;
  let rel := as_posix below in
  if bool_decide (set_Exists (fun prefix => startswith rel prefix = true)
                             SKIP_PREFIXES)
  then mret false
  else if bool_decide (rel ∈ SKIP_EXACT) then mret false
  else if endswith (name path) ".web.png" then mret false
  else mret true.

(** [[p for p in ps if should_process(p)]] *)
Fixpoint comprehension (ps : list Path) : result (list Path) :=
  match ps with
  | [] => mret []
  | p :: ps' =>
      keep ← should_process p;
      rest ← comprehension ps';
      mret (if keep : bool then p :: rest else rest)
  end.

Definition discover_sources : M (list Path) :=
  found ← rglob IMAGES_ROOT ".png";
  sources ← lift (comprehension found);
  mret (sorted sources).

Section Optimizer.
Context `{Pil.Pillow}.

Definition optimize (src : Path) : M (Path * Z * Z) :=
  dst ← lift (with_name src (stem src +:+ ".web.png"));
  before ← stat_size src;
  image ← Image.open src;
  optimized ← (if bool_decide ("A" ∈ Pil.getbands (Pil.mode image))
               then Image.convert image Pil.RGBA
               else Image.convert image Pil.RGB);
  Image.save optimized dst (Some "PNG") (Pil.mkSaveOptions true (Some 9));;
  after ← stat_size dst;
  after ← (if before <? after
           then copyfile src dst;; stat_size dst
           else mret after);
  mret (dst, before, after).

(** [0.0 if before == 0 else (1 - after / before) * 100], the expression
    [run] evaluates for each file and once more for the totals. *)
Definition percent_smaller (before after : Z) : result Q :=
  if before =? 0 then mret 0%Q
  else q ← truediv after before; mret ((1 - q) * 100)%Q.

(** [human_size] and the f-strings only format the numbers of a report
    line, which the lines of the output keep as numbers; [human_size] raises
    only from about 2^1024 bytes on, more than a file holds. *)
Definition run (sources : list Path) : M Z :=
  print (Text "Optimizing web icon assets:");;
  '(total_before, total_after, count) ←
    for_fold sources (0, 0, 0) (fun '(total_before, total_after, count) src =>
      '(dst, before, after) ← optimize src;
      let total_before := total_before + before in
      let total_after := total_after + after in
      reduction ← lift (percent_smaller before after);
      src_rel ← lift (relative_to src ROOT);
      dst_rel ← lift (relative_to dst ROOT);
      print (FileReport (as_posix src_rel) (as_posix dst_rel)
                        before after reduction);;
      mret (total_before, total_after, count + 1));
  total_reduction ← lift (percent_smaller total_before total_after);
  print (TotalReport count total_before total_after total_reduction);;
  mret 0.

Definition main : M Z :=
  sources ← discover_sources;
  run sources.

End Optimizer.

End WebAssets.

(** ** Vocabulary of the statements *)

Definition with_heap (w : World) (h : list Pil.Image) : World :=
  mkWorld h (dirs w) (files w) (stdout w).

(** The world a fresh interpreter starts in. *)
Definition initial : World := mkWorld [] ∅ ∅ [].

(** The canvas as [_new] makes it. *)
Definition blank_canvas : Pil.Image :=
  Pil.new Pil.RGBA (Icons.CANVAS, Icons.CANVAS) (0, 0, 0, 0).

(** An image after a sequence of drawing calls, oldest first. *)
Definition draw_all (ps : list Pil.Prim) (im : Pil.Image) : Pil.Image :=
  foldl (fun im p => Pil.draw p im) im ps.

(** [draws r m a ps]: run while the canvas [r] is the newest object of the
    heap, [m] returns [a], makes the drawing calls [ps] on that canvas and
    touches nothing else in the world. *)
Definition draws {A} (r : Ref) (m : M A) (a : A) (ps : list Pil.Prim) : Prop :=
  forall w h im,
    heap w = h ++ [im] -> length h = r ->
    m w = Ok (a, with_heap w (h ++ [draw_all ps im])).

(** [renders b img]: in every world the builder [b] succeeds, returns a
    reference to a new object holding [img], and leaves the older objects,
    the filesystem and the output as they were. *)
Definition renders (b : M Ref) (img : Pil.Image) : Prop :=
  forall w, b w = Ok (length (heap w), with_heap w (heap w ++ [img])).

(** The canvas a builder returns when nothing else has run before it. *)
Definition canvas (b : M Ref) : option Pil.Image :=
  match b initial with
  | Ok (r, w) => heap w !! r
  | Raise _ => None
  end.

(** The builders without a parameter. *)
Definition plain_builders : list (M Ref) := [
  Icons.icon_singing; Icons.icon_lyrics; Icons.icon_sessions;
  Icons.icon_profile; Icons.icon_live_mode; Icons.icon_lyrics_sync;
  Icons.icon_mindfulness_voice; Icons.icon_language_accent;
  Icons.icon_howto; Icons.icon_record; Icons.icon_stop;
  Icons.icon_metronome; Icons.icon_flag; Icons.icon_bpm;
  Icons.icon_count_in; Icons.icon_lyrics_flow; Icons.icon_about;
  Icons.icon_no_song; Icons.icon_easepocket
].

(** Every call of a builder: a plain builder, or a parametric one at some
    value of its parameter. *)
Inductive builder_call : M Ref -> Prop :=
| call_plain b : b ∈ plain_builders -> builder_call b
| call_feedback high : builder_call (Icons.icon_feedback high)
| call_gender female : builder_call (Icons.icon_gender female)
| call_beats count : builder_call (Icons.icon_beats count).

(** The primitives on an image, oldest first. *)
Definition drawn_on (im : Pil.Image) : list Pil.Prim := Pil.drawn (Pil.raster im).

(** *** The Coordinate Scaler as the specification words it *)

(** "returns [round(v * SUPERSAMPLE_FACTOR)] as an integer canvas unit" *)
Definition scaler_as_specified (v : Q) : Z := round (v * inject_Z 4).

(** *** Reading a drawing *)

Definition is_ellipse (p : Pil.Prim) : bool :=
  match p with Pil.Ellipse _ _ _ _ => true | _ => false end.

(** The beat markers of a drawing: its ellipses. *)
Definition markers (im : Pil.Image) : list Pil.Prim :=
  filter (fun p => is_ellipse p = true) (drawn_on im).

(** Bounding box of a primitive that has one. *)
Definition bbox (p : Pil.Prim) : option Pil.Box :=
  match p with
  | Pil.Ellipse xy _ _ _ | Pil.Arc xy _ _ _ _
  | Pil.RoundedRectangle xy _ _ _ _ => Some xy
  | _ => None
  end.

(** Twice the centre of a box (so that no halving is needed). *)
Definition centre2 (xy : Pil.Box) : Z * Z :=
  let '(x0, y0, x1, y1) := xy in (x0 + x1, y0 + y1).

Definition extent (xy : Pil.Box) : Z * Z :=
  let '(x0, y0, x1, y1) := xy in (x1 - x0, y1 - y0).

Definition fill_of (p : Pil.Prim) : option Pil.Color :=
  match p with
  | Pil.Ellipse _ f _ _ | Pil.Arc _ _ _ f _ | Pil.Line _ f _ _
  | Pil.Polygon _ f _ _ | Pil.RoundedRectangle _ _ f _ _
  | Pil.Text _ _ f _ => f
  end.

(** Differences between neighbours of a list of numbers. *)
Definition gaps (xs : list Z) : list Z :=
  zip_with (fun a b => b - a) xs (tail xs).

(** Horizontal centres of the markers, doubled. *)
Definition marker_centres2 (im : Pil.Image) : list Z :=
  omap (fun p => (fst ∘ centre2) <$> bbox p) (markers im).

(** [count] markers of one size on one height, evenly spaced, centred on
    the logical midpoint 256, the last in the accent colour and the others
    in the muted one. *)
Definition beat_row (count : nat) (im : Pil.Image) : Prop :=
  let ms := markers im in
  let cs := marker_centres2 im in
  length ms = count
  /\ length cs = count
  /\ (exists step, Forall (fun g => g = 2 * step) (gaps cs))
  /\ (exists e, Forall (fun p => extent <$> bbox p = Some e) ms)
  /\ (exists y, Forall (fun p => (snd ∘ centre2) <$> bbox p = Some y) ms)
  /\ head cs ≫= (fun a => (fun b => a + b) <$> last cs)
     = Some (4 * Icons._w 256)
  /\ fill_of <$> ms
     = replicate (count - 1) (Some Icons.SOFT_WHITE) ++ [Some Icons.ORANGE].

(** *** A boolean selector as the specification words it *)

(** "swapping the boolean swaps exactly that element's color/shape and
    nothing else": the two drawings have the same number of elements and
    differ at exactly one position. *)
Definition swaps_one_element (b : bool -> M Ref) : Prop :=
  exists img_true img_false k,
    renders (b true) img_true /\ renders (b false) img_false
    /\ length (drawn_on img_true) = length (drawn_on img_false)
    /\ drawn_on img_true !! k <> drawn_on img_false !! k
    /\ forall i, i <> k -> drawn_on img_true !! i = drawn_on img_false !! i.

(** What a bar of the feedback chart keeps whatever the selector says:
    left and right edge, baseline, corner radius, outline and width. *)
Definition bar_frame (p : Pil.Prim) : option (Z * Z * Z * Z * option Pil.Color * Z) :=
  match p with
  | Pil.RoundedRectangle (x0, y0, x1, y1) radius _ outline width =>
      Some (x0, x1, y1, radius, outline, width)
  | _ => None
  end.

Definition bar_height (p : Pil.Prim) : option Z :=
  (snd ∘ extent) <$> bbox p.

(** *** The filesystem *)

Definition with_dirs (w : World) (ds : gset Path) : World :=
  mkWorld (heap w) ds (files w) (stdout w).

(** A filesystem as an operating system keeps it: nothing is both a
    directory and a file, and the parent of every entry is a directory. *)
Record fs_wf (w : World) : Prop := {
  wf_files : forall p, is_dir p w = true -> files w !! p = None;
  wf_dirs : forall p, p ∈ dirs w -> is_dir (parent p) w = true;
  wf_parents : forall p, is_Some (files w !! p) -> is_dir (parent p) w = true
}.

(** A file can be written at [target]: the path is not a directory, and no
    file sits where one of its parent directories has to be. *)
Definition writable (w : World) (target : Path) : Prop :=
  is_dir target w = false
  /\ forall q, q `prefix_of` parent target -> files w !! q = None.

(** The name of the path has the extension of a PNG file. *)
Definition png_named (p : Path) : Prop :=
  lower (snd (splitext (name p))) = ".png".

(** The bytes [_save] writes for a canvas. *)
Definition saved `{Pil.Pillow} (img : Pil.Image) : list Byte.byte :=
  Pil.png_encode Pil.default_options
    (Pil.resize img (Icons.SIZE, Icons.SIZE) Pil.LANCZOS).

(** The line the entry point prints for a destination. *)
Definition report (target : Path) : Line :=
  Text ("generated " +:+ as_posix target).

(** The destinations of the registry, in its order. *)
Definition targets : list Path := fst <$> Icons.ICON_BUILD.

(** The canvases of the registry's entries, in its order. *)
Definition catalog_images : list Pil.Image :=
  omap (fun e => canvas (snd e)) Icons.ICON_BUILD.

(** Writing the entries' files one after the other. *)
Definition write_all `{Pil.Pillow} (fs : gmap Path (list Byte.byte))
    (saves : list (Path * Pil.Image)) : gmap Path (list Byte.byte) :=
  foldl (fun m s => <[fst s := saved (snd s)]> m) fs saves.

(** *** An implementation of the Pillow interface to run the scripts on *)

(** Every primitive floods the image with its fill colour, resizing samples
    the nearest pixel, every file decodes to a one-pixel RGB image and every
    image encodes to sixty zero bytes. *)
Definition flat_pillow : Pil.Pillow := {|
  Pil.paint p _ _ c := default c (fill_of p);
  Pil.resample _ _ _ px x y := px x y;
  Pil.convert_pixel _ _ c := c;
  Pil.decode_pixel _ _ _ := (0, 0, 0, 0);
  Pil.png_encode _ _ := replicate 60 Byte.x00;
  Pil.png_header _ := Some (Pil.RGB, (1, 1));
  Pil.png_complete _ := true
|}.

(** A codec that keeps the mode: a file is sixty bytes, the first of which
    names the mode of the image (0 for L, 1 for LA, 2 for RGB, 3 for RGBA);
    whatever starts with one of these bytes is a file of that mode, however
    short, and has all its pixel data unless it is a single byte. *)
Definition mode_tag (m : Pil.Mode) : Byte.byte :=
  match m with
  | Pil.L => Byte.x00 | Pil.LA => Byte.x01 | Pil.RGBA => Byte.x03
  | _ => Byte.x02
  end.

Definition tagged_mode (data : list Byte.byte) : option Pil.Mode :=
  match data with
  | Byte.x00 :: _ => Some Pil.L
  | Byte.x01 :: _ => Some Pil.LA
  | Byte.x02 :: _ => Some Pil.RGB
  | Byte.x03 :: _ => Some Pil.RGBA
  | _ => None
  end.

Definition tagged_pillow : Pil.Pillow := {|
  Pil.paint p _ _ c := default c (fill_of p);
  Pil.resample _ _ _ px x y := px x y;
  Pil.convert_pixel _ _ c := c;
  Pil.decode_pixel _ _ _ := (0, 0, 0, 0);
  Pil.png_encode _ im := mode_tag (Pil.mode im) :: replicate 59 Byte.x00;
  Pil.png_header data := (fun m => (m, (1, 1))) <$> tagged_mode data;
  Pil.png_complete data := bool_decide (1 < length data)%nat
|}.

(** *** The optimizer *)

(** The path of the variant of a source: same directory, the suffix
    [.web.png] after the source's stem. *)
Definition variant (src : Path) : Path :=
  parent src </> (stem src +:+ ".web.png").

(** The colour mode the optimizer converts an image to. *)
Definition normalized (image : Pil.Image) : Pil.Image :=
  if bool_decide ("A" ∈ Pil.getbands (Pil.mode image))
  then Pil.convert image Pil.RGBA
  else Pil.convert image Pil.RGB.

(** The bytes of the optimizer's re-encoding of an image. *)
Definition reencoded `{Pil.Pillow} (image : Pil.Image) : list Byte.byte :=
  Pil.png_encode (Pil.mkSaveOptions true (Some 9)) (normalized image).

Definition size_of (data : list Byte.byte) : Z := Z.of_nat (length data).

Definition with_files (w : World) (fs : gmap Path (list Byte.byte)) : World :=
  mkWorld (heap w) (dirs w) fs (stdout w).

Definition with_stdout (w : World) (out : list Line) : World :=
  mkWorld (heap w) (dirs w) (files w) out.

(** [m] raises the exception [e] in no world. *)
Definition never_raises {A} (e : exn) (m : M A) : Prop :=
  forall w, m w <> Raise e.

(** The modes a PNG file decodes to. *)
Definition png_modes : list Pil.Mode :=
  [Pil.Bilevel; Pil.L; Pil.LA; Pil.I; Pil.I16; Pil.P; Pil.RGB; Pil.RGBA].

(** A small filesystem: one 50-byte PNG under [assets/images]. *)
Definition sample_source : Path := ["assets"; "images"; "a.png"].

Definition sample_world : World :=
  mkWorld [] {[ ["assets"]; ["assets"; "images"] ]}
          {[ sample_source := replicate 50 Byte.x00 ]} [].

(** A filesystem whose image tree holds nothing but a directory that is
    named like a PNG. *)
Definition sample_directory : Path := ["assets"; "images"; "x.png"].

Definition directory_world : World :=
  mkWorld [] {[ ["assets"]; ["assets"; "images"]; sample_directory ]} ∅ [].

(** The boxes of the markers, in canvas units. *)
Definition marker_boxes (im : Pil.Image) : list Pil.Box :=
  omap bbox (markers im).

(** The horizontal centres of the markers, in canvas units, where every
    marker's box has a centre on the grid. *)
Definition marker_centres (im : Pil.Image) : list Z :=
  (fun '(x0, _, x1, _) => (x0 + x1) `div` 2) <$> marker_boxes im.

(** A row of numbers whose neighbours all lie [step] apart and whose first
    and last lie as far from [mid], on either side of it. *)
Definition evenly_spaced (step mid : Z) (cs : list Z) : Prop :=
  Forall (fun g => g = step) (gaps cs)
  /\ exists a b, head cs = Some a /\ last cs = Some b /\ a + b = 2 * mid.

(** *** Where a drawing lies *)

(** The numbers a primitive is placed by: the corners of its box, the
    points of its line or polygon, the anchor of its text. *)
Definition coords (p : Pil.Prim) : list Z :=
  match p with
  | Pil.Ellipse (x0, y0, x1, y1) _ _ _ | Pil.Arc (x0, y0, x1, y1) _ _ _ _
  | Pil.RoundedRectangle (x0, y0, x1, y1) _ _ _ _ => [x0; y0; x1; y1]
  | Pil.Line xy _ _ _ => xy
  | Pil.Polygon xy _ _ _ => xy ≫= (fun '(x, y) => [x; y])
  | Pil.Text (x, y) _ _ _ => [x; y]
  end.

(** Every coordinate of the primitive lies on the canvas. *)
Definition on_canvas (p : Pil.Prim) : Prop :=
  Forall (fun c => 0 <= c <= Icons.CANVAS) (coords p).

(** The builder draws on the canvas only. *)
Definition stays_on_canvas (b : M Ref) : Prop :=
  exists img, renders b img /\ Forall on_canvas (drawn_on img).

(** The marker [icon_beats count] draws in round [i] of its loop, and the
    baseline it draws after the loop. *)
Definition beat_marker (count i : Z) : Pil.Prim :=
  let x := 256 - ((count - 1) * 70) `div` 2 + i * 70 in
  Pil.Ellipse (Icons._w (inject_Z (x - 22)), Icons._w 220,
               Icons._w (inject_Z (x + 22)), Icons._w 264)
              (Some (if i =? count - 1 then Icons.ORANGE else Icons.SOFT_WHITE))
              None 1.

Definition beat_baseline : Pil.Prim :=
  Pil.Line [Icons._w 130; Icons._w 320; Icons._w 382; Icons._w 320]
           (Some Icons.WHITE) (Icons._stroke 18) None.

(** *** The optimizer as the specification words it *)

(** "for each accepted source ... it writes the variant to a sibling path
    ..., normalizing to RGBA when the source has an alpha band and to RGB
    otherwise": whatever source the optimizer is given, the file it leaves
    at the variant's path holds an image of the normalized mode. *)
Definition writes_normalized_variants `{Pil.Pillow} : Prop :=
  forall w src data image,
    fs_wf w -> name src <> "" ->
    files w !! src = Some data -> Pil.png_decode data = Some image ->
    is_dir (variant src) w = false ->
    exists res w' out image',
      WebAssets.optimize src w = Ok (res, w')
      /\ files w' !! variant src = Some out
      /\ Pil.png_decode out = Some image'
      /\ Pil.mode image' = Pil.mode (normalized image).

(** "accepts exactly the PNG files under the configured asset tree": what
    discovery returns is a file. *)
Definition selects_files_only : Prop :=
  forall w sources src,
    fs_wf w -> WebAssets.discover_sources w = Ok (sources, w) ->
    src ∈ sources -> is_Some (files w !! src).

(** *** A run of the optimizer *)

(** The bytes at a path; nothing where there is no file. *)
Definition content (w : World) (p : Path) : list Byte.byte :=
  default [] (files w !! p).

Definition sum_sizes (sizes : list Z) : Z := foldr Z.add 0 sizes.

(** What the optimizer needs of a source: a name, bytes that decode, and a
    variant path that is no directory. *)
Definition optimizable `{Pil.Pillow} (w : World) (src : Path) : Prop :=
  name src <> "" /\ is_dir (variant src) w = false
  /\ exists data image,
       files w !! src = Some data /\ Pil.png_decode data = Some image.

(** The bytes the optimizer leaves for a source holding [data]: the
    re-encoding of the image, or [data] itself where that is larger. *)
Definition optimized `{Pil.Pillow} (data : list Byte.byte) : list Byte.byte :=
  match Pil.png_decode data with
  | Some image =>
      if size_of data <? size_of (reencoded image) then data
      else reencoded image
  | None => data
  end.

(** The body of the loop of [run], on its three counters. *)
Definition run_body `{Pil.Pillow} : Z * Z * Z -> Path -> M (Z * Z * Z) :=
  fun '(total_before, total_after, count) src =>
  '(dst, before, after) ← WebAssets.optimize src;
  let total_before := total_before + before in
  let total_after := total_after + after in
  reduction ← lift (WebAssets.percent_smaller before after);
  src_rel ← lift (relative_to src WebAssets.ROOT);
  dst_rel ← lift (relative_to dst WebAssets.ROOT);
  print (FileReport (as_posix src_rel) (as_posix dst_rel)
                    before after reduction);;
  mret (total_before, total_after, count + 1).

Definition is_file_report (l : Line) : Prop :=
  match l with FileReport _ _ _ _ _ => True | _ => False end.

(** The percentage [percent_smaller] returns. *)
Definition reduction (before after : Z) : Q :=
  if before =? 0 then 0%Q
  else ((1 - inject_Z after / inject_Z before) * 100)%Q.

(** The line [run] prints for a source, from what the source holds when the
    run starts: its path and its variant's, its size, the size of what the
    optimizer leaves for it, and the reduction from the one to the other. *)
Definition file_report `{Pil.Pillow} (w : World) (src : Path) : Line :=
  let before := size_of (content w src) in
  let after := size_of (optimized (content w src)) in
  FileReport (as_posix src) (as_posix (variant src)) before after
             (reduction before after).

(** ** The monad and the heap *)

Lemma bind_run {A B} (m : M A) (k : A -> M B) (w : World) :
  (m ≫= k) w = match m w with Ok (a, w') => k a w' | Raise e => Raise e end.
Proof. reflexivity. Qed.

Lemma draw_all_app ps qs im :
  draw_all (ps ++ qs) im = draw_all qs (draw_all ps im).
Proof. apply foldl_app. Qed.

Lemma draws_ret {A} r (a : A) : draws r (mret a) a [].
Proof. intros w h im Hh _. unfold with_heap. cbn. rewrite <- Hh. by destruct w. Qed.

Lemma draws_bind {A B} r (m : M A) (k : A -> M B) a b ps qs :
  draws r m a ps -> draws r (k a) b qs -> draws r (m ≫= k) b (ps ++ qs).
Proof.
  intros Hm Hk w h im Hh Hr. rewrite bind_run, (Hm w h im Hh Hr).
  rewrite draw_all_app.
  exact (Hk (with_heap w (h ++ [draw_all ps im])) h (draw_all ps im) eq_refl Hr).
Qed.

Lemma draws_call r p : draws r (update r (Pil.draw p)) tt [p].
Proof.
  intros w h im Hh Hr. unfold update, with_heap. rewrite Hh. subst r.
  replace (length h) with (length h + 0)%nat by lia.
  by rewrite alter_app_r.
Qed.

Lemma draws_for_each {A} r (xs : list A) (body : A -> M unit) g :
  (forall x, draws r (body x) tt (g x)) ->
  draws r (for_each xs body) tt (xs ≫= g).
Proof.
  intros Hbody. induction xs as [|x xs IH]; simpl.
  - apply draws_ret.
  - apply (draws_bind _ _ _ tt); [apply Hbody | apply IH].
Qed.

Section Calls.
Context (r : Ref) (m : Pil.Mode) (b : bool).
Let d := ImageDraw.mkDraw r m b.

Lemma draws_ellipse xy fill outline width :
  draws r (ImageDraw.ellipse d xy fill outline width) tt
        [Pil.Ellipse xy fill outline width].
Proof. apply draws_call. Qed.

Lemma draws_arc xy start end_ fill width :
  draws r (ImageDraw.arc d xy start end_ fill width) tt
        [Pil.Arc xy start end_ fill width].
Proof. apply draws_call. Qed.

Lemma draws_line xy fill width joint :
  draws r (ImageDraw.line d xy fill width joint) tt
        [Pil.Line xy fill width joint].
Proof. apply draws_call. Qed.

Lemma draws_polygon xy fill outline width :
  draws r (ImageDraw.polygon d xy fill outline width) tt
        [Pil.Polygon xy fill outline width].
Proof. apply draws_call. Qed.

Lemma draws_rounded_rectangle xy radius fill outline width :
  draws r (ImageDraw.rounded_rectangle d xy radius fill outline width) tt
        [Pil.RoundedRectangle xy radius fill outline width].
Proof. apply draws_call. Qed.

Lemma draws_rounded_rect xy radius outline width :
  draws r (Icons._rounded_rect d xy radius outline width) tt
        [Pil.RoundedRectangle xy radius None (Some outline) width].
Proof. apply draws_call. Qed.

Lemma draws_text xy s fill font :
  draws r (ImageDraw.text d xy s fill font) tt [Pil.Text xy s fill font].
Proof. apply draws_call. Qed.

End Calls.

Lemma new_run w :
  Icons._new w
  = Ok ((length (heap w), ImageDraw.mkDraw (length (heap w)) Pil.RGBA false),
        with_heap w (heap w ++ [blank_canvas])).
Proof.
  unfold Icons._new. rewrite bind_run. unfold alloc at 1.
  rewrite bind_run. unfold ImageDraw.Draw. rewrite bind_run. unfold load at 1.
  cbn [heap]. set (x := _ !!! _).
  assert (Hx : x = blank_canvas).
  { subst x. apply list_lookup_total_correct.
    rewrite lookup_app_r by lia. by rewrite Nat.sub_diag. }
  rewrite Hx. reflexivity.
Qed.

Lemma renders_new (k : Ref * ImageDraw.ImageDraw -> M Ref) ps :
  (forall r, draws r (k (r, ImageDraw.mkDraw r Pil.RGBA false)) r ps) ->
  renders (Icons._new ≫= k) (draw_all ps blank_canvas).
Proof.
  intros Hk w. rewrite bind_run, new_run. cbv beta iota.
  exact (Hk _ (with_heap w (heap w ++ [blank_canvas])) (heap w)
            blank_canvas eq_refl eq_refl).
Qed.

Lemma renders_canvas b img : renders b img -> canvas b = Some img.
Proof. intros Hb. unfold canvas. by rewrite (Hb initial). Qed.

Lemma renders_unique b img img' : renders b img -> renders b img' -> img = img'.
Proof. intros H1%renders_canvas H2%renders_canvas. congruence. Qed.

(** Drawing changes neither the mode nor the size of an image, and keeps
    what was on it. *)
Lemma draw_all_mode ps im : Pil.mode (draw_all ps im) = Pil.mode im.
Proof.
  unfold draw_all. revert im.
  induction ps as [|p ps IH]; intros im; cbn; [done|]. by rewrite IH.
Qed.

Lemma draw_all_size ps im : Pil.size (draw_all ps im) = Pil.size im.
Proof.
  unfold draw_all. revert im.
  induction ps as [|p ps IH]; intros im; cbn; [done|]. by rewrite IH.
Qed.

Lemma draw_all_blank ps im :
  Pil.blank (Pil.raster (draw_all ps im)) = Pil.blank (Pil.raster im).
Proof.
  unfold draw_all. revert im.
  induction ps as [|p ps IH]; intros im; cbn; [done|]. by rewrite IH.
Qed.

Lemma draw_all_drawn ps im : drawn_on (draw_all ps im) = drawn_on im ++ ps.
Proof.
  unfold draw_all, drawn_on. revert im.
  induction ps as [|p ps IH]; intros im; cbn.
  - by rewrite app_nil_r.
  - rewrite IH. cbn. by rewrite <- app_assoc.
Qed.

(** A builder's body is a sequence of drawing calls on one handle: each
    step is a return, a call, a loop of calls, or two of these in a row. *)
Ltac draw_step :=
  lazymatch goal with
  | |- draws _ (mret _) _ _ => eapply draws_ret
  | |- draws _ (_ ≫= _) _ _ =>
      eapply draws_bind; [draw_step | cbv beta; draw_step]
  | |- draws _ (for_each _ _) _ _ =>
      eapply draws_for_each; intros; cbv beta; draw_step
  | |- draws _ (ImageDraw.ellipse _ _ _ _ _) _ _ => eapply draws_ellipse
  | |- draws _ (ImageDraw.arc _ _ _ _ _ _) _ _ => eapply draws_arc
  | |- draws _ (ImageDraw.line _ _ _ _ _) _ _ => eapply draws_line
  | |- draws _ (ImageDraw.polygon _ _ _ _ _) _ _ => eapply draws_polygon
  | |- draws _ (ImageDraw.rounded_rectangle _ _ _ _ _ _) _ _ =>
      eapply draws_rounded_rectangle
  | |- draws _ (Icons._rounded_rect _ _ _ _ _) _ _ => eapply draws_rounded_rect
  | |- draws _ (ImageDraw.text _ _ _ _ _) _ _ => eapply draws_text
  end.

Ltac render :=
  eexists; eapply renders_new; intros ?;
  cbn [for_each for_fold enumerate negb andb orb]; cbv beta iota zeta;
  draw_step.

(** ** The builders *)

Lemma plain_builders_render :
  Forall (fun b => exists ps, renders b (draw_all ps blank_canvas))
         plain_builders.
Proof.
  unfold plain_builders.
  repeat apply Forall_cons_2; try (by constructor); cbv beta;
    match goal with |- context [renders ?b] => unfold b end; render.
Qed.

Lemma icon_feedback_renders high :
  exists ps, renders (Icons.icon_feedback high) (draw_all ps blank_canvas).
Proof. unfold Icons.icon_feedback. destruct high; render. Qed.

Lemma icon_gender_renders female :
  exists ps, renders (Icons.icon_gender female) (draw_all ps blank_canvas).
Proof. unfold Icons.icon_gender. destruct female; render. Qed.

Lemma icon_beats_renders count :
  exists ps, renders (Icons.icon_beats count) (draw_all ps blank_canvas).
Proof. unfold Icons.icon_beats. render. Qed.

Lemma builder_call_renders b :
  builder_call b -> exists ps, renders b (draw_all ps blank_canvas).
Proof.
  intros [b' Hb | high | female | count].
  - by apply (proj1 (Forall_forall _ _) plain_builders_render).
  - apply icon_feedback_renders.
  - apply icon_gender_renders.
  - apply icon_beats_renders.
Qed.

(** The canvas of a builder that renders is its result in every world. *)
Lemma renders_of_canvas b img :
  (exists img', renders b img') -> canvas b = Some img -> renders b img.
Proof.
  intros [img' Hb] Hc. rewrite (renders_canvas _ _ Hb) in Hc. congruence.
Qed.

(** ** The filesystem *)

Lemma is_dir_true p w : is_dir p w = true <-> p = [] \/ p ∈ dirs w.
Proof. unfold is_dir. apply bool_decide_eq_true. Qed.

Lemma is_dir_false p w : is_dir p w = false <-> p <> [] /\ p ∉ dirs w.
Proof. unfold is_dir. rewrite bool_decide_eq_false. tauto. Qed.

Lemma is_file_true p w : is_file p w = true <-> is_Some (files w !! p).
Proof. unfold is_file. apply bool_decide_eq_true. Qed.

Lemma is_file_false p w : is_file p w = false <-> files w !! p = None.
Proof.
  unfold is_file. rewrite bool_decide_eq_false. symmetry. apply eq_None_not_Some.
Qed.

Lemma parent_snoc (p : Path) c : parent (p ++ [c]) = p.
Proof. apply removelast_last. Qed.

Lemma path_snoc (p : Path) : p = [] \/ exists p' c, p = p' ++ [c].
Proof.
  destruct p as [|a p] using rev_ind; [by left|]. right. by exists p, a.
Qed.

Lemma prefix_parent (q p : Path) :
  q `prefix_of` p -> q = p \/ q `prefix_of` parent p.
Proof.
  destruct (path_snoc p) as [->|(p' & c & ->)].
  - intros ->%prefix_nil_inv. by left.
  - rewrite parent_snoc. intros [k Hk].
    destruct (path_snoc k) as [->|(k' & c' & ->)].
    + left. by rewrite app_nil_r in Hk.
    + right. exists k'. rewrite app_assoc in Hk.
      by apply app_inj_tail in Hk as [? _].
Qed.

Lemma parent_prefix (p : Path) : parent p `prefix_of` p.
Proof.
  destruct (path_snoc p) as [->|(p' & c & ->)]; [done|].
  rewrite parent_snoc. by exists [c].
Qed.

Lemma parent_length (p : Path) : p <> [] -> S (length (parent p)) = length p.
Proof.
  destruct (path_snoc p) as [->|(p' & c & ->)]; [done|]. intros _.
  rewrite parent_snoc, length_app. cbn. lia.
Qed.

Lemma not_prefix_parent (p : Path) : p <> [] -> ~ p `prefix_of` parent p.
Proof.
  intros Hp Hpre%prefix_length. apply parent_length in Hp. lia.
Qed.

(** In a well-formed filesystem every prefix of a directory is one. *)
Lemma dir_prefix w p q :
  fs_wf w -> is_dir p w = true -> q `prefix_of` p -> is_dir q w = true.
Proof.
  intros Hw. remember (length p) as n eqn:Hn. revert p q Hn.
  induction n as [|n IH]; intros p q Hn Hp Hq.
  - symmetry in Hn. apply nil_length_inv in Hn as ->.
    apply prefix_nil_inv in Hq as ->. done.
  - destruct (prefix_parent _ _ Hq) as [->|Hq']; [done|].
    assert (p <> []) by (intros ->; done).
    apply (IH (parent p)); [|  |done].
    + apply parent_length in H. lia.
    + apply is_dir_true in Hp as [?|Hp]; [done|]. by apply (wf_dirs _ Hw).
Qed.

Lemma mkdir_from_ok n p w r : os_mkdir p w = Ok r -> mkdir_from n p w = Ok r.
Proof. intros H. destruct n; cbn [mkdir_from]; by rewrite H. Qed.

Lemma mkdir_from_exists n p w :
  is_dir p w = true -> mkdir_from n p w = Ok (tt, w).
Proof.
  intros H.
  destruct n; cbn [mkdir_from]; unfold os_mkdir; by rewrite H.
Qed.

Lemma mkdir_from_missing n p w :
  os_mkdir p w = Raise FileNotFoundError ->
  mkdir_from (S n) p w = (mkdir_from n (parent p);; os_mkdir p) w.
Proof. intros H. cbn [mkdir_from]. by rewrite H. Qed.

Lemma os_mkdir_new w p :
  is_dir p w = false -> files w !! p = None -> is_dir (parent p) w = true ->
  os_mkdir p w = Ok (tt, with_dirs w ({[p]} ∪ dirs w)).
Proof.
  intros Hd Hf%is_file_false Hp. unfold os_mkdir. by rewrite Hd, Hf, Hp.
Qed.

Lemma wf_add_dir w p :
  fs_wf w -> files w !! p = None -> is_dir (parent p) w = true ->
  fs_wf (with_dirs w ({[p]} ∪ dirs w)).
Proof.
  intros [Hf Hd Hp] Hnone Hpar. split; cbn.
  - intros q [->|Hq]%is_dir_true; cbn in *.
    + apply Hf. done.
    + apply elem_of_union in Hq as [->%elem_of_singleton|Hq]; [done|].
      apply Hf, is_dir_true. by right.
  - intros q Hq. apply is_dir_true. cbn.
    assert (Hold : is_dir (parent q) w = true).
    { apply elem_of_union in Hq as [->%elem_of_singleton|Hq']; [done|].
      by apply Hd. }
    apply is_dir_true in Hold as [?|?]; [by left|right].
    apply elem_of_union. by right.
  - intros q Hq. apply is_dir_true. cbn.
    specialize (Hp q Hq). apply is_dir_true in Hp as [?|?]; [by left|right].
    apply elem_of_union. by right.
Qed.

Lemma mkdir_from_run n p w :
  (length p <= n)%nat -> fs_wf w ->
  (forall q, q `prefix_of` p -> files w !! q = None) ->
  exists ds,
    mkdir_from n p w = Ok (tt, with_dirs w ds)
    /\ (forall q, q ∈ ds <-> q ∈ dirs w \/ (q <> [] /\ q `prefix_of` p))
    /\ fs_wf (with_dirs w ds).
Proof.
  revert p w. induction n as [|n IH]; intros p w Hlen Hw Hfree.
  - apply Nat.le_0_r, nil_length_inv in Hlen as ->.
    exists (dirs w). split; [rewrite mkdir_from_exists; by destruct w|].
    split; [|by destruct w].
    intros q. split; [by left|]. intros [?|[Hq ->%prefix_nil_inv]]; done.
  - destruct (is_dir p w) eqn:Hd.
    { exists (dirs w). split; [rewrite mkdir_from_exists; by destruct w|].
      split; [|by destruct w].
      intros q. split; [by left|]. intros [?|[Hq Hpre]]; [done|].
      pose proof (dir_prefix _ _ _ Hw Hd Hpre) as [?|?]%is_dir_true; done. }
    assert (Hp : p <> []) by (by apply is_dir_false in Hd as [? _]).
    destruct (is_dir (parent p) w) eqn:Hpar.
    { exists ({[p]} ∪ dirs w). split; [|split].
      - apply mkdir_from_ok, os_mkdir_new; auto.
      - intros q. rewrite elem_of_union, elem_of_singleton. split.
        + intros [->|?]; [right|by left]. done.
        + intros [?|[Hq Hpre]]; [by right|].
          destruct (prefix_parent _ _ Hpre) as [->|Hpre']; [by left|right].
          pose proof (dir_prefix _ _ _ Hw Hpar Hpre') as [?|?]%is_dir_true; done.
      - apply wf_add_dir; auto. }
    assert (Hmiss : os_mkdir p w = Raise FileNotFoundError).
    { unfold os_mkdir. rewrite Hd, Hpar.
      rewrite (proj2 (is_file_false p w)) by (by apply Hfree).
      rewrite (proj2 (is_file_false (parent p) w))
        by (apply Hfree, parent_prefix). done. }
    rewrite (mkdir_from_missing _ _ _ Hmiss), bind_run.
    destruct (IH (parent p) w) as (ds & -> & Hds & Hw'); [| done | |].
    { apply parent_length in Hp. lia. }
    { intros q Hq. apply Hfree. etrans; [done|apply parent_prefix]. }
    assert (Hpp : parent p <> []).
    { intros E. rewrite E in Hpar. done. }
    exists ({[p]} ∪ ds). split; [|split].
    + apply (os_mkdir_new (with_dirs w ds)).
      * apply is_dir_false. split; [done|]. cbn. rewrite Hds.
        intros [Hin|[_ Hpre]].
        -- by apply is_dir_false in Hd as [_ ?].
        -- by apply not_prefix_parent in Hpre.
      * cbn. by apply Hfree.
      * apply is_dir_true. right. cbn. apply Hds. by right.
    + intros q. rewrite elem_of_union, elem_of_singleton, Hds. split.
      * intros [->|[?|[? Hpre]]]; [by right|by left|right].
        split; [done|]. etrans; [done|apply parent_prefix].
      * intros [?|[Hq Hpre]]; [by right; left|].
        destruct (prefix_parent _ _ Hpre) as [->|Hpre']; [by left|].
        right. by right.
    + apply (wf_add_dir (with_dirs w ds)); [done| |].
      * cbn. by apply Hfree.
      * apply is_dir_true. right. cbn. apply Hds. by right.
Qed.

(** ** Saving, and the entry point of the generator *)

Lemma mkdir_run p w :
  fs_wf w -> (forall q, q `prefix_of` p -> files w !! q = None) ->
  exists ds,
    mkdir p w = Ok (tt, with_dirs w ds)
    /\ (forall q, q ∈ ds <-> q ∈ dirs w \/ (q <> [] /\ q `prefix_of` p))
    /\ fs_wf (with_dirs w ds).
Proof. intros. by apply mkdir_from_run. Qed.

Lemma wf_write w p data :
  fs_wf w -> is_dir p w = false -> is_dir (parent p) w = true ->
  fs_wf (mkWorld (heap w) (dirs w) (<[p := data]> (files w)) (stdout w)).
Proof.
  intros [Hf Hd Hp] Hnd Hpar. split; cbn.
  - intros q Hq. rewrite lookup_insert_ne; [by apply Hf|].
    intros ->. unfold is_dir in *. cbn in Hq. congruence.
  - intros q Hq. by apply Hd.
  - intros q Hq. destruct (decide (p = q)) as [<-|Hne]; [done|].
    rewrite lookup_insert_ne in Hq by done. by apply Hp.
Qed.

Section Save.
Context `{Pil.Pillow}.

Lemma save_run img target w :
  fs_wf w -> png_named target ->
  writable w target ->
  exists ds,
    Icons._save img target w
    = Ok (tt, mkWorld (heap w) ds
                (<[target := saved (heap w !!! img)]> (files w)) (stdout w))
    /\ (forall q, q ∈ ds
                  <-> q ∈ dirs w \/ (q <> [] /\ q `prefix_of` parent target))
    /\ fs_wf (mkWorld (heap w) ds
                (<[target := saved (heap w !!! img)]> (files w)) (stdout w)).
Proof.
  intros Hw Hpng [Hnd Hfree].
  destruct (mkdir_run (parent target) w Hw Hfree) as (ds & Hmk & Hds & Hw').
  exists ds. unfold Icons._save. rewrite bind_run, Hmk, bind_run.
  unfold load at 1. cbn [heap with_dirs].
  unfold Image.save. rewrite bind_run. unfold png_named in Hpng.
  rewrite Hpng. cbn.
  assert (Hnd' : is_dir target (with_dirs w ds) = false).
  { apply is_dir_false in Hnd as [Hne Hnin]. apply is_dir_false. split; [done|].
    cbn. rewrite Hds. intros [?|[_ Hpre]]; [done|].
    by apply not_prefix_parent in Hpre. }
  assert (Hpar : is_dir (parent target) (with_dirs w ds) = true).
  { apply is_dir_true. destruct (decide (parent target = [])); [by left|right].
    cbn. apply Hds. by right. }
  unfold write_bytes. rewrite Hnd', Hpar. cbn.
  split; [done|]. split; [done|].
  by apply (wf_write (with_dirs w ds)).
Qed.

Lemma relative_to_root p : relative_to p [] = Ok p.
Proof. by destruct p. Qed.

Lemma fs_wf_heap w h : fs_wf w -> fs_wf (with_heap w h).
Proof. intros [a b c]. split; [exact a|exact b|exact c]. Qed.

Lemma writable_heap w h t : writable w t -> writable (with_heap w h) t.
Proof. intros [a b]. split; [exact a|exact b]. Qed.

Lemma generate_run target b img w :
  renders b img -> fs_wf w ->
  png_named target ->
  writable w target ->
  exists ds,
    Icons.generate (target, b) w
    = Ok (tt, mkWorld (heap w ++ [img]) ds
                (<[target := saved img]> (files w))
                (stdout w ++ [report target]))
    /\ (forall q, q ∈ ds
                  <-> q ∈ dirs w \/ (q <> [] /\ q `prefix_of` parent target))
    /\ fs_wf (mkWorld (heap w ++ [img]) ds
                (<[target := saved img]> (files w))
                (stdout w ++ [report target])).
Proof.
  intros Hb Hw Hpng Hwr.
  set (w1 := with_heap w (heap w ++ [img])).
  destruct (save_run (length (heap w)) target w1 (fs_wf_heap _ _ Hw) Hpng
              (writable_heap _ _ _ Hwr)) as (ds & Hsave & Hds & Hw').
  assert (Himg : heap w1 !!! length (heap w) = img).
  { apply list_lookup_total_correct. cbn.
    rewrite lookup_app_r by lia. by rewrite Nat.sub_diag. }
  rewrite Himg in Hsave, Hw'.
  exists ds. split; [|split; [exact Hds|]].
  - unfold Icons.generate. rewrite bind_run, (Hb w). fold w1.
    rewrite bind_run, Hsave. unfold Icons.ROOT.
    by rewrite bind_run, relative_to_root.
  - destruct Hw' as [a b' c]. split; [exact a|exact b'|exact c].
Qed.

Lemma generate_all_run entries imgs w :
  Forall2 (fun e img => renders (snd e) img) entries imgs ->
  fs_wf w ->
  Forall (fun e => png_named (fst e)) entries ->
  Forall (fun e => writable w (fst e)) entries ->
  (forall e e', e ∈ entries -> e' ∈ entries ->
                ~ fst e `prefix_of` parent (fst e')) ->
  exists ds,
    let w' := mkWorld (heap w ++ imgs) ds
                (write_all (files w) (zip (fst <$> entries) imgs))
                (stdout w ++ (report ∘ fst <$> entries)) in
    for_each entries Icons.generate w = Ok (tt, w')
    /\ (forall q, q ∈ ds
                  <-> q ∈ dirs w
                      \/ exists e, e ∈ entries /\ q <> []
                                   /\ q `prefix_of` parent (fst e))
    /\ fs_wf w'.
Proof.
  intros Hall. revert w.
  induction Hall as [|[t b] img entries imgs Hb Hall IH];
    intros w Hw Hpng Hwr Hfree.
  - exists (dirs w). cbn. rewrite !app_nil_r. split; [by destruct w|].
    split; [|by destruct w].
    intros q. split; [by left|]. intros [?|(e & He & _)]; [done|].
    by apply elem_of_nil in He.
  - apply Forall_cons in Hpng as [Hpng1 Hpng]. apply Forall_cons in Hwr as [Hwr1 Hwr].
    destruct (generate_run t b img w Hb Hw Hpng1 Hwr1) as (ds1 & Hgen & Hds1 & Hw1).
    set (w1 := mkWorld _ _ _ _) in Hgen, Hw1.
    destruct (IH w1 Hw1 Hpng) as (ds & Hrun & Hds & Hw').
    + apply Forall_forall. intros e He.
      destruct (proj1 (Forall_forall _ _) Hwr e He) as [Hnd Hnf]. split.
      * apply is_dir_false in Hnd as [Hne Hnin]. apply is_dir_false.
        split; [done|]. cbn. rewrite Hds1. intros [?|[_ Hpre]]; [done|].
        apply (Hfree e (t, b)); [by right|by left|done].
      * intros q Hq. cbn. rewrite lookup_insert_ne; [by apply Hnf|].
        intros <-. apply (Hfree (t, b) e); [by left|by right|done].
    + intros e e' He He'. apply Hfree; by right.
    + exists ds. cbn in Hrun, Hw', Hds. cbv zeta. cbn [for_each].
      rewrite <- !app_assoc in Hrun, Hw'. cbn in Hrun, Hw'.
      split; [|split; [|exact Hw']].
      * rewrite bind_run, Hgen. exact Hrun.
      * intros q. rewrite Hds, Hds1. split.
        -- intros [[?|[? ?]]|(e & He & ? & ?)]; [by left|right..].
           ++ exists (t, b). split; [by left|done].
           ++ exists e. split; [by right|done].
        -- intros [?|(e & [->|He]%elem_of_cons & ? & ?)];
             [by left; left|by left; right|right]. by exists e.
Qed.

Lemma write_all_lookup_ne fs saves k :
  k ∉ saves.*1 -> write_all fs saves !! k = fs !! k.
Proof.
  revert fs. induction saves as [|[t img] saves IH]; intros fs Hk; [done|].
  cbn in *. apply not_elem_of_cons in Hk as [Hne Hk].
  unfold write_all in *. cbn. rewrite IH by done. by rewrite lookup_insert_ne.
Qed.

Lemma write_all_ext fs1 fs2 saves :
  (forall k, k ∉ saves.*1 -> fs1 !! k = fs2 !! k) ->
  write_all fs1 saves = write_all fs2 saves.
Proof.
  revert fs1 fs2. induction saves as [|[t img] saves IH]; intros fs1 fs2 Hext.
  - apply map_eq. intros k. apply Hext, not_elem_of_nil.
  - unfold write_all in *. cbn. apply IH. intros k Hk.
    destruct (decide (t = k)) as [->|Hne].
    + by rewrite !lookup_insert_eq.
    + rewrite !lookup_insert_ne by done. apply Hext.
      cbn. apply not_elem_of_cons. split; [done|done].
Qed.

Lemma write_all_twice fs saves :
  write_all (write_all fs saves) saves = write_all fs saves.
Proof. apply write_all_ext. intros k Hk. by apply write_all_lookup_ne. Qed.

Lemma write_all_lookup fs saves t img :
  NoDup saves.*1 -> (t, img) ∈ saves ->
  write_all fs saves !! t = Some (saved img).
Proof.
  revert fs. induction saves as [|[t' img'] saves IH]; intros fs Hnd Hin.
  - by apply elem_of_nil in Hin.
  - cbn in Hnd. apply NoDup_cons in Hnd as [Hnin Hnd].
    unfold write_all in *. cbn.
    apply elem_of_cons in Hin as [[= -> ->]|Hin].
    + fold (write_all (<[t':=saved img']> fs) saves).
      rewrite write_all_lookup_ne by done. apply lookup_insert_eq.
    + by apply IH.
Qed.

(** A file that exists can be written again. *)
Lemma existing_writable w t :
  fs_wf w -> is_Some (files w !! t) -> writable w t.
Proof.
  intros Hw Ht. split.
  - destruct (is_dir t w) eqn:Hd; [|done].
    rewrite (wf_files _ Hw _ Hd) in Ht. by destruct Ht.
  - intros q Hq. apply (wf_files _ Hw).
    eapply dir_prefix; [done| |done]. by apply (wf_parents _ Hw).
Qed.

End Save.

(** Membership in a list of named constants, by name. *)
Ltac elem_by_name :=
  lazymatch goal with
  | |- ?x ∈ ?y :: _ =>
      first [ constr_eq x y; apply list_elem_of_here
            | apply list_elem_of_further; elem_by_name ]
  end.

Lemma catalog_calls : Forall (fun e => builder_call (snd e)) Icons.ICON_BUILD.
Proof.
  unfold Icons.ICON_BUILD.
  repeat first [apply Forall_nil_2 | apply Forall_cons_2];
    unfold snd;
    lazymatch goal with
    | |- builder_call (Icons.icon_feedback _) => apply call_feedback
    | |- builder_call (Icons.icon_gender _) => apply call_gender
    | |- builder_call (Icons.icon_beats _) => apply call_beats
    | |- _ => apply call_plain; unfold plain_builders; elem_by_name
    end.
Qed.

Lemma calls_render (entries : list (Path * M Ref)) :
  Forall (fun e => builder_call (snd e)) entries ->
  Forall2 (fun e img => renders (snd e) img) entries
          (omap (fun e => canvas (snd e)) entries).
Proof.
  induction 1 as [|e entries [ps Hb]%builder_call_renders _ IH]; [constructor|].
  cbn. rewrite (renders_canvas _ _ Hb). by constructor.
Qed.

Lemma catalog_renders :
  Forall2 (fun e img => renders (snd e) img) Icons.ICON_BUILD catalog_images.
Proof. apply calls_render, catalog_calls. Qed.

Lemma targets_png :
  Forall (fun e => png_named (fst e)) Icons.ICON_BUILD.
Proof.
  unfold Icons.ICON_BUILD.
  repeat first [apply Forall_nil_2 | apply Forall_cons_2];
    vm_compute; reflexivity.
Qed.

Lemma targets_prefix_free :
  Forall (fun t => Forall (fun t' => ~ t `prefix_of` parent t') targets) targets.
Proof. apply (bool_decide_unpack _). vm_compute. exact I. Qed.

Lemma targets_NoDup : NoDup targets.
Proof. apply (bool_decide_unpack _). vm_compute. exact I. Qed.

Section Generator.
Context `{Pil.Pillow}.

Lemma main_run w :
  fs_wf w -> Forall (writable w) targets ->
  exists ds,
    let w' := mkWorld (heap w ++ catalog_images) ds
                (write_all (files w) (zip targets catalog_images))
                (stdout w ++ (report <$> targets)) in
    Icons.main w = Ok (tt, w')
    /\ (forall q, q ∈ ds
                  <-> q ∈ dirs w
                      \/ exists t, t ∈ targets /\ q <> []
                                   /\ q `prefix_of` parent t)
    /\ fs_wf w'.
Proof.
  intros Hw Hwr.
  destruct (generate_all_run Icons.ICON_BUILD catalog_images w)
    as (ds & Hrun & Hds & Hw'); auto using catalog_renders, targets_png.
  - unfold targets in Hwr. by apply (proj1 (Forall_fmap _ _ _)) in Hwr.
  - intros e e' He He'.
    pose proof targets_prefix_free as Hpf.
    rewrite Forall_forall in Hpf.
    specialize (Hpf (fst e) (list_elem_of_fmap_2 fst _ _ He)).
    rewrite Forall_forall in Hpf.
    exact (Hpf (fst e') (list_elem_of_fmap_2 fst _ _ He')).
  - exists ds. cbv zeta in *. unfold targets.
    rewrite list_fmap_compose in Hrun, Hw'.
    split; [exact Hrun|split; [|exact Hw']].
    intros q. rewrite Hds. split.
    + intros [?|(e & He & ?)]; [by left|right].
      exists (fst e). split; [|done]. by apply list_elem_of_fmap_2.
    + intros [?|(t & (e & -> & He)%list_elem_of_fmap & ?)]; [by left|right].
      by exists e.
Qed.

Lemma catalog_entry_saved fs e :
  e ∈ Icons.ICON_BUILD ->
  exists img,
    renders (snd e) img
    /\ write_all fs (zip targets catalog_images) !! fst e = Some (saved img).
Proof.
  intros [i Hi]%list_elem_of_lookup.
  destruct (Forall2_lookup_l _ _ _ i e catalog_renders Hi) as (img & Himg & Hr).
  exists img. split; [done|].
  pose proof (Forall2_length _ _ _ catalog_renders) as Hlen.
  apply write_all_lookup.
  - rewrite fst_zip; [apply targets_NoDup|].
    unfold targets. rewrite length_fmap. lia.
  - apply list_elem_of_lookup. exists i.
    apply lookup_zip_with_Some. exists (fst e), img.
    split; [done|]. split; [|done].
    unfold targets. by rewrite list_lookup_fmap, Hi.
Qed.

End Generator.

Lemma initial_wf : fs_wf initial.
Proof.
  split; cbn.
  - intros p _. apply lookup_empty.
  - intros p Hp. by apply not_elem_of_empty in Hp.
  - intros p [x Hx]. by rewrite lookup_empty in Hx.
Qed.

Lemma initial_writable : Forall (writable initial) targets.
Proof.
  assert (Hne : Forall (fun t => t <> []) targets).
  { apply (bool_decide_unpack _). vm_compute. exact I. }
  eapply Forall_impl; [exact Hne|]. intros t Ht. split.
  - apply is_dir_false. split; [done|]. apply not_elem_of_empty.
  - intros q _. apply lookup_empty.
Qed.

Lemma builder_call_canvas b :
  builder_call b ->
  exists img,
    renders b img /\ Pil.mode img = Pil.RGBA
    /\ Pil.size img = (2048, 2048)
    /\ Pil.blank (Pil.raster img) = Pil.Filled (0, 0, 0, 0).
Proof.
  intros [ps Hb]%builder_call_renders. eexists. split; [exact Hb|].
  by rewrite draw_all_mode, draw_all_size, draw_all_blank.
Qed.


(** ** The optimizer *)

(** ** Strings and names *)

Lemma rfind_bound s c : -1 <= rfind s c < Z.of_nat (String.length s).
Proof.
  induction s as [|a s IH]; cbn [rfind String.length]; [lia|].
  destruct (0 <=? rfind s c) eqn:E; [lia|].
  destruct (Ascii.eqb a c); lia.
Qed.

Lemma string_app_nil b : "" +:+ b = b.
Proof. reflexivity. Qed.

Lemma string_app_cons x a b : String x a +:+ b = String x (a +:+ b).
Proof. reflexivity. Qed.

Lemma rfind_app a b c :
  0 <= rfind b c ->
  rfind (a +:+ b) c = Z.of_nat (String.length a) + rfind b c.
Proof.
  intros Hb. induction a as [|x a IH].
  - rewrite string_app_nil. cbn. lia.
  - rewrite string_app_cons. cbn [rfind String.length]. rewrite IH.
    destruct (0 <=? _) eqn:E; lia.
Qed.

Lemma length_app_string a b :
  String.length (a +:+ b) = (String.length a + String.length b)%nat.
Proof.
  induction a as [|x a IH]; [done|].
  rewrite string_app_cons. cbn. f_equal. exact IH.
Qed.

Lemma substring_app_l a b :
  String.substring 0 (String.length a) (a +:+ b) = a.
Proof.
  induction a as [|x a IH]; [by destruct b|].
  rewrite string_app_cons. cbn. f_equal. exact IH.
Qed.

Lemma substring_length n s :
  (n <= String.length s)%nat -> String.length (String.substring 0 n s) = n.
Proof.
  revert s. induction n as [|n IH]; intros [|x s] Hn; cbn in *; try lia.
  f_equal. apply IH. lia.
Qed.

(** The stem of [s.png] is [s], unless [s] is empty. *)
Lemma stem_png (p : Path) s :
  s <> "" -> name p = s +:+ ".png" -> stem p = s.
Proof.
  intros Hs Hn. unfold stem. rewrite Hn.
  rewrite rfind_app by done. rewrite length_app_string. cbn [rfind String.length].
  change (rfind ".png" ".") with 0.
  assert (0 < String.length s)%nat by (destruct s; [done|cbn; lia]).
  rewrite Z.add_0_r, Nat2Z.id.
  destruct (_ && _) eqn:E; [apply substring_app_l|].
  apply andb_false_iff in E as [E%Z.ltb_ge|E%Z.ltb_ge]; lia.
Qed.

(** The name of the variant is never the name of the source. *)
Lemma variant_name_differs (p : Path) : stem p +:+ ".web.png" <> name p.
Proof.
  unfold stem. set (nm := name p). set (i := rfind nm ".").
  destruct ((0 <? i) && (i <? Z.of_nat (String.length nm) - 1)) eqn:E.
  - apply andb_true_iff in E as [Hi1%Z.ltb_lt Hi2%Z.ltb_lt].
    intros Heq.
    assert (Hlen : String.length (String.substring 0 (Z.to_nat i) nm)
                   = Z.to_nat i) by (apply substring_length; lia).
    assert (Hr : rfind nm "." = Z.of_nat (Z.to_nat i) + 4).
    { rewrite <- Heq at 1. rewrite rfind_app by done. by rewrite Hlen. }
    fold i in Hr. lia.
  - intros Heq. apply (f_equal String.length) in Heq.
    rewrite length_app_string in Heq. cbn in Heq. lia.
Qed.

Lemma path_split (p : Path) : p <> [] -> p = parent p </> name p.
Proof.
  destruct (path_snoc p) as [->|(p' & c & ->)]; [done|]. intros _.
  unfold name. by rewrite parent_snoc, last_last.
Qed.

Lemma named_nonempty (p : Path) : name p <> "" -> p <> [].
Proof. by intros Hn ->. Qed.

Lemma with_name_run (p : Path) nm :
  name p <> "" -> nm <> "" -> nm <> "." ->
  with_name p nm = Ok (parent p </> nm).
Proof.
  intros Hp%String.eqb_neq H1%String.eqb_neq H2%String.eqb_neq.
  unfold with_name. by rewrite Hp, H1, H2.
Qed.

Lemma variant_differs (src : Path) : name src <> "" -> variant src <> src.
Proof.
  intros Hn%named_nonempty Heq. rewrite (path_split src Hn) in Heq at 2.
  unfold variant, joinpath in Heq. apply app_inv_head in Heq.
  injection Heq as Heq. by apply variant_name_differs in Heq.
Qed.

Lemma variant_name_valid (src : Path) :
  stem src +:+ ".web.png" <> "" /\ stem src +:+ ".web.png" <> ".".
Proof.
  split; intros Heq; apply (f_equal String.length) in Heq;
    rewrite length_app_string in Heq; cbn in Heq; lia.
Qed.

Lemma file_not_dir w p : fs_wf w -> is_Some (files w !! p) -> is_dir p w = false.
Proof.
  intros Hw Hp. destruct (is_dir p w) eqn:Hd; [|done].
  rewrite (wf_files _ Hw _ Hd) in Hp. by destruct Hp.
Qed.

Lemma stat_size_file p data w :
  files w !! p = Some data -> stat_size p w = Ok (size_of data, w).
Proof. intros Hp. unfold stat_size. by rewrite Hp. Qed.

Lemma read_bytes_file p data w :
  is_dir p w = false -> files w !! p = Some data ->
  read_bytes p w = Ok (data, w).
Proof. intros Hd Hp. unfold read_bytes. by rewrite Hd, Hp. Qed.

Lemma write_bytes_run p data w :
  is_dir p w = false -> is_dir (parent p) w = true ->
  write_bytes p data w = Ok (tt, with_files w (<[p := data]> (files w))).
Proof. intros Hd Hp. unfold write_bytes. by rewrite Hd, Hp. Qed.

Section Optimizer.
Context `{Pil.Pillow}.

Lemma save_png_run im fp params w :
  Image.save im fp (Some "PNG") params w
  = write_bytes fp (Pil.png_encode params im) w.
Proof. reflexivity. Qed.

Lemma open_run fp data image w :
  is_dir fp w = false -> files w !! fp = Some data ->
  Pil.png_decode data = Some image ->
  Image.open fp w = Ok (image, w).
Proof.
  intros Hd Hp Hdec. unfold Image.open.
  rewrite bind_run, (read_bytes_file _ _ _ Hd Hp).
  unfold Pil.png_decode in Hdec.
  destruct (Pil.png_header data) as [[m sz]|]; [|done].
  destruct (Pil.png_complete data); [|done]. by injection Hdec as <-.
Qed.

Lemma decoded_raster data image :
  Pil.png_decode data = Some image ->
  Pil.raster image = Pil.Decoded data /\ Pil.png_complete data = true.
Proof.
  unfold Pil.png_decode. destruct (Pil.png_header data) as [[m sz]|]; [|done].
  destruct (Pil.png_complete data); [|done]. by intros [= <-].
Qed.

Lemma convert_run data image m w :
  Pil.png_decode data = Some image ->
  Image.convert image m w = Ok (Pil.convert image m, w).
Proof.
  intros [Hr Hc]%decoded_raster. unfold Image.convert, Image.load.
  by rewrite bind_run, Hr, Hc.
Qed.

Lemma optimize_run w src data image :
  fs_wf w -> name src <> "" ->
  files w !! src = Some data -> Pil.png_decode data = Some image ->
  is_dir (variant src) w = false ->
  let keep := size_of data <? size_of (reencoded image) in
  WebAssets.optimize src w
  = Ok ((variant src, size_of data,
         if keep then size_of data else size_of (reencoded image)),
        with_files w (<[variant src := if keep then data else reencoded image]>
                        (files w))).
Proof.
  intros Hw Hn Hsrc Hdec Hvd keep.
  destruct (variant_name_valid src) as [Hv1 Hv2].
  assert (Hsd : is_dir src w = false) by (apply file_not_dir; eauto).
  assert (Hpar : is_dir (parent (variant src)) w = true).
  { unfold variant, joinpath. rewrite parent_snoc.
    apply (wf_parents _ Hw). eauto. }
  unfold WebAssets.optimize.
  rewrite bind_run. unfold lift at 1. rewrite (with_name_run _ _ Hn Hv1 Hv2).
  fold (variant src).
  rewrite bind_run, (stat_size_file _ _ _ Hsrc).
  rewrite bind_run, (open_run _ _ _ _ Hsd Hsrc Hdec).
  assert (Hconv : (if bool_decide ("A" ∈ Pil.getbands (Pil.mode image))
                   then Image.convert image Pil.RGBA
                   else Image.convert image Pil.RGB) w
                  = Ok (normalized image, w)).
  { unfold normalized. destruct (bool_decide _); by apply convert_run with data. }
  rewrite bind_run, Hconv.
  rewrite bind_run, save_png_run. fold (reencoded image).
  rewrite (write_bytes_run _ _ _ Hvd Hpar).
  set (w1 := with_files w _).
  assert (H1 : files w1 !! variant src = Some (reencoded image))
    by apply lookup_insert_eq.
  rewrite bind_run, (stat_size_file _ _ _ H1). fold keep.
  destruct keep eqn:Hkeep.
  - assert (Hne : variant src <> src) by by apply variant_differs.
    assert (Hs1 : files w1 !! src = Some data).
    { unfold w1. cbn. by rewrite lookup_insert_ne. }
    rewrite !bind_run. unfold copyfile.
    rewrite bool_decide_eq_false_2 by done.
    rewrite bind_run, (read_bytes_file _ _ w1 Hsd Hs1).
    rewrite (write_bytes_run _ _ w1 Hvd Hpar).
    set (w2 := with_files w1 _).
    assert (H2 : files w2 !! variant src = Some data)
      by apply lookup_insert_eq.
    rewrite (stat_size_file _ _ _ H2). cbn.
    unfold w2, w1, with_files. cbn. by rewrite insert_insert_eq.
  - reflexivity.
Qed.

End Optimizer.

(** ** Percentages *)

Lemma percent_smaller_zero after : WebAssets.percent_smaller 0 after = Ok 0%Q.
Proof. reflexivity. Qed.

Lemma percent_smaller_nonzero before after :
  before <> 0 ->
  WebAssets.percent_smaller before after
  = Ok ((1 - inject_Z after / inject_Z before) * 100)%Q.
Proof.
  intros Hb%Z.eqb_neq. unfold WebAssets.percent_smaller, truediv.
  by rewrite Hb.
Qed.

Lemma percent_smaller_total before after :
  exists q, WebAssets.percent_smaller before after = Ok q.
Proof.
  destruct (decide (before = 0)) as [->|Hb]; eexists.
  - apply percent_smaller_zero.
  - by apply percent_smaller_nonzero.
Qed.

Lemma percent_smaller_same n :
  exists q, WebAssets.percent_smaller n n = Ok q /\ (q == 0)%Q.
Proof.
  destruct (decide (n = 0)) as [->|Hn]; eexists.
  - split; [apply percent_smaller_zero|reflexivity].
  - split; [by apply percent_smaller_nonzero|].
    assert (Hq : ~ (inject_Z n == 0)%Q).
    { unfold Qeq. cbn. lia. }
    unfold Qdiv. rewrite Qmult_inv_r by done. reflexivity.
Qed.

(** ** Exceptions that cannot happen *)

Lemma never_ret {A} e (a : A) : never_raises e (mret a).
Proof. intros w. discriminate. Qed.

Lemma never_bind {A B} e (m : M A) (k : A -> M B) :
  never_raises e m -> (forall a, never_raises e (k a)) ->
  never_raises e (m ≫= k).
Proof.
  intros Hm Hk w. rewrite bind_run. specialize (Hm w).
  destruct (m w) as [[a w']|e']; [apply Hk|congruence].
Qed.

Lemma never_lift {A} e (r : result A) : r <> Raise e -> never_raises e (lift r).
Proof. intros Hr w. unfold lift. destruct r; congruence. Qed.

Lemma never_for_fold {A S} e (xs : list A) (s : S) body :
  (forall s x, never_raises e (body s x)) ->
  never_raises e (for_fold xs s body).
Proof.
  intros Hbody. revert s. induction xs as [|x xs IH]; intros s; cbn.
  - apply never_ret.
  - apply never_bind; [apply Hbody|]. intros s'. apply IH.
Qed.

Ltac no_raise :=
  intros ?; repeat (first [ discriminate | case_match ]).

Lemma never_print e l : never_raises e (print l).
Proof. intros w. discriminate. Qed.

Lemma zde_stat_size p : never_raises ZeroDivisionError (stat_size p).
Proof. unfold stat_size. no_raise. Qed.

Lemma zde_read_bytes p : never_raises ZeroDivisionError (read_bytes p).
Proof. unfold read_bytes. no_raise. Qed.

Lemma zde_write_bytes p data :
  never_raises ZeroDivisionError (write_bytes p data).
Proof. unfold write_bytes. no_raise. Qed.

Lemma zde_copyfile src dst : never_raises ZeroDivisionError (copyfile src dst).
Proof.
  unfold copyfile. case_match; [intros w; discriminate|].
  apply never_bind; [apply zde_read_bytes|]. intros. apply zde_write_bytes.
Qed.

Lemma zde_with_name p nm : with_name p nm <> Raise ZeroDivisionError.
Proof. unfold with_name. repeat case_match; discriminate. Qed.

Section NoDivision.
Context `{Pil.Pillow}.

Lemma zde_open fp : never_raises ZeroDivisionError (Image.open fp).
Proof.
  unfold Image.open. apply never_bind; [apply zde_read_bytes|].
  intros data. case_match; [|intros w; discriminate].
  case_match. apply never_ret.
Qed.

Lemma zde_convert im m : never_raises ZeroDivisionError (Image.convert im m).
Proof.
  unfold Image.convert, Image.load.
  apply never_bind; [|intros; apply never_ret].
  repeat case_match; first [apply never_ret | intros w; discriminate].
Qed.

Lemma zde_save im fp params :
  never_raises ZeroDivisionError (Image.save im fp (Some "PNG") params).
Proof. intros w. rewrite save_png_run. apply zde_write_bytes. Qed.

Lemma zde_optimize src : never_raises ZeroDivisionError (WebAssets.optimize src).
Proof.
  unfold WebAssets.optimize.
  apply never_bind; [apply never_lift, zde_with_name|]. intros dst.
  apply never_bind; [apply zde_stat_size|]. intros before.
  apply never_bind; [apply zde_open|]. intros image.
  apply never_bind; [case_match; apply zde_convert|]. intros optimized.
  apply never_bind; [apply zde_save|]. intros _.
  apply never_bind; [apply zde_stat_size|]. intros after.
  apply never_bind; [|intros; apply never_ret].
  case_match; [|apply never_ret].
  apply never_bind; [apply zde_copyfile|]. intros. apply zde_stat_size.
Qed.

Lemma zde_percent before after :
  WebAssets.percent_smaller before after <> Raise ZeroDivisionError.
Proof. destruct (percent_smaller_total before after) as [q ->]. discriminate. Qed.

Lemma zde_run sources : never_raises ZeroDivisionError (WebAssets.run sources).
Proof.
  unfold WebAssets.run.
  apply never_bind; [apply never_print|]. intros _.
  apply never_bind.
  - apply never_for_fold. intros [[tb ta] n] src.
    apply never_bind; [apply zde_optimize|]. intros [[dst before] after].
    apply never_bind; [apply never_lift, zde_percent|]. intros r.
    apply never_bind; [apply never_lift; by rewrite relative_to_root|]. intros.
    apply never_bind; [apply never_lift; by rewrite relative_to_root|]. intros.
    apply never_bind; [apply never_print|]. intros. apply never_ret.
  - intros [[tb ta] n].
    apply never_bind; [apply never_lift, zde_percent|]. intros r.
    apply never_bind; [apply never_print|]. intros. apply never_ret.
Qed.

End NoDivision.

Lemma fs_wf_stdout w out : fs_wf w -> fs_wf (with_stdout w out).
Proof. intros [a b c]. split; [exact a|exact b|exact c]. Qed.

Section Run.
Context `{Pil.Pillow}.

Lemma run_empty w :
  WebAssets.run [] w
  = Ok (0, with_stdout w (stdout w ++ [Text "Optimizing web icon assets:";
                                       TotalReport 0 0 0 0%Q])).
Proof.
  unfold WebAssets.run. cbn [for_fold].
  cbv [mbind M_bind bind mret M_ret ret result_ret lift print
       WebAssets.percent_smaller Z.eqb with_stdout].
  cbn [heap dirs files stdout]. by rewrite <- app_assoc.
Qed.

Lemma run_single w src dst before after q w' :
  WebAssets.optimize src
    (with_stdout w (stdout w ++ [Text "Optimizing web icon assets:"]))
  = Ok ((dst, before, after), w') ->
  WebAssets.percent_smaller before after = Ok q ->
  WebAssets.run [src] w
  = Ok (0, with_stdout w'
             (stdout w'
              ++ [FileReport (as_posix src) (as_posix dst) before after q;
                  TotalReport 1 before after q])).
Proof.
  intros Hopt Hq. unfold WebAssets.run. cbn [for_fold].
  rewrite bind_run. unfold print at 1. cbv beta iota.
  fold (with_stdout w (stdout w ++ [Text "Optimizing web icon assets:"])).
  rewrite !bind_run, Hopt. cbv beta iota.
  unfold WebAssets.ROOT. rewrite !relative_to_root.
  change (0 + before) with before. change (0 + after) with after.
  rewrite Hq.
  cbv [mbind M_bind bind mret M_ret ret result_ret lift print with_stdout].
  cbn [heap dirs files stdout]. rewrite Hq. cbn [heap dirs files stdout].
  change (0 + 1) with 1. by rewrite <- app_assoc.
Qed.

End Run.

Lemma sample_world_wf : fs_wf sample_world.
Proof.
  assert (Hdirs : forall p, p ∈ dirs sample_world
                            <-> p = ["assets"] \/ p = ["assets"; "images"]).
  { intros p. unfold sample_world. cbn [dirs].
    by rewrite elem_of_union, !elem_of_singleton. }
  split.
  - intros p [->|Hp]%is_dir_true; unfold sample_world; cbn [files];
      apply lookup_singleton_ne; [discriminate|].
    apply Hdirs in Hp as [->| ->]; discriminate.
  - intros p Hp. apply is_dir_true.
    apply Hdirs in Hp as [->| ->]; [by left|right].
    apply Hdirs. by left.
  - intros p [x Hx]. unfold sample_world in Hx. cbn [files] in Hx.
    apply lookup_singleton_Some in Hx as [<- _].
    apply is_dir_true. right. apply Hdirs. by right.
Qed.


(** ** Choosing the sources *)

Lemma should_process_run (path : Path) :
  WebAssets.should_process path
  = Ok (negb (startswith (as_posix path) "assets/images/web/")
        && negb (bool_decide (as_posix path ∈ WebAssets.SKIP_EXACT))
        && negb (endswith (name path) ".web.png")).
Proof.
  unfold WebAssets.should_process, WebAssets.ROOT.
  rewrite relative_to_root.
  change (Ok path ≫= ?k) with (k path). cbv beta.
  assert (Hex : bool_decide
                  (set_Exists (fun prefix => startswith (as_posix path) prefix = true)
                              WebAssets.SKIP_PREFIXES)
                = startswith (as_posix path) "assets/images/web/").
  { destruct (startswith (as_posix path) "assets/images/web/") eqn:E.
    - apply bool_decide_eq_true. exists "assets/images/web/".
      split; [by apply elem_of_singleton|done].
    - apply bool_decide_eq_false. intros (x & ->%elem_of_singleton & Hx).
      congruence. }
  rewrite Hex.
  clear Hex.
  destruct (startswith (as_posix path) "assets/images/web/"); [reflexivity|].
  destruct (bool_decide (as_posix path ∈ WebAssets.SKIP_EXACT));
    [reflexivity|].
  destruct (endswith (name path) ".web.png"); reflexivity.
Qed.

Lemma should_process_true (path : Path) :
  WebAssets.should_process path = Ok true
  <-> (startswith (as_posix path) "assets/images/web/" = false
       /\ (as_posix path ∉ WebAssets.SKIP_EXACT)
       /\ endswith (name path) ".web.png" = false).
Proof.
  rewrite should_process_run. split.
  - intros [= Hb]. apply andb_true_iff in Hb as [Hb H3].
    apply andb_true_iff in Hb as [H1 H2].
    apply negb_true_iff in H1, H2, H3.
    by apply bool_decide_eq_false in H2.
  - intros (H1 & H2 & H3). apply (bool_decide_eq_false_2 _) in H2.
    by rewrite H1, H2, H3.
Qed.

Lemma comprehension_run (ps : list Path) :
  exists l,
    WebAssets.comprehension ps = Ok l
    /\ forall p, p ∈ l <-> p ∈ ps /\ WebAssets.should_process p = Ok true.
Proof.
  induction ps as [|p ps (l & Hl & Hin)].
  - exists []. split; [done|]. intros p. split; [by intros ?%elem_of_nil|].
    by intros [?%elem_of_nil _].
  - cbn [WebAssets.comprehension]. rewrite Hl.
    pose proof (should_process_run p) as Hp.
    destruct (negb _ && negb _ && negb _) eqn:E; rewrite Hp.
    + exists (p :: l). split; [done|]. intros q.
      rewrite !elem_of_cons, Hin. split.
      * intros [->|[? ?]]; [by split; [left|]|by split; [right|]].
      * intros [[->|?] ?]; [by left|by right].
    + exists l. split; [done|]. intros q.
      rewrite elem_of_cons, Hin. split.
      * intros [? ?]. by split; [right|].
      * intros [[->|?] Hq]; [|done]. rewrite Hp in Hq. discriminate.
Qed.

Lemma sorted_elem (ps : list Path) p : p ∈ sorted ps <-> p ∈ ps.
Proof. unfold sorted. by rewrite merge_sort_Permutation. Qed.

Lemma discover_sources_run w :
  exists sources,
    WebAssets.discover_sources w = Ok (sources, w)
    /\ forall p,
         p ∈ sources
         <-> (p ∈ dirs w \/ is_Some (files w !! p))
             /\ WebAssets.IMAGES_ROOT `prefix_of` p
             /\ p <> WebAssets.IMAGES_ROOT
             /\ endswith (name p) ".png" = true
             /\ WebAssets.should_process p = Ok true.
Proof.
  unfold WebAssets.discover_sources. rewrite bind_run.
  unfold rglob at 1. cbv beta iota.
  set (found := filter _ _).
  destruct (comprehension_run found) as (l & Hl & Hin).
  rewrite bind_run. unfold lift at 1. rewrite Hl.
  exists (sorted l). split; [done|]. intros p.
  rewrite sorted_elem, Hin. unfold found.
  rewrite list_elem_of_filter, elem_of_elements, elem_of_union, elem_of_dom.
  tauto.
Qed.

#[global] Instance path_le_total : Total path_le.
Proof.
  intros p. unfold path_le. induction p as [|a p IH]; intros q; [by left|].
  destruct q as [|b q]; [by right|]. cbn.
  rewrite (String.compare_antisym a b).
  destruct (String.compare b a); cbn; [apply IH|by right|by left].
Qed.

Lemma sorted_sorted (ps : list Path) : Sorted path_le (sorted ps).
Proof. apply (Sorted_merge_sort _). Qed.


(** ** A run of the optimizer over a list of sources *)

Lemma name_snoc (p : Path) c : name (p </> c) = c.
Proof. unfold name, joinpath. apply last_last. Qed.

Lemma variant_parent (src : Path) : parent (variant src) = parent src.
Proof. apply parent_snoc. Qed.

Lemma percent_range before after :
  0 <= after <= before ->
  exists q, WebAssets.percent_smaller before after = Ok q
            /\ (0 <= q)%Q /\ (q <= 100)%Q.
Proof.
  intros Hab. destruct (decide (before = 0)) as [->|Hb].
  - exists 0%Q. split; [apply percent_smaller_zero|]. split; done.
  - eexists. split; [by apply percent_smaller_nonzero|].
    destruct before as [|b|b]; [done| |lia].
    unfold Qle, Qdiv, Qinv, Qmult, Qminus, Qplus, Qopp. cbn.
    split; nia.
Qed.

Lemma percent_smaller_reduction before after :
  WebAssets.percent_smaller before after = Ok (reduction before after).
Proof.
  unfold WebAssets.percent_smaller, reduction, truediv.
  by destruct (before =? 0).
Qed.

Lemma reduction_range before after :
  0 <= after <= before ->
  (0 <= reduction before after)%Q /\ (reduction before after <= 100)%Q.
Proof.
  intros Hab. destruct (percent_range before after Hab) as (q & Hq & Hr).
  rewrite percent_smaller_reduction in Hq. by injection Hq as <-.
Qed.

Lemma reduction_same n : (reduction n n == 0)%Q.
Proof.
  destruct (percent_smaller_same n) as (q & Hq & H0).
  rewrite percent_smaller_reduction in Hq. by injection Hq as <-.
Qed.

(** The percentage the report prints for a reduction of 0. *)
Lemma format_1f_zero (q : Q) : (q == 0)%Q -> format_1f q = "0.0".
Proof.
  intros Hq. unfold format_1f.
  assert (Hr : round (Qabs q * 10) = 0).
  { assert (Hx : (Qabs q * 10 == 0)%Q) by (rewrite Hq; reflexivity).
    unfold round.
    assert (Hf : Qfloor (Qabs q * 10) = 0) by (rewrite Hx; reflexivity).
    rewrite Hf.
    assert (Hc : (Qabs q * 10 - inject_Z 0 ?= 1 # 2)%Q = Lt).
    { rewrite Hx. reflexivity. }
    by rewrite Hc. }
  rewrite Hr.
  assert (Hs : Qle_bool 0 q = true).
  { apply Qle_bool_iff. rewrite Hq. apply Qle_refl. }
  rewrite Hs. reflexivity.
Qed.

Section RunLoop.
Context `{Pil.Pillow}.

Lemma optimize_world_wf w src data
    (out : list Byte.byte) :
  fs_wf w -> files w !! src = Some data -> is_dir (variant src) w = false ->
  fs_wf (with_files w (<[variant src := out]> (files w))).
Proof.
  intros Hw Hsrc Hvd. apply (wf_write w); [done|done|].
  rewrite variant_parent. apply (wf_parents _ Hw). by eexists.
Qed.

(** A source that is a directory: its size is read, opening it fails. *)
Lemma optimize_directory w src :
  name src <> "" -> is_dir src w = true ->
  WebAssets.optimize src w = Raise IsADirectoryError.
Proof.
  intros Hn Hd. destruct (variant_name_valid src) as [Hv1 Hv2].
  unfold WebAssets.optimize.
  rewrite bind_run. unfold lift at 1. rewrite (with_name_run _ _ Hn Hv1 Hv2).
  rewrite bind_run.
  assert (Hs : exists n, stat_size src w = Ok (n, w)).
  { unfold stat_size. rewrite Hd. destruct (files w !! src); by eexists. }
  destruct Hs as [n ->]. rewrite bind_run. unfold Image.open.
  rewrite bind_run. unfold read_bytes. by rewrite Hd.
Qed.

Lemma run_unfold sources w :
  WebAssets.run sources w
  = (print (Text "Optimizing web icon assets:");;
     '(total_before, total_after, count) ← for_fold sources (0, 0, 0) run_body;
     total_reduction ← lift (WebAssets.percent_smaller total_before total_after);
     print (TotalReport count total_before total_after total_reduction);;
     mret 0) w.
Proof. reflexivity. Qed.

Lemma optimized_size data : 0 <= size_of (optimized data) <= size_of data.
Proof.
  unfold optimized, size_of. destruct (Pil.png_decode data); [|lia].
  destruct (Z.ltb_spec (Z.of_nat (length data))
              (Z.of_nat (length (reencoded i)))); lia.
Qed.

(** What the optimizer leaves for bytes that decode. *)
Lemma optimized_decoded data image :
  Pil.png_decode data = Some image ->
  optimized data
  = if size_of data <? size_of (reencoded image) then data
    else reencoded image.
Proof. intros Hdec. unfold optimized. by rewrite Hdec. Qed.

Lemma run_body_step w src tb ta n :
  fs_wf w -> optimizable w src ->
  run_body (tb, ta, n) src w
  = Ok ((tb + size_of (content w src),
         ta + size_of (optimized (content w src)), n + 1),
        mkWorld (heap w) (dirs w)
          (<[variant src := optimized (content w src)]> (files w))
          (stdout w ++ [file_report w src])).
Proof.
  intros Hw (Hn & Hvd & data & image & Hsrc & Hdec).
  unfold file_report, content. rewrite Hsrc.
  change (default [] (Some data)) with data.
  pose proof (optimize_run w src data image Hw Hn Hsrc Hdec Hvd) as Hopt.
  cbv zeta in Hopt.
  pose proof (optimized_decoded data image Hdec) as Hout.
  assert (Hafter : (if size_of data <? size_of (reencoded image)
                    then size_of data else size_of (reencoded image))
                   = size_of (optimized data)).
  { rewrite Hout. by destruct (_ <? _). }
  rewrite Hafter, <- Hout in Hopt.
  unfold run_body. rewrite bind_run, Hopt. cbv beta iota.
  unfold WebAssets.ROOT. rewrite !relative_to_root.
  rewrite percent_smaller_reduction. reflexivity.
Qed.

Lemma optimizable_step w src out l s :
  optimizable w s -> variant src <> s ->
  optimizable (mkWorld (heap w) (dirs w) (<[variant src := out]> (files w)) l) s.
Proof.
  intros (Hn & Hvd & data & image & Hs & Hdec) Hne.
  split; [done|]. split; [exact Hvd|]. exists data, image. split; [|done].
  cbn. by rewrite lookup_insert_ne.
Qed.

Lemma run_loop sources : forall w tb ta n,
  fs_wf w -> Forall (optimizable w) sources ->
  (forall s s', s ∈ sources -> s' ∈ sources -> variant s <> s') ->
  exists w',
    for_fold sources (tb, ta, n) run_body w
    = Ok ((tb + sum_sizes (size_of ∘ content w <$> sources),
           ta + sum_sizes (size_of ∘ optimized ∘ content w <$> sources),
           n + Z.of_nat (length sources)), w')
    /\ fs_wf w'
    /\ heap w' = heap w /\ dirs w' = dirs w
    /\ stdout w' = stdout w ++ (file_report w <$> sources)
    /\ (forall p, p ∉ variant <$> sources -> files w' !! p = files w !! p)
    /\ (NoDup (variant <$> sources) ->
        forall s, s ∈ sources ->
                  files w' !! variant s = Some (optimized (content w s))).
Proof.
  induction sources as [|src sources IH]; intros w tb ta n Hw Hall Hfree.
  - exists w. cbn. rewrite !Z.add_0_r, app_nil_r.
    split; [done|]. split; [exact Hw|]. repeat split; try done.
    intros _ s Hs. by apply elem_of_nil in Hs.
  - apply Forall_cons in Hall as [Hsrc Hall].
    pose proof (run_body_step w src tb ta n Hw Hsrc) as Hstep.
    set (w1 := mkWorld _ _ _ _) in Hstep.
    assert (Hw1 : fs_wf w1).
    { destruct Hsrc as (Hn & Hvd & data & image & Hs & Hdec).
      pose proof (optimize_world_wf w src data (optimized (content w src))
                    Hw Hs Hvd) as [a b c].
      split; [exact a|exact b|exact c]. }
    assert (Hall1 : Forall (optimizable w1) sources).
    { apply Forall_forall. intros s Hs. apply optimizable_step.
      - by apply (proj1 (Forall_forall _ _) Hall).
      - apply Hfree; [by left|by right]. }
    assert (Hsame : forall s, s ∈ sources -> content w1 s = content w s).
    { intros s Hs. unfold content, w1. cbn. rewrite lookup_insert_ne; [done|].
      apply Hfree; [by left|by right]. }
    destruct (IH w1 (tb + size_of (content w src))
                 (ta + size_of (optimized (content w src))) (n + 1)
                 Hw1 Hall1)
      as (w' & Hrun & Hw' & Hh & Hd & Hout & Hfiles & Hvar).
    { intros s s' Hs Hs'. apply Hfree; by right. }
    exists w'.
    split; [|split; [done|split; [done|split; [done|split; [|split]]]]].
    + cbn [for_fold]. rewrite bind_run, Hstep, Hrun. f_equal. f_equal.
      assert (E1 : size_of ∘ content w1 <$> sources
                   = size_of ∘ content w <$> sources).
      { apply list_fmap_ext. intros i s Hs%list_elem_of_lookup_2. cbn.
        by rewrite Hsame. }
      assert (E2 : size_of ∘ optimized ∘ content w1 <$> sources
                   = size_of ∘ optimized ∘ content w <$> sources).
      { apply list_fmap_ext. intros i s Hs%list_elem_of_lookup_2. cbn.
        by rewrite Hsame. }
      rewrite E1, E2. cbn [fmap list_fmap sum_sizes foldr length compose].
      fold (sum_sizes (size_of ∘ content w <$> sources)).
      fold (sum_sizes (size_of ∘ optimized ∘ content w <$> sources)).
      f_equal; [f_equal|]; unfold compose; lia.
    + rewrite Hout. unfold w1. cbn [stdout fmap list_fmap].
      rewrite <- app_assoc. cbn [app]. do 2 f_equal.
      apply list_fmap_ext. intros i s Hs%list_elem_of_lookup_2.
      unfold file_report. by rewrite Hsame.
    + intros p Hp. cbn in Hp. apply not_elem_of_cons in Hp as [Hne Hp].
      rewrite (Hfiles p Hp). unfold w1. cbn. by rewrite lookup_insert_ne.
    + intros Hnd s Hs. cbn in Hnd. apply NoDup_cons in Hnd as [Hnin Hnd].
      apply elem_of_cons in Hs as [->|Hs].
      * rewrite (Hfiles _ Hnin). unfold w1. cbn. apply lookup_insert_eq.
      * rewrite (Hvar Hnd s Hs). by rewrite Hsame.
Qed.

Lemma total_le (f g : Path -> Z) (l : list Path) :
  (forall s, 0 <= g s <= f s) -> 0 <= sum_sizes (g <$> l) <= sum_sizes (f <$> l).
Proof.
  intros Hfg. unfold sum_sizes.
  induction l as [|s l IH]; cbn [fmap list_fmap foldr]; [lia|].
  specialize (Hfg s). lia.
Qed.

(** The whole output of a run: the heading, the line of every source in
    the order of the list, and the totals. *)
Lemma run_lines (sources : list Path) (w : World) :
  fs_wf w -> Forall (optimizable w) sources ->
  (forall s s', s ∈ sources -> s' ∈ sources -> variant s <> s') ->
  let tb := sum_sizes (size_of ∘ content w <$> sources) in
  let ta := sum_sizes (size_of ∘ optimized ∘ content w <$> sources) in
  exists w',
    WebAssets.run sources w = Ok (0, w')
    /\ stdout w'
       = stdout w ++ [Text "Optimizing web icon assets:"]
         ++ (file_report w <$> sources)
         ++ [TotalReport (Z.of_nat (length sources)) tb ta (reduction tb ta)]
    /\ 0 <= ta <= tb
    /\ heap w' = heap w /\ dirs w' = dirs w
    /\ (forall p, p ∉ variant <$> sources -> files w' !! p = files w !! p)
    /\ (NoDup (variant <$> sources) ->
        forall s, s ∈ sources ->
                  files w' !! variant s = Some (optimized (content w s)))
    /\ fs_wf w'.
Proof.
  intros Hw Hall Hfree tb ta.
  set (w0 := mkWorld (heap w) (dirs w) (files w)
               (stdout w ++ [Text "Optimizing web icon assets:"])).
  assert (Hw0 : fs_wf w0).
  { destruct Hw as [a b c]. split; [exact a|exact b|exact c]. }
  assert (Hall0 : Forall (optimizable w0) sources).
  { eapply Forall_impl; [exact Hall|]. intros s Hs. exact Hs. }
  destruct (run_loop sources w0 0 0 0 Hw0 Hall0 Hfree)
    as (w1 & Hrun & Hw1 & Hh & Hd & Hout & Hfiles & Hvar).
  change (content w0) with (content w) in Hrun.
  change (file_report w0) with (file_report w) in Hout.
  rewrite !Z.add_0_l in Hrun. fold tb ta in Hrun.
  assert (Hle : 0 <= ta <= tb).
  { apply (total_le (size_of ∘ content w) (size_of ∘ optimized ∘ content w)).
    intros s. apply optimized_size. }
  exists (mkWorld (heap w1) (dirs w1) (files w1)
            (stdout w1 ++ [TotalReport (Z.of_nat (length sources)) tb ta
                             (reduction tb ta)])).
  split; [|split; [|split; [done|split; [exact Hh|split; [exact Hd|
    split; [exact Hfiles|split; [exact Hvar|]]]]]]].
  - rewrite run_unfold, bind_run. unfold print at 1. cbv beta iota. fold w0.
    rewrite bind_run, Hrun. cbv beta iota.
    rewrite bind_run. unfold lift at 1.
    rewrite percent_smaller_reduction. reflexivity.
  - cbn [stdout]. rewrite Hout. unfold w0. cbn [stdout].
    by rewrite <- !app_assoc.
  - destruct Hw1 as [a b c]. split; [exact a|exact b|exact c].
Qed.

Lemma run_spec (sources : list Path) (w : World) :
  fs_wf w -> Forall (optimizable w) sources ->
  (forall s s', s ∈ sources -> s' ∈ sources -> variant s <> s') ->
  exists w' lines q,
    WebAssets.run sources w = Ok (0, w')
    /\ stdout w'
       = stdout w ++ [Text "Optimizing web icon assets:"] ++ lines
         ++ [TotalReport (Z.of_nat (length sources))
               (sum_sizes (size_of ∘ content w <$> sources))
               (sum_sizes (size_of ∘ optimized ∘ content w <$> sources)) q]
    /\ length lines = length sources
    /\ Forall is_file_report lines
    /\ 0 <= sum_sizes (size_of ∘ optimized ∘ content w <$> sources)
         <= sum_sizes (size_of ∘ content w <$> sources)
    /\ WebAssets.percent_smaller
         (sum_sizes (size_of ∘ content w <$> sources))
         (sum_sizes (size_of ∘ optimized ∘ content w <$> sources)) = Ok q
    /\ (0 <= q)%Q /\ (q <= 100)%Q
    /\ heap w' = heap w /\ dirs w' = dirs w
    /\ (forall p, p ∉ variant <$> sources -> files w' !! p = files w !! p)
    /\ (NoDup (variant <$> sources) ->
        forall s, s ∈ sources ->
                  files w' !! variant s = Some (optimized (content w s)))
    /\ fs_wf w'.
Proof.
  intros Hw Hall Hfree.
  destruct (run_lines sources w Hw Hall Hfree)
    as (w' & Hrun & Hout & Hle & Hh & Hd & Hfiles & Hvar & Hw').
  destruct (reduction_range _ _ Hle) as [Hq0 Hq100].
  eexists w', (file_report w <$> sources), _.
  split; [exact Hrun|]. split; [exact Hout|].
  split; [apply length_fmap|]. split.
  { apply Forall_fmap, Forall_forall. by intros s _. }
  split; [exact Hle|]. split; [apply percent_smaller_reduction|].
  split; [exact Hq0|]. split; [exact Hq100|]. done.
Qed.

End RunLoop.

Lemma directory_world_wf : fs_wf directory_world.
Proof.
  assert (Hdirs : forall p, p ∈ dirs directory_world
                            <-> p = ["assets"] \/ p = ["assets"; "images"]
                                \/ p = sample_directory).
  { intros p. unfold directory_world. cbn [dirs].
    rewrite !elem_of_union, !elem_of_singleton. tauto. }
  split.
  - intros p _. apply lookup_empty.
  - intros p Hp. apply is_dir_true.
    apply Hdirs in Hp as [->|[->| ->]]; [by left|right|right]; apply Hdirs.
    + by left.
    + right. by left.
  - intros p [x Hx]. unfold directory_world in Hx. cbn [files] in Hx.
    by rewrite lookup_empty in Hx.
Qed.

Lemma sample_source_optimizable : @optimizable flat_pillow sample_world sample_source.
Proof.
  split; [discriminate|]. split; [reflexivity|].
  by exists (replicate 50 Byte.x00),
            (Pil.mkImage Pil.RGB (1, 1) (Pil.Decoded (replicate 50 Byte.x00))).
Qed.

(** ** Coordinate Scaler *)

Lemma int_nonneg (q : Q) : (0 <= Qnum q) -> int q = Qfloor q.
Proof.
  intros Hq. destruct q as [n d]. unfold int. cbn in *.
  apply Z.quot_div_nonneg; lia.
Qed.

Lemma int_nonpos (q : Q) : (Qnum q <= 0) -> int q = Qceiling q.
Proof.
  intros Hq. destruct q as [n d]. unfold int, Qceiling. cbn in *.
  rewrite <- (Z.opp_involutive n) at 1.
  rewrite Z.quot_opp_l by lia.
  f_equal. apply Z.quot_div_nonneg; lia.
Qed.

Lemma w_of_int (n : Z) : Icons._w (inject_Z n) = 4 * n.
Proof.
  unfold Icons._w, int, Icons.SCALE. cbn.
  rewrite Z.quot_1_r. lia.
Qed.

Lemma round_of_int (n : Z) : round (inject_Z n) = n.
Proof.
  unfold round. cbn. rewrite Z.div_1_r.
  assert (H : (inject_Z n - inject_Z n ?= 1 # 2)%Q = Lt).
  { apply (proj1 (Qlt_alt _ _)). unfold Qlt. cbn. lia. }
  by rewrite H.
Qed.

(** C1, as the specification states it, fails: at the logical coordinate
    3/16 the scaler returns 0, the integer part of 3/4, where rounding to the
    nearest integer gives 1. *)
Lemma scaler_does_not_round :
  Icons._w (3 # 16) = 0
  /\ scaler_as_specified (3 # 16) = 1
  /\ ~ (forall v : Q, Icons._w v = scaler_as_specified v).
Proof.
  split; [reflexivity|]. split; [reflexivity|].
  intros H. specialize (H (3 # 16)). discriminate H.
Qed.

(** C1, amended: for every logical coordinate or length [v] the scaler
    returns [int(v * 4)], the integer part of [4 * v] (its floor when [v] is
    not negative, its ceiling otherwise), and [_stroke] is the same function;
    on a whole number [n], which is what every builder passes, the result is
    [4 * n] and coincides with [round(4 * n)]. *)
Theorem scaler_truncates (v : Q) :
  Icons._stroke v = Icons._w v
  /\ Icons._w v
     = (if Qle_bool 0 v then Qfloor (v * 4) else Qceiling (v * 4))
  /\ forall n : Z,
       Icons._w (inject_Z n) = 4 * n
       /\ scaler_as_specified (inject_Z n) = 4 * n.
Proof.
  split; [reflexivity|]. split.
  - unfold Icons._w, Icons.SCALE.
    destruct (Qle_bool 0 v) eqn:Hv.
    + apply int_nonneg. destruct v as [n d]. unfold Qle_bool in Hv.
      cbn in *. lia.
    + apply int_nonpos. destruct v as [n d]. unfold Qle_bool in Hv.
      cbn in *. lia.
  - intros n. split; [apply w_of_int|].
    unfold scaler_as_specified.
    replace (inject_Z n * inject_Z 4)%Q with (inject_Z (n * 4)) by reflexivity.
    rewrite round_of_int. lia.
Qed.

(** ** Builders *)

Lemma renders_result b img w :
  renders b img ->
  exists r w',
    b w = Ok (r, w') /\ heap w' !! r = Some img
    /\ dirs w' = dirs w /\ files w' = files w /\ stdout w' = stdout w
    /\ forall i im, heap w !! i = Some im -> heap w' !! i = Some im.
Proof.
  intros Hb. exists (length (heap w)), (with_heap w (heap w ++ [img])).
  split; [apply Hb|]. cbn. split.
  - rewrite lookup_app_r by lia. by rewrite Nat.sub_diag.
  - repeat split. intros i im Hi. by apply lookup_app_l_Some.
Qed.

(** C7: every call of a builder is deterministic.  The builder succeeds in
    every world and the canvas it returns is one fixed image, whatever ran
    before: two calls, in any two worlds, return canvases with the same
    content, pixel for pixel under any rasteriser, and neither the
    filesystem, nor the output, nor an older object of the heap is read or
    changed. *)
Theorem builders_are_deterministic (b : M Ref) :
  builder_call b ->
  exists img,
    renders b img
    /\ forall w1 w2, exists r1 w1' r2 w2',
         b w1 = Ok (r1, w1') /\ b w2 = Ok (r2, w2')
         /\ heap w1' !! r1 = Some img /\ heap w2' !! r2 = Some img
         /\ (forall (P : Pil.Pillow) x y im1 im2,
               heap w1' !! r1 = Some im1 -> heap w2' !! r2 = Some im2 ->
               Pil.getpixel im1 x y = Pil.getpixel im2 x y)
         /\ (dirs w1' = dirs w1 /\ files w1' = files w1 /\ stdout w1' = stdout w1)
         /\ (dirs w2' = dirs w2 /\ files w2' = files w2 /\ stdout w2' = stdout w2).
Proof.
  intros [ps Hb]%builder_call_renders. eexists. split; [exact Hb|].
  intros w1 w2.
  destruct (renders_result _ _ w1 Hb) as (r1 & w1' & Hr1 & Hi1 & ? & ? & ? & _).
  destruct (renders_result _ _ w2 Hb) as (r2 & w2' & Hr2 & Hi2 & ? & ? & ? & _).
  exists r1, w1', r2, w2'. repeat split; try done.
  intros P x y im1 im2 E1 E2. congruence.
Qed.

Lemma builders_are_deterministic_witness :
  exists img,
    renders (Icons.icon_beats 4) img
    /\ forall w1 w2, exists r1 w1' r2 w2',
         Icons.icon_beats 4 w1 = Ok (r1, w1')
         /\ Icons.icon_beats 4 w2 = Ok (r2, w2')
         /\ heap w1' !! r1 = Some img /\ heap w2' !! r2 = Some img
         /\ (forall (P : Pil.Pillow) x y im1 im2,
               heap w1' !! r1 = Some im1 -> heap w2' !! r2 = Some im2 ->
               Pil.getpixel im1 x y = Pil.getpixel im2 x y)
         /\ (dirs w1' = dirs w1 /\ files w1' = files w1 /\ stdout w1' = stdout w1)
         /\ (dirs w2' = dirs w2 /\ files w2' = files w2 /\ stdout w2' = stdout w2).
Proof. apply (builders_are_deterministic (Icons.icon_beats 4)), call_beats. Defined.

(** The image a builder call renders, found by running it. *)
Ltac rendered lem :=
  eapply renders_of_canvas;
  [ destruct lem as [ps Hps]; eexists; exact Hps | vm_compute; reflexivity ].

(** C3: the beat-count builder at 2 draws exactly 2 marker ellipses and at
    4 exactly 4, the last one filled in ORANGE and all the others in
    SOFT_WHITE, two different colours.  On the canvas of side 2048 the
    markers are the ellipses written out below: each 176 wide and high,
    between the heights 880 and 1056, with centres at x = 884 and 1164 for
    count 2 and at x = 604, 884, 1164 and 1444 for count 4.  Neighbouring
    centres thus lie 280 canvas units (70 logical units) apart, and the
    first and the last centre lie as far from x = 1024 on either side, which
    is the midpoint of the canvas and the logical x = 256. *)
Theorem beats_two_and_four :
  (exists img,
     renders (Icons.icon_beats 2) img /\ beat_row 2 img
     /\ markers img
        = [Pil.Ellipse (796, 880, 972, 1056) (Some Icons.SOFT_WHITE) None 1;
           Pil.Ellipse (1076, 880, 1252, 1056) (Some Icons.ORANGE) None 1]
     /\ marker_centres img = [884; 1164]
     /\ gaps (marker_centres img) = [280]
     /\ evenly_spaced 280 1024 (marker_centres img))
  /\ (exists img,
        renders (Icons.icon_beats 4) img /\ beat_row 4 img
        /\ markers img
           = [Pil.Ellipse (516, 880, 692, 1056) (Some Icons.SOFT_WHITE) None 1;
              Pil.Ellipse (796, 880, 972, 1056) (Some Icons.SOFT_WHITE) None 1;
              Pil.Ellipse (1076, 880, 1252, 1056) (Some Icons.SOFT_WHITE) None 1;
              Pil.Ellipse (1356, 880, 1532, 1056) (Some Icons.ORANGE) None 1]
        /\ marker_centres img = [604; 884; 1164; 1444]
        /\ gaps (marker_centres img) = [280; 280; 280]
        /\ evenly_spaced 280 1024 (marker_centres img))
  /\ 280 = 70 * Icons.SCALE /\ 1024 = 256 * Icons.SCALE
  /\ 2 * 1024 = Icons.CANVAS
  /\ Icons.ORANGE <> Icons.SOFT_WHITE.
Proof.
  split; [|split; [|repeat split; discriminate]].
  - eexists. split; [rendered (icon_beats_renders 2)|]. split.
    { unfold beat_row. vm_compute markers. vm_compute marker_centres2.
      repeat split.
      + exists 280. repeat constructor.
      + eexists. repeat constructor.
      + eexists. repeat constructor. }
    split; [reflexivity|]. split; [reflexivity|]. split; [reflexivity|].
    split; [repeat constructor|]. exists 884, 1164. by repeat split.
  - eexists. split; [rendered (icon_beats_renders 4)|]. split.
    { unfold beat_row. vm_compute markers. vm_compute marker_centres2.
      repeat split.
      + exists 280. repeat constructor.
      + eexists. repeat constructor.
      + eexists. repeat constructor. }
    split; [reflexivity|]. split; [reflexivity|]. split; [reflexivity|].
    split; [repeat constructor|]. exists 604, 1444. by repeat split.
Qed.

(** Identify a rendered image with the canvas found by running the builder. *)
Ltac canvas_of H :=
  let Hc := fresh "Hc" in
  pose proof (renders_canvas _ _ H) as Hc; vm_compute in Hc;
  injection Hc as <-.

(** C4, as the specification states it, fails for the feedback-intensity
    builder: its two drawings differ at every bar (the low chart is not the
    high chart with another accent, its bars have other heights), so no
    single position holds all the difference. *)
Lemma feedback_changes_every_bar : ~ swaps_one_element Icons.icon_feedback.
Proof.
  intros (it & il & k & Ht & Hl & _ & _ & Hall).
  canvas_of Ht. canvas_of Hl.
  destruct k as [|k].
  - specialize (Hall 1%nat ltac:(lia)). vm_compute in Hall. discriminate Hall.
  - specialize (Hall 0%nat ltac:(lia)). vm_compute in Hall. discriminate Hall.
Qed.

(** C4, amended: the gender builder's two drawings differ at exactly one
    element, the second, which is an arc for the female glyph and a filled
    rounded rectangle for the male one, both in BLUE.  The feedback builder
    draws four bars whose left and right edges, baseline, corner radius,
    outline and width do not depend on the selector; the selector picks the
    one bar filled in ORANGE (the last when high, the first when low), all
    others being SOFT_WHITE, and it picks the heights of all four bars
    (rising 120, 170, 230, 280 when high, falling 260, 210, 160, 110 when
    low, in logical units). *)
Theorem selector_effect :
  (swaps_one_element Icons.icon_gender
   /\ exists female male,
        renders (Icons.icon_gender true) female
        /\ renders (Icons.icon_gender false) male
        /\ length (drawn_on female) = 3%nat
        /\ (forall i, i <> 1%nat -> drawn_on female !! i = drawn_on male !! i)
        /\ drawn_on female !! 1%nat
           = Some (Pil.Arc (Icons._w 158, Icons._w 90, Icons._w 354, Icons._w 286)
                           205 335 (Some Icons.BLUE) (Icons._stroke 30))
        /\ drawn_on male !! 1%nat
           = Some (Pil.RoundedRectangle
                     (Icons._w 176, Icons._w 90, Icons._w 336, Icons._w 156)
                     (Icons._w 26) (Some Icons.BLUE) None 1))
  /\ exists high low,
       renders (Icons.icon_feedback true) high
       /\ renders (Icons.icon_feedback false) low
       /\ length (drawn_on high) = 4%nat
       /\ bar_frame <$> drawn_on high = bar_frame <$> drawn_on low
       /\ Forall is_Some (bar_frame <$> drawn_on high)
       /\ fill_of <$> drawn_on high
          = Some <$> [Icons.SOFT_WHITE; Icons.SOFT_WHITE; Icons.SOFT_WHITE;
                      Icons.ORANGE]
       /\ fill_of <$> drawn_on low
          = Some <$> [Icons.ORANGE; Icons.SOFT_WHITE; Icons.SOFT_WHITE;
                      Icons.SOFT_WHITE]
       /\ bar_height <$> drawn_on high
          = Some <$> [Icons._w 120; Icons._w 170; Icons._w 230; Icons._w 280]
       /\ bar_height <$> drawn_on low
          = Some <$> [Icons._w 260; Icons._w 210; Icons._w 160; Icons._w 110].
Proof.
  assert (Hg : exists female male,
        renders (Icons.icon_gender true) female
        /\ renders (Icons.icon_gender false) male
        /\ length (drawn_on female) = 3%nat
        /\ (forall i, i <> 1%nat -> drawn_on female !! i = drawn_on male !! i)
        /\ drawn_on female !! 1%nat
           = Some (Pil.Arc (Icons._w 158, Icons._w 90, Icons._w 354, Icons._w 286)
                           205 335 (Some Icons.BLUE) (Icons._stroke 30))
        /\ drawn_on male !! 1%nat
           = Some (Pil.RoundedRectangle
                     (Icons._w 176, Icons._w 90, Icons._w 336, Icons._w 156)
                     (Icons._w 26) (Some Icons.BLUE) None 1)).
  { do 2 eexists.
    split; [rendered (icon_gender_renders true)|].
    split; [rendered (icon_gender_renders false)|].
    split; [reflexivity|]. split; [|split; reflexivity].
    intros [|[|[|[|i]]]] Hi; try reflexivity. lia. }
  split; [split; [|exact Hg]|].
  - destruct Hg as (female & male & Hf & Hm & Hlen & Hsame & Ha & Hr).
    exists female, male, 1%nat. repeat split; try done.
    + canvas_of Hf. canvas_of Hm. reflexivity.
    + rewrite Ha, Hr. discriminate.
  - do 2 eexists.
    split; [rendered (icon_feedback_renders true)|].
    split; [rendered (icon_feedback_renders false)|].
    split; [reflexivity|]. split; [reflexivity|].
    split; [repeat constructor; by eexists|].
    repeat split; reflexivity.
Qed.

(** ** Persisting the catalog *)

Section Claims.
Context `{Pil.Pillow}.

(** C9: run where every destination can be written, the entry point
    succeeds; it calls the builder of every entry of the registry once (one
    new canvas per entry), leaves at every registered destination the file
    saved from that entry's canvas, touches no other file, and prints one
    line per entry, in the registry's order, that holds the destination's
    path relative to the repository root. *)
Theorem main_generates_catalog (w : World) :
  fs_wf w -> Forall (writable w) targets ->
  exists w',
    Icons.main w = Ok (tt, w')
    /\ stdout w'
       = stdout w
         ++ ((fun e => Text ("generated " +:+ as_posix (fst e)))
               <$> Icons.ICON_BUILD)
    /\ (report <$> targets) !! 0%nat
       = Some (Text "generated assets/images/icon-set/Singing.png")
    /\ length (heap w') = (length (heap w) + length Icons.ICON_BUILD)%nat
    /\ NoDup targets
    /\ Forall (fun e => exists img,
                  renders (snd e) img /\ files w' !! fst e = Some (saved img))
              Icons.ICON_BUILD
    /\ forall p, p ∉ targets -> files w' !! p = files w !! p.
Proof.
  intros Hw Hwr. destruct (main_run w Hw Hwr) as (ds & Hrun & Hds & Hw').
  cbv zeta in *. eexists. split; [exact Hrun|]. cbn [stdout heap files].
  pose proof (Forall2_length _ _ _ catalog_renders) as Hlen.
  split; [|split; [reflexivity|split; [|split; [apply targets_NoDup|split]]]].
  - unfold targets. by rewrite <- list_fmap_compose.
  - rewrite length_app. lia.
  - apply Forall_forall. intros e He. apply catalog_entry_saved, He.
  - intros p Hp. apply write_all_lookup_ne.
    rewrite fst_zip; [done|]. unfold targets. rewrite length_fmap. lia.
Qed.

(** C8: where a file already exists at an entry's destination, persisting
    the entry succeeds and the file's new content is the one saved from the
    entry's canvas, whatever the old content was, with no directory added;
    and running the whole catalog a second time right after a first run
    succeeds and leaves every file and directory as the first run left it. *)
Theorem persisting_overwrites (w : World) :
  fs_wf w ->
  (forall e old,
     e ∈ Icons.ICON_BUILD -> files w !! fst e = Some old ->
     exists img w',
       renders (snd e) img /\ Icons.generate e w = Ok (tt, w')
       /\ files w' = <[fst e := saved img]> (files w)
       /\ dirs w' = dirs w)
  /\ (Forall (writable w) targets ->
      exists w1 w2,
        Icons.main w = Ok (tt, w1) /\ Icons.main w1 = Ok (tt, w2)
        /\ files w2 = files w1 /\ dirs w2 = dirs w1
        /\ forall t, t ∈ targets ->
             is_Some (files w1 !! t) /\ files w2 !! t = files w1 !! t).
Proof.
  intros Hw. split.
  - intros [t b] old He Hold. cbn [fst snd] in *.
    pose proof (proj1 (Forall_forall _ _) catalog_calls _ He) as Hcall.
    apply builder_call_renders in Hcall as [ps Hb]. cbn [snd] in Hb.
    pose proof (proj1 (Forall_forall _ _) targets_png _ He) as Hpng.
    assert (Hwr : writable w t) by (apply existing_writable; eauto).
    destruct (generate_run t b _ w Hb Hw Hpng Hwr) as (ds & Hgen & Hds & _).
    do 2 eexists. split; [exact Hb|]. split; [exact Hgen|]. split; [done|].
    cbn. apply set_eq. intros q. rewrite Hds. split; [|by left].
    intros [?|[Hq Hpre]]; [done|].
    assert (Hd : is_dir q w = true).
    { eapply dir_prefix; [done| |exact Hpre]. apply (wf_parents _ Hw). eauto. }
    by apply is_dir_true in Hd as [?|?].
  - intros Hwr. destruct (main_run w Hw Hwr) as (ds1 & Hrun1 & Hds1 & Hw1).
    cbv zeta in *. set (w1 := mkWorld _ _ _ _) in *.
    assert (Hsaved : forall t, t ∈ targets -> is_Some (files w1 !! t)).
    { intros t (e & -> & He)%list_elem_of_fmap.
      destruct (catalog_entry_saved (files w) e He) as (img & _ & Himg). eauto. }
    assert (Hwr1 : Forall (writable w1) targets).
    { apply Forall_forall. intros t Ht. apply existing_writable; auto. }
    destruct (main_run w1 Hw1 Hwr1) as (ds2 & Hrun2 & Hds2 & _).
    cbv zeta in *. exists w1. eexists. split; [exact Hrun1|].
    split; [exact Hrun2|]. cbn [files dirs].
    assert (Hfiles : write_all (files w1) (zip targets catalog_images)
                     = files w1) by apply write_all_twice.
    split; [exact Hfiles|]. split.
    + apply set_eq. intros q. rewrite Hds2. cbn [dirs w1]. split; [|by left].
      intros [?|Hq]; [done|]. apply Hds1. by right.
    + intros t Ht. split; [by apply Hsaved|]. by rewrite Hfiles.
Qed.

(** C2: the canvas [_new] allocates is an RGBA image of side 2048 whose
    every pixel is (0, 0, 0, 0); every call of a builder returns a canvas of
    that mode and side that started out as that transparent image; and after
    a run of the entry point every destination of the registry holds the PNG
    encoding of an RGBA image of exactly 512 by 512 pixels. *)
Theorem canvas_and_file_format :
  (forall w, exists img d w',
     Icons._new w = Ok ((img, d), w') /\ heap w' !! img = Some blank_canvas)
  /\ Pil.mode blank_canvas = Pil.RGBA
  /\ Pil.size blank_canvas = (512 * 4, 512 * 4)
  /\ (forall x y,
        Pil.getpixel blank_canvas x y
        = if (0 <=? x) && (x <? 2048) && (0 <=? y) && (y <? 2048)
          then Some (0, 0, 0, 0) else None)
  /\ (forall b, builder_call b ->
        exists img,
          renders b img /\ Pil.mode img = Pil.RGBA
          /\ Pil.size img = (2048, 2048)
          /\ Pil.blank (Pil.raster img) = Pil.Filled (0, 0, 0, 0))
  /\ (forall w, fs_wf w -> Forall (writable w) targets ->
        exists w',
          Icons.main w = Ok (tt, w')
          /\ Forall (fun t => exists out,
                        files w' !! t
                        = Some (Pil.png_encode Pil.default_options out)
                        /\ Pil.mode out = Pil.RGBA
                        /\ Pil.size out = (512, 512))
                    targets).
Proof.
  split; [|split; [reflexivity|split; [reflexivity|split; [|split]]]].
  - intros w. do 3 eexists. split; [apply new_run|]. cbn.
    rewrite lookup_app_r by lia. by rewrite Nat.sub_diag.
  - intros x y. reflexivity.
  - apply builder_call_canvas.
  - intros w Hw Hwr. destruct (main_run w Hw Hwr) as (ds & Hrun & _ & _).
    cbv zeta in *. eexists. split; [exact Hrun|]. cbn [files].
    apply Forall_forall. intros t (e & -> & He)%list_elem_of_fmap.
    destruct (catalog_entry_saved (files w) e He) as (img & Hr & Himg).
    pose proof (proj1 (Forall_forall _ _) catalog_calls _ He) as Hcall.
    apply builder_call_canvas in Hcall as (img' & Hr' & Hmode & _).
    rewrite (renders_unique _ _ _ Hr Hr') in Himg.
    eexists. split; [exact Himg|]. by split.
Qed.

End Claims.

Lemma main_generates_catalog_witness :
  exists w',
    @Icons.main flat_pillow initial = Ok (tt, w')
    /\ stdout w'
       = stdout initial
         ++ ((fun e => Text ("generated " +:+ as_posix (fst e)))
               <$> Icons.ICON_BUILD)
    /\ (report <$> targets) !! 0%nat
       = Some (Text "generated assets/images/icon-set/Singing.png")
    /\ length (heap w') = (length (heap initial) + length Icons.ICON_BUILD)%nat
    /\ NoDup targets
    /\ Forall (fun e => exists img,
                  renders (snd e) img
                  /\ files w' !! fst e = Some (@saved flat_pillow img))
              Icons.ICON_BUILD
    /\ forall p, p ∉ targets -> files w' !! p = files initial !! p.
Proof.
  exact (@main_generates_catalog flat_pillow initial initial_wf
           initial_writable).
Defined.

Lemma persisting_overwrites_witness :
  exists w1 w2,
    @Icons.main flat_pillow initial = Ok (tt, w1)
    /\ @Icons.main flat_pillow w1 = Ok (tt, w2)
    /\ files w2 = files w1 /\ dirs w2 = dirs w1.
Proof.
  destruct (@persisting_overwrites flat_pillow initial initial_wf) as [_ Htwice].
  destruct (Htwice initial_writable) as (w1 & w2 & H1 & H2 & Hf & Hd & _).
  exists w1, w2. exact (conj H1 (conj H2 (conj Hf Hd))).
Defined.

(** ** The optimizer *)

Section OptimizerClaims.
Context `{Pil.Pillow}.

(** C5: for a source the optimizer can read and a variant path it can
    write, the optimizer succeeds; the variant it leaves is never larger
    than the source, which it does not touch; when the re-encoding is larger
    than the source the variant is byte for byte the source, the size
    reported after equals the size before, and the reduction [run] reports
    for the file is 0; otherwise the variant is the re-encoding.  In a run
    over any list of sources that holds this one, the lines printed between
    the heading and the totals are the lines of the sources, in their order,
    and the line of this source holds its own size before, the size of its
    own variant after, and the reduction from the one to the other: in the
    fallback case the same size twice and a reduction of 0, printed
    [0.0]. *)
Theorem optimizer_never_grows (w : World) (src : Path)
    (data : list Byte.byte) (image : Pil.Image) :
  fs_wf w -> name src <> "" ->
  files w !! src = Some data -> Pil.png_decode data = Some image ->
  is_dir (variant src) w = false ->
  exists after w',
    WebAssets.optimize src w = Ok ((variant src, size_of data, after), w')
    /\ (exists out, files w' !! variant src = Some out
                    /\ after = size_of out /\ size_of out <= size_of data)
    /\ files w' !! src = Some data
    /\ (size_of data < size_of (reencoded image) ->
        files w' !! variant src = Some data /\ after = size_of data
        /\ exists q w'',
             WebAssets.percent_smaller (size_of data) after = Ok q
             /\ (q == 0)%Q
             /\ WebAssets.run [src] w = Ok (0, w'')
             /\ stdout w''
                = stdout w
                  ++ [Text "Optimizing web icon assets:";
                      FileReport (as_posix src) (as_posix (variant src))
                                 (size_of data) (size_of data) q;
                      TotalReport 1 (size_of data) (size_of data) q])
    /\ (size_of (reencoded image) <= size_of data ->
        files w' !! variant src = Some (reencoded image))
    /\ (forall sources,
          src ∈ sources -> Forall (optimizable w) sources ->
          (forall s s', s ∈ sources -> s' ∈ sources -> variant s <> s') ->
          exists w'' total_before total_after total_reduction,
            WebAssets.run sources w = Ok (0, w'')
            /\ stdout w''
               = stdout w ++ [Text "Optimizing web icon assets:"]
                 ++ (file_report w <$> sources)
                 ++ [TotalReport (Z.of_nat (length sources)) total_before
                       total_after total_reduction]
            /\ (forall i, sources !! i = Some src ->
                  (file_report w <$> sources) !! i
                  = Some (FileReport (as_posix src) (as_posix (variant src))
                            (size_of data) after
                            (reduction (size_of data) after)))
            /\ WebAssets.percent_smaller (size_of data) after
               = Ok (reduction (size_of data) after)
            /\ (size_of data < size_of (reencoded image) ->
                after = size_of data
                /\ (reduction (size_of data) after == 0)%Q
                /\ format_1f (reduction (size_of data) after) = "0.0"
                /\ (NoDup (variant <$> sources) ->
                    files w'' !! variant src = Some data))).
Proof.
  intros Hw Hn Hsrc Hdec Hvd.
  pose proof (optimize_run w src data image Hw Hn Hsrc Hdec Hvd) as Hopt.
  cbv zeta in Hopt.
  assert (Hne : variant src <> src) by by apply variant_differs.
  do 2 eexists. split; [exact Hopt|]. cbn [files with_files].
  split; [|split; [by rewrite lookup_insert_ne|split; [|split]]].
  - eexists. split; [apply lookup_insert_eq|].
    destruct (size_of data <? size_of (reencoded image)) eqn:E;
      [|apply Z.ltb_ge in E]; split; (reflexivity || lia).
  - intros Hlt. pose proof (proj2 (Z.ltb_lt _ _) Hlt) as E.
    rewrite E. split; [apply lookup_insert_eq|]. split; [done|].
    destruct (percent_smaller_same (size_of data)) as (q & Hq & Hq0).
    set (w0 := with_stdout w (stdout w ++ [Text "Optimizing web icon assets:"])).
    pose proof (optimize_run w0 src data image (fs_wf_stdout _ _ Hw) Hn Hsrc
                  Hdec Hvd) as Hopt0.
    cbv zeta in Hopt0. rewrite E in Hopt0.
    exists q. eexists. split; [exact Hq|]. split; [exact Hq0|].
    split; [exact (run_single w src _ _ _ q _ Hopt0 Hq)|].
    cbn. by rewrite <- app_assoc.
  - intros Hle. pose proof (proj2 (Z.ltb_ge _ _) Hle) as E.
    rewrite E. apply lookup_insert_eq.
  - intros sources Hin Hall Hfree.
    destruct (run_lines sources w Hw Hall Hfree)
      as (w'' & Hrun & Hout & _ & _ & _ & _ & Hvar & _).
    assert (Hafter : (if size_of data <? size_of (reencoded image)
                      then size_of data else size_of (reencoded image))
                     = size_of (optimized data)).
    { rewrite (optimized_decoded data image Hdec). by destruct (_ <? _). }
    rewrite Hafter.
    exists w''. do 3 eexists. split; [exact Hrun|]. split; [exact Hout|].
    split; [|split; [apply percent_smaller_reduction|]].
    + intros i Hi. rewrite list_lookup_fmap, Hi. cbn [fmap option_fmap option_map].
      unfold file_report, content. rewrite Hsrc.
      change (default [] (Some data)) with data. reflexivity.
    + intros Hlt. pose proof (proj2 (Z.ltb_lt _ _) Hlt) as E.
      assert (Hcopy : optimized data = data).
      { rewrite (optimized_decoded data image Hdec). by rewrite E. }
      rewrite Hcopy. split; [done|]. split; [apply reduction_same|].
      split; [apply format_1f_zero, reduction_same|].
      intros Hnd. rewrite (Hvar Hnd src Hin). unfold content.
      rewrite Hsrc. change (default [] (Some data)) with data.
      by rewrite Hcopy.
Qed.

(** C10: the percentage the optimizer reports is computed without ever
    dividing by zero.  The expression is total; it is 0 when the size before
    is 0 (also for the totals of an empty run, which reports 0 files and 0)
    and the quotient is formed only when the size before is not 0, where
    it would raise otherwise; so [run] never raises [ZeroDivisionError]. *)
Theorem reduction_never_divides_by_zero :
  (forall before after, exists q, WebAssets.percent_smaller before after = Ok q)
  /\ (forall after, WebAssets.percent_smaller 0 after = Ok 0%Q)
  /\ (forall before after,
        before <> 0 ->
        truediv after before = Ok (inject_Z after / inject_Z before)%Q
        /\ WebAssets.percent_smaller before after
           = Ok ((1 - inject_Z after / inject_Z before) * 100)%Q)
  /\ (forall after, truediv after 0 = Raise ZeroDivisionError)
  /\ (forall w,
        WebAssets.run [] w
        = Ok (0, with_stdout w
                   (stdout w ++ [Text "Optimizing web icon assets:";
                                 TotalReport 0 0 0 0%Q])))
  /\ (forall sources w, WebAssets.run sources w <> Raise ZeroDivisionError).
Proof.
  split; [apply percent_smaller_total|]. split; [apply percent_smaller_zero|].
  split; [|split; [reflexivity|split; [apply run_empty|]]].
  - intros before after Hb. split; [|by apply percent_smaller_nonzero].
    unfold truediv. apply Z.eqb_neq in Hb. by rewrite Hb.
  - intros sources. apply zde_run.
Qed.

End OptimizerClaims.

Lemma optimizer_never_grows_witness :
  (exists w',
     @WebAssets.optimize flat_pillow sample_source sample_world
     = Ok ((variant sample_source, 50, 50), w')
     /\ files w' !! variant sample_source = Some (replicate 50 Byte.x00)
     /\ variant sample_source = ["assets"; "images"; "a.web.png"])
  /\ (exists w'' total_before total_after total_reduction,
        @WebAssets.run flat_pillow [sample_source; sample_source] sample_world
        = Ok (0, w'')
        /\ stdout w''
           = [Text "Optimizing web icon assets:";
              FileReport "assets/images/a.png" "assets/images/a.web.png"
                         50 50 (reduction 50 50);
              FileReport "assets/images/a.png" "assets/images/a.web.png"
                         50 50 (reduction 50 50);
              TotalReport 2 total_before total_after total_reduction]).
Proof.
  destruct (@optimizer_never_grows flat_pillow sample_world sample_source
              (replicate 50 Byte.x00)
              (Pil.mkImage Pil.RGB (1, 1) (Pil.Decoded (replicate 50 Byte.x00)))
              sample_world_wf ltac:(discriminate) eq_refl eq_refl eq_refl)
    as (after & w' & Hopt & _ & _ & Hfallback & _ & Hrun).
  destruct (Hrun [sample_source; sample_source] (list_elem_of_here _ _)
              (Forall_cons_2 _ _ _ sample_source_optimizable
                 (Forall_cons_2 _ _ _ sample_source_optimizable
                    (Forall_nil_2 _))))
    as (w'' & tb & ta & tr & Hr & Hout & _).
  { intros s s' Hs Hs'.
    assert (Hone : forall p, p ∈ [sample_source; sample_source]
                             -> p = sample_source).
    { intros p Hp. apply elem_of_cons in Hp as [Hp|Hp]; [exact Hp|].
      apply elem_of_cons in Hp as [Hp|Hp]; [exact Hp|].
      by apply elem_of_nil in Hp. }
    rewrite (Hone s Hs), (Hone s' Hs'). discriminate. }
  destruct (Hfallback eq_refl) as (Hfile & -> & _).
  split.
  - exists w'. exact (conj Hopt (conj Hfile eq_refl)).
  - exists w'', tb, ta, tr. split; [exact Hr|]. rewrite Hout. reflexivity.
Defined.

(** C6, as the specification states it, fails in three ways.  The variant
    is not always normalized: where the re-encoding is larger than the
    source the optimizer leaves a copy of the source, in the source's mode;
    a greyscale source of 50 bytes whose RGB re-encoding takes 60 keeps
    mode L.  What is selected is not always a file: a directory below the
    image tree whose name ends with [.png] is selected too.  And the source
    named [.png] has the stem [.png], so its variant is [.png.web.png], not
    [.web.png]. *)
Lemma variants_are_not_always_normalized :
  ~ @writes_normalized_variants tagged_pillow
  /\ (exists w',
        @WebAssets.optimize tagged_pillow sample_source sample_world
        = Ok ((variant sample_source, 50, 50), w')
        /\ files w' !! variant sample_source = Some (replicate 50 Byte.x00))
  /\ @Pil.png_decode tagged_pillow (replicate 50 Byte.x00)
     = Some (Pil.mkImage Pil.L (1, 1) (Pil.Decoded (replicate 50 Byte.x00)))
  /\ Pil.mode (normalized
                 (Pil.mkImage Pil.L (1, 1)
                    (Pil.Decoded (replicate 50 Byte.x00)))) = Pil.RGB
  /\ size_of (@reencoded tagged_pillow
                (Pil.mkImage Pil.L (1, 1)
                   (Pil.Decoded (replicate 50 Byte.x00)))) = 60
  /\ ~ selects_files_only
  /\ (exists sources,
        WebAssets.discover_sources directory_world
        = Ok (sources, directory_world)
        /\ sample_directory ∈ sources)
  /\ is_dir sample_directory directory_world = true
  /\ files directory_world !! sample_directory = None
  /\ stem ["assets"; "images"; ".png"] = ".png"
  /\ variant ["assets"; "images"; ".png"]
     = ["assets"; "images"; ".png.web.png"].
Proof.
  pose proof (@optimize_run tagged_pillow sample_world sample_source
                (replicate 50 Byte.x00)
                (Pil.mkImage Pil.L (1, 1) (Pil.Decoded (replicate 50 Byte.x00)))
                sample_world_wf ltac:(discriminate) eq_refl eq_refl eq_refl)
    as Hopt.
  cbv zeta in Hopt.
  change (size_of (replicate 50 Byte.x00) <? size_of _) with true in Hopt.
  cbv iota in Hopt. change (size_of (replicate 50 Byte.x00)) with 50 in Hopt.
  assert (Hdir : exists sources,
             WebAssets.discover_sources directory_world
             = Ok (sources, directory_world)
             /\ sample_directory ∈ sources).
  { destruct (discover_sources_run directory_world) as (sources & Hrun & Hin).
    exists sources. split; [exact Hrun|]. apply Hin.
    split; [left; unfold directory_world; cbn [dirs]; set_solver|].
    split; [by exists ["x.png"]|]. split; [discriminate|].
    split; [reflexivity|]. rewrite should_process_run. reflexivity. }
  split; [|split; [|split; [reflexivity|split; [reflexivity|split;
    [reflexivity|split; [|split; [exact Hdir|split; [reflexivity|split;
    [reflexivity|split; reflexivity]]]]]]]]].
  - intros Hspec.
    destruct (Hspec sample_world sample_source (replicate 50 Byte.x00)
                (Pil.mkImage Pil.L (1, 1) (Pil.Decoded (replicate 50 Byte.x00)))
                sample_world_wf ltac:(discriminate) eq_refl eq_refl eq_refl)
      as (res & w' & out & image' & Hrun & Hout & Hdec & Hmode).
    rewrite Hopt in Hrun. injection Hrun as _ <-.
    cbn [files with_files] in Hout. rewrite lookup_insert_eq in Hout.
    injection Hout as <-. vm_compute in Hdec. injection Hdec as <-.
    discriminate Hmode.
  - eexists. split; [exact Hopt|]. cbn [files with_files].
    apply lookup_insert_eq.
  - intros Hspec. destruct Hdir as (sources & Hrun & Hin).
    destruct (Hspec directory_world sources sample_directory
                directory_world_wf Hrun Hin) as [x Hx].
    discriminate Hx.
Qed.

Section SelectionClaims.
Context `{Pil.Pillow}.

(** C6, amended: the selection predicate accepts a path exactly when its
    path relative to the root does not start with [assets/images/web/], is
    not one of the excluded exact paths, and its name does not end with
    [.web.png]; the sources the optimizer discovers are exactly the entries
    below the image tree, files and directories alike, whose name ends with
    [.png] and that the predicate accepts, in sorted order; the variant of a
    source is its sibling named by the source's stem followed by
    [.web.png], which for a source named [s.png] is [s.web.png] and for the
    source named [.png] is [.png.web.png].  For a source that is a file the
    optimizer can read, the bytes it leaves at the variant encode the image
    converted to RGBA when it has a band named A and to RGB otherwise (for
    the modes a PNG decodes to: RGBA for LA and RGBA, RGB for all the
    others) only where that encoding is not larger than the source;
    where it is larger, the variant is a copy of the source's bytes, not
    normalized.  For a source that is a directory the optimizer raises
    [IsADirectoryError]. *)
Theorem source_selection :
  (forall path,
     (exists b, WebAssets.should_process path = Ok b)
     /\ (WebAssets.should_process path = Ok true
         <-> (startswith (as_posix path) "assets/images/web/" = false
              /\ (as_posix path ∉ WebAssets.SKIP_EXACT)
              /\ endswith (name path) ".web.png" = false)))
  /\ (forall w, exists sources,
        WebAssets.discover_sources w = Ok (sources, w)
        /\ Sorted path_le sources
        /\ forall p,
             p ∈ sources
             <-> ((p ∈ dirs w \/ is_Some (files w !! p))
                  /\ WebAssets.IMAGES_ROOT `prefix_of` p
                  /\ p <> WebAssets.IMAGES_ROOT
                  /\ endswith (name p) ".png" = true
                  /\ WebAssets.should_process p = Ok true))
  /\ (forall src,
        name src <> "" ->
        with_name src (stem src +:+ ".web.png") = Ok (variant src)
        /\ parent (variant src) = parent src
        /\ variant src <> src)
  /\ (forall src s,
        s <> "" -> name src = s +:+ ".png" ->
        stem src = s /\ variant src = parent src </> (s +:+ ".web.png"))
  /\ (forall src,
        name src = ".png" ->
        stem src = ".png" /\ variant src = parent src </> ".png.web.png")
  /\ (forall w src data image,
        fs_wf w -> name src <> "" ->
        files w !! src = Some data -> Pil.png_decode data = Some image ->
        is_dir (variant src) w = false ->
        exists w',
          WebAssets.optimize src w
          = Ok ((variant src, size_of data, size_of (optimized data)), w')
          /\ files w' !! variant src = Some (optimized data)
          /\ optimized data
             = (if size_of data
                   <? size_of (Pil.png_encode (Pil.mkSaveOptions true (Some 9))
                                 (normalized image))
                then data
                else Pil.png_encode (Pil.mkSaveOptions true (Some 9))
                       (Pil.convert image
                          (if bool_decide ("A" ∈ Pil.getbands (Pil.mode image))
                           then Pil.RGBA else Pil.RGB))))
  /\ (forall w src,
        name src <> "" -> is_dir src w = true ->
        WebAssets.optimize src w = Raise IsADirectoryError)
  /\ Forall (fun m => "A" ∈ Pil.getbands m <-> m = Pil.LA \/ m = Pil.RGBA)
            png_modes.
Proof.
  split; [|split; [|split; [|split; [|split; [|split; [|split]]]]]].
  - intros path. split; [|apply should_process_true].
    eexists. apply should_process_run.
  - intros w. destruct (discover_sources_run w) as (sources & Hrun & Hin).
    exists sources. split; [done|]. split; [|done].
    unfold WebAssets.discover_sources in Hrun.
    rewrite bind_run in Hrun. unfold rglob at 1 in Hrun. cbv beta iota in Hrun.
    destruct (comprehension_run
                (filter (fun p => WebAssets.IMAGES_ROOT `prefix_of` p
                                  /\ p <> WebAssets.IMAGES_ROOT
                                  /\ endswith (name p) ".png" = true)
                        (elements (dirs w ∪ dom (files w)))))
      as (l & Hl & _).
    rewrite bind_run in Hrun. unfold lift at 1 in Hrun. rewrite Hl in Hrun.
    injection Hrun as <-. apply sorted_sorted.
  - intros src Hn. destruct (variant_name_valid src) as [Hv1 Hv2].
    split; [by apply with_name_run|]. split; [|by apply variant_differs].
    unfold variant, joinpath. apply parent_snoc.
  - intros src s Hs Hn.
    assert (Hstem : stem src = s) by by apply stem_png.
    unfold variant. by rewrite Hstem.
  - intros src Hn.
    assert (Hstem : stem src = ".png") by (unfold stem; by rewrite Hn).
    unfold variant. by rewrite Hstem.
  - intros w src data image Hw Hn Hsrc Hdec Hvd.
    pose proof (optimize_run w src data image Hw Hn Hsrc Hdec Hvd) as Hopt.
    cbv zeta in Hopt.
    pose proof (optimized_decoded data image Hdec) as Hout.
    assert (Hafter : (if size_of data <? size_of (reencoded image)
                      then size_of data else size_of (reencoded image))
                     = size_of (optimized data)).
    { rewrite Hout. by destruct (_ <? _). }
    rewrite Hafter, <- Hout in Hopt.
    eexists. split; [exact Hopt|]. cbn [files with_files].
    split; [apply lookup_insert_eq|].
    rewrite Hout. unfold reencoded, normalized.
    by destruct (bool_decide _).
  - intros w src. apply optimize_directory.
  - unfold png_modes. repeat apply Forall_cons_2; try apply Forall_nil_2;
      cbn; (split; [intros Hin|intros [?|?]; try discriminate]);
      repeat (apply elem_of_cons in Hin as [Hin|Hin]; try discriminate);
      try (by apply elem_of_nil in Hin); auto;
      repeat first [ apply list_elem_of_here | apply list_elem_of_further ].
Qed.

End SelectionClaims.

(** The predicate on four paths: an icon, a file of the excluded tree, an
    excluded file, a variant. *)
Example should_process_samples :
  WebAssets.should_process ["assets"; "images"; "icon-set"; "Singing.png"]
  = Ok true
  /\ WebAssets.should_process ["assets"; "images"; "web"; "logo.png"]
     = Ok false
  /\ WebAssets.should_process ["assets"; "images"; "android-icon-background.png"]
     = Ok false
  /\ WebAssets.should_process ["assets"; "images"; "record_icon.web.png"]
     = Ok false.
Proof. rewrite !should_process_run. repeat split; vm_compute; reflexivity. Qed.

(** * Beyond the specification: further properties of the scripts *)

(** ** The scaler *)

Lemma int_opp (q : Q) : int (- q) = - int q.
Proof.
  destruct q as [n d]. unfold int. cbn. apply Z.quot_opp_l. lia.
Qed.

Lemma w_opp (v : Q) : Icons._w (- v) = - Icons._w v.
Proof.
  unfold Icons._w. rewrite <- int_opp. destruct v as [n d].
  unfold int. cbn. f_equal. lia.
Qed.

Lemma int_floor_ceiling (q : Q) :
  int q = if Qle_bool 0 q then Qfloor q else Qceiling q.
Proof.
  destruct (Qle_bool 0 q) eqn:Hq.
  - apply int_nonneg. destruct q as [n d]. unfold Qle_bool in Hq. cbn in *. lia.
  - apply int_nonpos. destruct q as [n d]. unfold Qle_bool in Hq. cbn in *. lia.
Qed.

Lemma int_mono (p q : Q) : (p <= q)%Q -> int p <= int q.
Proof.
  intros Hpq. rewrite !int_floor_ceiling.
  destruct (Qle_bool 0 p) eqn:Hp, (Qle_bool 0 q) eqn:Hq.
  - by apply Qfloor_resp_le.
  - apply Qle_bool_iff in Hp. assert (Hq' : ~ (0 <= q)%Q).
    { intros H%Qle_bool_iff. congruence. }
    destruct Hq'. exact (Qle_trans _ _ _ Hp Hpq).
  - assert (Hp' : (p <= 0)%Q).
    { apply Qnot_lt_le. intros H. apply Qlt_le_weak, Qle_bool_iff in H. congruence. }
    apply Qle_bool_iff in Hq.
    apply (Z.le_trans _ 0).
    + change 0 with (Qceiling 0). by apply Qceiling_resp_le.
    + change 0 with (Qfloor 0). by apply Qfloor_resp_le.
  - by apply Qceiling_resp_le.
Qed.

Lemma int_close (q : Q) :
  (q - 1 < inject_Z (int q))%Q /\ (inject_Z (int q) < q + 1)%Q
  /\ ((0 <= q)%Q -> 0 <= int q /\ (inject_Z (int q) <= q)%Q)
  /\ ((q <= 0)%Q -> int q <= 0 /\ (q <= inject_Z (int q))%Q).
Proof.
  destruct q as [n d]. unfold int, Qlt, Qle. cbn.
  pose proof (Z.quot_rem n (Z.pos d) ltac:(lia)) as Hn.
  assert (Hr : 0 <= n -> 0 <= Z.rem n (Z.pos d) < Z.pos d).
  { intros. apply Z.rem_bound_pos; lia. }
  assert (Hr' : n <= 0 -> - Z.pos d < Z.rem n (Z.pos d) <= 0).
  { intros. pose proof (Z.rem_bound_pos (- n) (Z.pos d)) as Hb.
    rewrite Z.rem_opp_l in Hb by lia. lia. }
  assert (Hs : 0 <= n -> 0 <= n ÷ Z.pos d).
  { intros. apply Z.quot_pos; lia. }
  assert (Hs' : n <= 0 -> n ÷ Z.pos d <= 0).
  { intros. rewrite <- (Z.opp_involutive n), Z.quot_opp_l by lia.
    pose proof (Z.quot_pos (- n) (Z.pos d)). lia. }
  set (k := n ÷ Z.pos d) in *. set (r := Z.rem n (Z.pos d)) in *.
  repeat split; try nia.
Qed.

(** X1: the scaler is an odd function ([_w(-v) = -_w(v)]) and a monotone
    one; its result differs from [4 * v] by less than one canvas unit and
    never lies further from zero than [4 * v] does. *)
Theorem scaler_odd_monotone :
  (forall v, Icons._w (- v) = - Icons._w v)
  /\ (forall v v', (v <= v')%Q -> Icons._w v <= Icons._w v')
  /\ (forall v,
        (v * 4 - 1 < inject_Z (Icons._w v))%Q
        /\ (inject_Z (Icons._w v) < v * 4 + 1)%Q
        /\ ((0 <= v)%Q ->
            0 <= Icons._w v /\ (inject_Z (Icons._w v) <= v * 4)%Q)
        /\ ((v <= 0)%Q ->
            Icons._w v <= 0 /\ (v * 4 <= inject_Z (Icons._w v))%Q)).
Proof.
  split; [exact w_opp|]. split.
  - intros v v' Hv. unfold Icons._w. apply int_mono.
    apply Qmult_le_compat_r; [done|]. done.
  - intros v. unfold Icons._w, Icons.SCALE.
    destruct (int_close (v * inject_Z 4)) as (H1 & H2 & H3 & H4).
    repeat split; try done.
    + apply H3. by apply Qmult_le_0_compat.
    + apply H3. by apply Qmult_le_0_compat.
    + apply H4. rewrite <- (Qmult_0_l (inject_Z 4)).
      by apply Qmult_le_compat_r.
    + apply H4. rewrite <- (Qmult_0_l (inject_Z 4)).
      by apply Qmult_le_compat_r.
Qed.

(** ** The beat builder at any count *)

Lemma bind_singleton {A B} (f : A -> B) (l : list A) :
  l ≫= (fun x => [f x]) = f <$> l.
Proof. induction l as [|x l IH]; [done|]. cbn. by rewrite IH. Qed.

Lemma icon_beats_drawing count :
  renders (Icons.icon_beats count)
    (draw_all ((beat_marker count <$> range count) ++ [beat_baseline])
              blank_canvas).
Proof.
  assert (H : exists ps,
             renders (Icons.icon_beats count) (draw_all ps blank_canvas)
             /\ ps = (beat_marker count <$> range count) ++ [beat_baseline]).
  { unfold Icons.icon_beats. eexists. split.
    - eapply renders_new; intros ?; cbv beta iota zeta; draw_step.
    - cbv beta. rewrite app_nil_r.
      f_equal; exact (bind_singleton (beat_marker count) (range count)). }
  destruct H as (ps & Hps & ->). exact Hps.
Qed.

Lemma range_seq count : range count = Z.of_nat <$> seq 0 (Z.to_nat count).
Proof. reflexivity. Qed.

Lemma filter_all {A} (P : A -> Prop) `{forall x, Decision (P x)} (l : list A) :
  Forall P l -> filter P l = l.
Proof.
  induction 1 as [|x l Hx Hl IH]; [done|].
  rewrite filter_cons_True by done. by rewrite IH.
Qed.

Lemma markers_beats count :
  markers (draw_all ((beat_marker count <$> range count) ++ [beat_baseline])
                    blank_canvas)
  = beat_marker count <$> range count.
Proof.
  unfold markers. rewrite draw_all_drawn. cbn [drawn_on blank_canvas].
  change (drawn_on blank_canvas) with (@nil Pil.Prim). cbn [app].
  rewrite filter_app. rewrite filter_all.
  - change (filter _ [beat_baseline]) with (@nil Pil.Prim). apply app_nil_r.
  - apply Forall_fmap, Forall_forall. intros i _. reflexivity.
Qed.

Lemma gaps_cons x y l : gaps (x :: y :: l) = (y - x) :: gaps (y :: l).
Proof. reflexivity. Qed.

Lemma gaps_affine a d n s :
  Forall (fun g => g = d) (gaps ((fun k => a + d * Z.of_nat k) <$> seq s n)).
Proof.
  revert s. induction n as [|n IH]; intros s; [constructor|].
  destruct n as [|n]; [constructor|].
  cbn [seq fmap list_fmap] in *. rewrite gaps_cons. constructor; [lia|].
  apply (IH (S s)).
Qed.

Lemma fmap_const {A B} (f : A -> B) c (l : list A) :
  Forall (fun x => f x = c) l -> f <$> l = replicate (length l) c.
Proof. induction 1 as [|x l Hx Hl IH]; [done|]. cbn. by rewrite Hx, IH. Qed.

Lemma omap_fmap_Some {A B C} (f : A -> B) (g : B -> option C) (h : A -> C)
    (l : list A) :
  (forall x, g (f x) = Some (h x)) -> omap g (f <$> l) = h <$> l.
Proof.
  intros Hg. induction l as [|x l IH]; [done|].
  cbn. rewrite Hg. cbn. by rewrite IH.
Qed.

Lemma beat_start count :
  1 <= count -> 256 - ((count - 1) * 70) `div` 2 = 256 - 35 * (count - 1).
Proof.
  intros Hc. replace ((count - 1) * 70) with (35 * (count - 1) * 2) by lia.
  by rewrite Z.div_mul.
Qed.

Lemma beat_marker_box count i :
  bbox (beat_marker count i)
  = Some (4 * (256 - ((count - 1) * 70) `div` 2 + i * 70 - 22), Icons._w 220,
          4 * (256 - ((count - 1) * 70) `div` 2 + i * 70 + 22), Icons._w 264).
Proof. unfold beat_marker. cbn [bbox]. by rewrite !w_of_int. Qed.

Lemma beat_row_any count :
  1 <= count ->
  beat_row (Z.to_nat count)
    (draw_all ((beat_marker count <$> range count) ++ [beat_baseline])
              blank_canvas).
Proof.
  intros Hc. unfold beat_row, marker_centres2. rewrite markers_beats.
  rewrite range_seq, <- list_fmap_compose.
  pose proof (beat_start count Hc) as Hs.
  set (f := beat_marker count ∘ Z.of_nat).
  assert (Hbox : forall k : nat,
            bbox (f k)
            = Some (4 * (256 - 35 * (count - 1) + Z.of_nat k * 70 - 22),
                    Icons._w 220,
                    4 * (256 - 35 * (count - 1) + Z.of_nat k * 70 + 22),
                    Icons._w 264)).
  { intros k. unfold f. cbn [compose]. rewrite beat_marker_box. by rewrite Hs. }
  assert (Hcs : omap (fun p => fst ∘ centre2 <$> bbox p)
                     (f <$> seq 0 (Z.to_nat count))
                = (fun k => 8 * (256 - 35 * (count - 1)) + 560 * Z.of_nat k)
                    <$> seq 0 (Z.to_nat count)).
  { apply omap_fmap_Some. intros k. rewrite Hbox. cbn. f_equal. lia. }
  rewrite Hcs. clear Hcs.
  destruct (Z.to_nat count) as [|m] eqn:Hm; [lia|].
  assert (Hm' : Z.of_nat m = count - 1) by lia.
  split; [by rewrite length_fmap, length_seq|].
  split; [by rewrite length_fmap, length_seq|].
  split; [exists 280; apply gaps_affine|].
  split.
  { exists (176, 176). apply Forall_fmap, Forall_forall. intros k _.
    cbn [compose]. rewrite Hbox. cbn. do 2 f_equal. lia. }
  split.
  { exists (Icons._w 220 + Icons._w 264). apply Forall_fmap, Forall_forall.
    intros k _. cbn [compose]. by rewrite Hbox. }
  split.
  { match goal with |- context [last ?l] =>
      assert (Hl : last l
                   = Some (8 * (256 - 35 * (count - 1)) + 560 * Z.of_nat m))
        by (rewrite seq_S, fmap_app; apply last_snoc)
    end.
    rewrite Hl. cbn. f_equal. change (Icons._w 256) with 1024. lia. }
  rewrite seq_S, fmap_app, fmap_app. cbn [fmap list_fmap plus].
  rewrite Nat.sub_succ, Nat.sub_0_r. f_equal.
  - rewrite <- list_fmap_compose.
    rewrite (fmap_const _ (Some Icons.SOFT_WHITE)); [by rewrite length_seq|].
    apply Forall_forall. intros k Hk%elem_of_seq. unfold f, beat_marker.
    cbn [compose fill_of]. destruct (Z.eqb_spec (Z.of_nat k) (count - 1)); [lia|done].
  - unfold f, beat_marker. cbn [compose fill_of].
    destruct (Z.eqb_spec (Z.of_nat m) (count - 1)); [done|lia].
Qed.

(** X2: for every count of at least one the beat builder draws a row of
    that many markers (one size, one height, evenly spaced [_w(70)] canvas
    units apart, centred on x = 256, the last in ORANGE and the others in
    SOFT_WHITE) followed by the baseline; for a count of zero or less the
    body of its loop never runs and the drawing is the baseline alone. *)
Theorem beats_any_count (count : Z) :
  (1 <= count ->
   exists img,
     renders (Icons.icon_beats count) img
     /\ beat_row (Z.to_nat count) img
     /\ Forall (fun g => g = 2 * Icons._w 70) (gaps (marker_centres2 img))
     /\ drawn_on img = markers img ++ [beat_baseline])
  /\ (count <= 0 ->
      exists img,
        renders (Icons.icon_beats count) img
        /\ drawn_on img = [beat_baseline]).
Proof.
  split; intros Hc; eexists; (split; [apply icon_beats_drawing|]).
  - split; [by apply beat_row_any|]. split.
    + unfold marker_centres2. rewrite markers_beats.
      rewrite range_seq, <- list_fmap_compose.
      rewrite (omap_fmap_Some _ _
                 (fun k : nat => 8 * (256 - ((count - 1) * 70) `div` 2)
                                 + 560 * Z.of_nat k)).
      * apply gaps_affine.
      * intros k. cbn [compose]. rewrite beat_marker_box. cbn. f_equal. lia.
    + rewrite markers_beats. by rewrite draw_all_drawn.
  - rewrite draw_all_drawn. unfold range.
    replace (Z.to_nat count) with 0%nat by lia. reflexivity.
Qed.

(** ** Drawings and the canvas *)

#[global] Instance on_canvas_dec p : Decision (on_canvas p).
Proof. unfold on_canvas. apply _. Defined.

(** The drawing of a builder call, found by running it, stays on the
    canvas. *)
Ltac inside_canvas lem :=
  eexists; split;
  [ eapply renders_of_canvas;
    [ destruct lem as [ps Hps]; eexists; exact Hps | vm_compute; reflexivity ]
  | apply (bool_decide_unpack _); vm_compute; reflexivity ].

Lemma plain_builders_on_canvas : Forall stays_on_canvas plain_builders.
Proof.
  pose proof plain_builders_render as H. unfold plain_builders in *.
  repeat lazymatch goal with
  | |- Forall _ [] => apply Forall_nil_2
  | |- Forall _ (_ :: _) =>
      apply Forall_cons_2;
      [ apply Forall_cons_1 in H as [H1 H]; inside_canvas H1; fail
      | apply Forall_cons_1 in H as [_ H] ]
  end.
Qed.

Lemma beats_on_canvas count :
  stays_on_canvas (Icons.icon_beats count) <-> count <= 7.
Proof.
  split.
  - intros (img & Himg & Hall).
    destruct (Z.le_gt_cases count 0) as [|Hc]; [lia|].
    rewrite (renders_unique _ _ _ Himg (icon_beats_drawing count)) in Hall.
    rewrite draw_all_drawn in Hall. cbn [drawn_on blank_canvas app] in Hall.
    change (drawn_on blank_canvas) with (@nil Pil.Prim) in Hall.
    cbn [app] in Hall. apply Forall_app in Hall as [Hall _].
    rewrite range_seq in Hall.
    destruct (Z.to_nat count) as [|m] eqn:Hm; [lia|].
    cbn [seq fmap list_fmap] in Hall. apply Forall_cons_1 in Hall as [H0 _].
    unfold on_canvas, beat_marker in H0. cbn [coords] in H0.
    apply Forall_cons_1 in H0 as [H0 _]. rewrite w_of_int in H0.
    rewrite beat_start in H0 by lia. change (Z.of_nat 0) with 0 in H0. lia.
  - intros Hc. eexists. split; [apply icon_beats_drawing|].
    rewrite draw_all_drawn. change (drawn_on blank_canvas) with (@nil Pil.Prim).
    cbn [app]. apply Forall_app. split.
    + apply Forall_fmap, Forall_forall. intros i Hi.
      unfold range in Hi. apply list_elem_of_fmap in Hi as (k & -> & Hk%elem_of_seq).
      unfold compose, on_canvas, beat_marker. cbn [coords]. rewrite !w_of_int.
      destruct (Z.le_gt_cases count 0) as [|Hc1]; [lia|].
      rewrite beat_start by lia.
      change (Icons._w 220) with 880. change (Icons._w 264) with 1056.
      change Icons.CANVAS with 2048.
      repeat constructor; lia.
    + repeat constructor; by vm_compute.
Qed.

(** X3: no builder places a primitive off the canvas: for every builder
    without a parameter and for both values of the selector of the feedback
    and of the gender builder, every coordinate of every drawing call lies
    between 0 and 2048; the beat builder keeps to the canvas exactly for the
    counts up to seven. *)
Theorem drawings_stay_on_canvas :
  Forall stays_on_canvas plain_builders
  /\ (forall high, stays_on_canvas (Icons.icon_feedback high))
  /\ (forall female, stays_on_canvas (Icons.icon_gender female))
  /\ (forall count, stays_on_canvas (Icons.icon_beats count) <-> count <= 7).
Proof.
  split; [exact plain_builders_on_canvas|]. split; [|split].
  - intros []; [inside_canvas (icon_feedback_renders true)
               | inside_canvas (icon_feedback_renders false)].
  - intros []; [inside_canvas (icon_gender_renders true)
               | inside_canvas (icon_gender_renders false)].
  - exact beats_on_canvas.
Qed.

(** X4: two builder calls in a row never share a canvas: the second call
    allocates an object of its own, next to the first one's, and leaves the
    first canvas as the first call drew it. *)
Theorem canvases_are_not_shared (b1 b2 : M Ref) :
  builder_call b1 -> builder_call b2 ->
  exists img1 img2,
    renders b1 img1 /\ renders b2 img2
    /\ forall w,
         (r1 ← b1; r2 ← b2; mret (r1, r2)) w
         = Ok ((length (heap w), S (length (heap w))),
               with_heap w (heap w ++ [img1; img2])).
Proof.
  intros [ps1 H1]%builder_call_renders [ps2 H2]%builder_call_renders.
  eexists _, _. split; [exact H1|]. split; [exact H2|]. intros w.
  rewrite bind_run, (H1 w), bind_run, (H2 _). cbn [heap with_heap].
  rewrite length_app, <- app_assoc. cbn [length app].
  by rewrite Nat.add_1_r.
Qed.

Lemma canvases_are_not_shared_witness :
  exists img1 img2,
    renders Icons.icon_record img1 /\ renders (Icons.icon_beats 2) img2
    /\ forall w,
         (r1 ← Icons.icon_record; r2 ← Icons.icon_beats 2; mret (r1, r2)) w
         = Ok ((length (heap w), S (length (heap w))),
               with_heap w (heap w ++ [img1; img2])).
Proof.
  apply (canvases_are_not_shared Icons.icon_record (Icons.icon_beats 2)).
  - apply call_plain. unfold plain_builders. elem_by_name.
  - apply call_beats.
Defined.

(** ** Saving where the destination is not writable *)

(** Nothing exists below a file. *)
Lemma below_file w q p :
  fs_wf w -> is_Some (files w !! q) -> q `prefix_of` p -> q <> p ->
  is_dir p w = false /\ files w !! p = None.
Proof.
  intros Hw Hq [k ->]. induction k as [|c k IH] using rev_ind.
  { rewrite app_nil_r. done. }
  intros _. rewrite app_assoc.
  assert (Hpar : is_dir (q ++ k) w = false).
  { destruct (decide (k = [])) as [->|Hk].
    - rewrite app_nil_r. by apply file_not_dir.
    - apply IH. intros E. apply Hk.
      apply (app_inv_head q). by rewrite app_nil_r. }
  split.
  - destruct (is_dir ((q ++ k) ++ [c]) w) eqn:Hd; [|done].
    apply is_dir_true in Hd as [Hd|Hd].
    + by apply app_nil in Hd as [_ ?].
    + apply (wf_dirs _ Hw) in Hd. rewrite parent_snoc in Hd. congruence.
  - destruct (files w !! ((q ++ k) ++ [c])) eqn:Hf; [|done].
    assert (Hs : is_Some (files w !! ((q ++ k) ++ [c]))) by (by eexists).
    apply (wf_parents _ Hw) in Hs. rewrite parent_snoc in Hs. congruence.
Qed.

(** A file on the way stops [mkdir]: with [FileExistsError] when it sits
    at the path itself, with [NotADirectoryError] when it sits above. *)
Lemma mkdir_from_file n p w :
  fs_wf w -> is_Some (files w !! p) ->
  mkdir_from n p w = Raise FileExistsError.
Proof.
  intros Hw Hp. pose proof (file_not_dir _ _ Hw Hp) as Hd.
  assert (Hm : os_mkdir p w = Raise FileExistsError).
  { unfold os_mkdir. rewrite Hd. by rewrite (proj2 (is_file_true _ _) Hp). }
  destruct n; cbn [mkdir_from]; rewrite Hm, Hd; done.
Qed.

Lemma mkdir_from_below_file n p q w :
  fs_wf w -> is_Some (files w !! q) -> q `prefix_of` p -> q <> p ->
  (length p <= n + length q)%nat ->
  mkdir_from n p w = Raise NotADirectoryError.
Proof.
  intros Hw Hq. revert p. induction n as [|n IH]; intros p Hpre Hne Hlen.
  { exfalso. apply Hne. destruct Hpre as [k ->]. rewrite length_app in Hlen.
    destruct k; [by rewrite app_nil_r|cbn in Hlen; lia]. }
  destruct (below_file _ _ _ Hw Hq Hpre Hne) as [Hd Hf].
  assert (Hp : p <> []).
  { intros ->. apply prefix_nil_inv in Hpre. done. }
  destruct (prefix_parent _ _ Hpre) as [?|Hpre']; [done|].
  destruct (decide (q = parent p)) as [E|Hne'].
  - assert (Hm : os_mkdir p w = Raise NotADirectoryError).
    { unfold os_mkdir. rewrite Hd, (proj2 (is_file_false _ _) Hf). cbn.
      rewrite <- E, (file_not_dir _ _ Hw Hq).
      by rewrite (proj2 (is_file_true _ _) Hq). }
    cbn [mkdir_from]. by rewrite Hm, Hd.
  - destruct (below_file _ _ _ Hw Hq Hpre' Hne') as [Hd' Hf'].
    assert (Hm : os_mkdir p w = Raise FileNotFoundError).
    { unfold os_mkdir. rewrite Hd, (proj2 (is_file_false _ _) Hf). cbn.
      by rewrite Hd', (proj2 (is_file_false _ _) Hf'). }
    rewrite (mkdir_from_missing _ _ _ Hm), bind_run.
    rewrite (IH (parent p)); [done|done|done|].
    apply parent_length in Hp. lia.
Qed.

Lemma mkdir_blocked p q w :
  fs_wf w -> is_Some (files w !! q) -> q `prefix_of` p ->
  mkdir p w = Raise (if decide (q = p) then FileExistsError
                     else NotADirectoryError).
Proof.
  intros Hw Hq Hpre. unfold mkdir. destruct (decide (q = p)) as [->|Hne].
  - by apply mkdir_from_file.
  - apply (mkdir_from_below_file _ _ q); try done. lia.
Qed.

Section Save.
Context `{Pil.Pillow}.

Lemma save_blocked img target q w :
  fs_wf w -> is_Some (files w !! q) -> q `prefix_of` parent target ->
  Icons._save img target w
  = Raise (if decide (q = parent target) then FileExistsError
           else NotADirectoryError).
Proof.
  intros Hw Hq Hpre. unfold Icons._save.
  by rewrite bind_run, (mkdir_blocked _ q).
Qed.

Lemma save_on_directory img target w :
  fs_wf w -> png_named target -> is_dir target w = true ->
  Icons._save img target w = Raise IsADirectoryError.
Proof.
  intros Hw Hpng Hd. unfold Icons._save.
  assert (Hpar : is_dir (parent target) w = true).
  { eapply dir_prefix; [done|done|apply parent_prefix]. }
  unfold mkdir. rewrite bind_run, mkdir_from_exists by done.
  rewrite bind_run. unfold load at 1. unfold Image.save.
  rewrite bind_run. unfold png_named in Hpng. rewrite Hpng. cbn.
  unfold write_bytes. by rewrite Hd.
Qed.

(** X5: in a well-formed filesystem [_save] succeeds exactly where the
    destination is writable.  It raises [IsADirectoryError] where the
    destination is a directory, [FileExistsError] where a file sits at the
    destination's parent and [NotADirectoryError] where a file sits further
    up the path. *)
Theorem save_succeeds_iff_writable (img : Ref) (target : Path) (w : World) :
  fs_wf w -> png_named target ->
  ((exists w', Icons._save img target w = Ok (tt, w')) <-> writable w target)
  /\ (is_dir target w = true ->
      Icons._save img target w = Raise IsADirectoryError)
  /\ (is_Some (files w !! parent target) ->
      Icons._save img target w = Raise FileExistsError)
  /\ (forall q,
        q `prefix_of` parent target -> q <> parent target ->
        is_Some (files w !! q) ->
        Icons._save img target w = Raise NotADirectoryError).
Proof.
  intros Hw Hpng. split; [|split; [|split]].
  - split.
    + intros [w' Hok]. split.
      * destruct (is_dir target w) eqn:Hd; [|done].
        rewrite save_on_directory in Hok by done. discriminate.
      * intros q Hq. destruct (files w !! q) eqn:Hf; [|done].
        rewrite (save_blocked _ _ q) in Hok; [discriminate|done| |done].
        by rewrite Hf.
    + intros Hwr. destruct (save_run img target w Hw Hpng Hwr) as (ds & -> & _).
      by eexists.
  - by apply save_on_directory.
  - intros Hq. rewrite (save_blocked _ _ (parent target)); try done.
    by rewrite decide_True.
  - intros q Hpre Hne Hq. rewrite (save_blocked _ _ q); try done.
    by rewrite decide_False.
Qed.

End Save.

Lemma save_succeeds_iff_writable_witness :
  (exists w', @Icons._save flat_pillow 0%nat sample_source initial = Ok (tt, w'))
  <-> writable initial sample_source.
Proof.
  exact (proj1 (@save_succeeds_iff_writable flat_pillow 0%nat sample_source
                  initial initial_wf eq_refl)).
Defined.

Section Generate.
Context `{Pil.Pillow}.


Lemma save_ok_writable img target w w' :
  fs_wf w -> png_named target ->
  Icons._save img target w = Ok (tt, w') -> writable w target.
Proof.
  intros Hw Hpng Hok. split.
  - destruct (is_dir target w) eqn:Hd; [|done].
    rewrite save_on_directory in Hok by done. discriminate.
  - intros q Hq. destruct (files w !! q) eqn:Hf; [|done].
    rewrite (save_blocked _ _ q) in Hok; [discriminate|done| |done].
    by rewrite Hf.
Qed.

Lemma generate_ok_writable target b img w w' :
  renders b img -> fs_wf w -> png_named target ->
  Icons.generate (target, b) w = Ok (tt, w') -> writable w target.
Proof.
  intros Hb Hw Hpng Hok. unfold Icons.generate in Hok.
  rewrite bind_run, (Hb w), bind_run in Hok.
  destruct (Icons._save _ _ _) as [[[] w1]|e] eqn:Hsave; [|discriminate].
  apply save_ok_writable in Hsave; [|by apply fs_wf_heap|done].
  destruct Hsave as [Hd Hf]. split; [exact Hd|exact Hf].
Qed.

Lemma generate_all_writable entries imgs w w' :
  Forall2 (fun e img => renders (snd e) img) entries imgs ->
  fs_wf w ->
  Forall (fun e => png_named (fst e)) entries ->
  for_each entries Icons.generate w = Ok (tt, w') ->
  Forall (fun e => writable w (fst e)) entries.
Proof.
  intros Hall. revert w.
  induction Hall as [|[t b] img entries imgs Hb Hall IH];
    intros w Hw Hpng Hok; [constructor|].
  apply Forall_cons in Hpng as [Hpng1 Hpng].
  cbn [for_each] in Hok. rewrite bind_run in Hok.
  destruct (Icons.generate (t, b) w) as [[[] w1]|e] eqn:Hgen; [|discriminate].
  pose proof (generate_ok_writable _ _ _ _ _ Hb Hw Hpng1 Hgen) as Hwr1.
  destruct (generate_run t b img w Hb Hw Hpng1 Hwr1) as (ds1 & Hgen' & Hds1 & Hw1).
  rewrite Hgen in Hgen'. injection Hgen' as ->.
  constructor; [exact Hwr1|].
  specialize (IH _ Hw1 Hpng Hok).
  eapply Forall_impl; [exact IH|]. intros e [Hd Hf]. split.
  - apply is_dir_false in Hd as [Hne Hnin]. apply is_dir_false.
    split; [done|]. intros Hin. apply Hnin. cbn. apply Hds1. by left.
  - intros q Hq. specialize (Hf q Hq). cbn in Hf.
    destruct (decide (t = q)) as [->|Hne].
    + by rewrite lookup_insert_eq in Hf.
    + by rewrite lookup_insert_ne in Hf.
Qed.

(** X6: in a well-formed filesystem the entry point of the generator
    succeeds exactly where every destination of the registry is writable. *)
Theorem main_succeeds_iff_writable (w : World) :
  fs_wf w ->
  (exists w', Icons.main w = Ok (tt, w')) <-> Forall (writable w) targets.
Proof.
  intros Hw. split.
  - intros [w' Hok]. unfold targets. apply Forall_fmap.
    exact (generate_all_writable _ _ _ _ catalog_renders Hw targets_png Hok).
  - intros Hwr. destruct (main_run w Hw Hwr) as (ds & Hrun & _).
    eexists. exact Hrun.
Qed.

End Generate.

Lemma main_succeeds_iff_writable_witness :
  (exists w', @Icons.main flat_pillow initial = Ok (tt, w'))
  <-> Forall (writable initial) targets.
Proof. exact (@main_succeeds_iff_writable flat_pillow initial initial_wf). Defined.

(** ** More on the optimizer *)

Lemma string_append_assoc (a b c : string) : (a +:+ b) +:+ c = a +:+ (b +:+ c).
Proof.
  induction a as [|x a IH]; [done|]. rewrite !string_app_cons. by rewrite IH.
Qed.

Lemma substring_app_r a b :
  String.substring (String.length a) (String.length b) (a +:+ b) = b.
Proof.
  induction a as [|x a IH].
  - rewrite string_app_nil. cbn [String.length].
    induction b as [|y b IHb]; [done|]. cbn. by rewrite IHb.
  - rewrite string_app_cons. cbn. exact IH.
Qed.

Lemma endswith_app a b : endswith (a +:+ b) b = true.
Proof.
  unfold endswith. rewrite length_app_string.
  replace (String.length a + String.length b - String.length b)%nat
    with (String.length a) by lia.
  rewrite substring_app_r, String.eqb_refl.
  rewrite andb_true_r. apply Nat.leb_le. lia.
Qed.

Lemma variant_name (src : Path) : name (variant src) = stem src +:+ ".web.png".
Proof. apply name_snoc. Qed.

Lemma variant_not_selected (src : Path) :
  WebAssets.should_process (variant src) = Ok false.
Proof.
  rewrite should_process_run, variant_name, endswith_app.
  by rewrite andb_false_r.
Qed.

Section Optimizer.
Context `{Pil.Pillow}.

(** X7: optimizing a source a second time returns what the first time
    returned and changes nothing; the first time changes no file but the
    variant, no directory, no object and no output. *)
Theorem optimize_idempotent (w : World) (src : Path)
    (data : list Byte.byte) (image : Pil.Image) :
  fs_wf w -> name src <> "" ->
  files w !! src = Some data -> Pil.png_decode data = Some image ->
  is_dir (variant src) w = false ->
  exists res w',
    WebAssets.optimize src w = Ok (res, w')
    /\ WebAssets.optimize src w' = Ok (res, w')
    /\ heap w' = heap w /\ dirs w' = dirs w /\ stdout w' = stdout w
    /\ forall p, p <> variant src -> files w' !! p = files w !! p.
Proof.
  intros Hw Hn Hsrc Hdec Hvd.
  pose proof (optimize_run w src data image Hw Hn Hsrc Hdec Hvd) as H1.
  cbv zeta in H1.
  set (out := if size_of data <? size_of (reencoded image)
              then data else reencoded image) in *.
  set (w' := with_files w (<[variant src := out]> (files w))) in *.
  assert (Hw' : fs_wf w') by (by eapply optimize_world_wf).
  assert (Hsrc' : files w' !! src = Some data).
  { unfold w'. cbn. rewrite lookup_insert_ne; [done|].
    by apply variant_differs. }
  pose proof (optimize_run w' src data image Hw' Hn Hsrc' Hdec Hvd) as H2.
  cbv zeta in H2. fold out in H2.
  eexists _, w'. split; [exact H1|]. split.
  - rewrite H2. f_equal. f_equal. unfold w', with_files. cbn.
    by rewrite insert_insert_eq.
  - repeat split. intros p Hp. unfold w'. cbn. by rewrite lookup_insert_ne.
Qed.


End Optimizer.

Lemma optimize_idempotent_witness :
  exists res w',
    @WebAssets.optimize flat_pillow sample_source sample_world = Ok (res, w')
    /\ @WebAssets.optimize flat_pillow sample_source w' = Ok (res, w').
Proof.
  destruct (@optimize_idempotent flat_pillow sample_world sample_source
              (replicate 50 Byte.x00)
              (Pil.mkImage Pil.RGB (1, 1) (Pil.Decoded (replicate 50 Byte.x00)))
              sample_world_wf ltac:(discriminate) eq_refl eq_refl eq_refl)
    as (res & w' & H1 & H2 & _).
  exists res, w'. exact (conj H1 H2).
Defined.


(** ** The order of paths *)

Lemma string_compare_trans a b c :
  String.compare a b = Lt -> String.compare b c = Lt -> String.compare a c = Lt.
Proof.
  revert b c. induction a as [|x a IH]; intros [|y b] [|z c]; cbn; try done.
  unfold Ascii.compare.
  destruct (N.compare_spec (N_of_ascii x) (N_of_ascii y)) as [E1|L1|G1];
    destruct (N.compare_spec (N_of_ascii y) (N_of_ascii z)) as [E2|L2|G2];
    try done.
  - rewrite E1, E2, N.compare_refl. apply IH.
  - rewrite E1. by rewrite (proj2 (N.compare_lt_iff _ _) L2).
  - rewrite <- E2. by rewrite (proj2 (N.compare_lt_iff _ _) L1).
  - intros _ _.
    by rewrite (proj2 (N.compare_lt_iff _ _) (N.lt_trans _ _ _ L1 L2)).
Qed.

Lemma string_compare_refl a : String.compare a a = Eq.
Proof.
  induction a as [|x a IH]; [done|]. cbn. unfold Ascii.compare.
  by rewrite N.compare_refl.
Qed.

#[global] Instance path_le_trans : Transitive path_le.
Proof.
  unfold path_le. intros p. induction p as [|a p IH]; intros q r; [done|].
  destruct q as [|b q]; [done|]. destruct r as [|c r]; [done|]. cbn.
  destruct (String.compare a b) eqn:E1; [|clear IH|done];
    destruct (String.compare b c) eqn:E2; try done.
  - apply String.compare_eq_iff in E1 as ->. apply String.compare_eq_iff in E2 as ->.
    rewrite string_compare_refl. apply IH.
  - apply String.compare_eq_iff in E1 as ->. by rewrite E2.
  - apply String.compare_eq_iff in E2 as ->. by rewrite E1.
  - by rewrite (string_compare_trans _ _ _ E1 E2).
Qed.

#[global] Instance path_le_antisymm : AntiSymm (=) path_le.
Proof.
  unfold path_le. intros p. induction p as [|a p IH]; intros [|b q]; try done.
  cbn. rewrite (String.compare_antisym b a).
  destruct (String.compare a b) eqn:E; cbn; try done.
  apply String.compare_eq_iff in E as ->. intros H1 H2. f_equal. by apply IH.
Qed.

(** ** Discovery *)

Lemma comprehension_NoDup (ps l : list Path) :
  NoDup ps -> WebAssets.comprehension ps = Ok l -> NoDup l.
Proof.
  intros Hnd. revert l. induction Hnd as [|p ps Hp Hnd IH]; intros l Hl.
  - injection Hl as <-. constructor.
  - cbn [WebAssets.comprehension] in Hl.
    destruct (comprehension_run ps) as (rest & Hrest & Hin).
    rewrite Hrest, should_process_run in Hl.
    specialize (IH rest Hrest).
    destruct (negb _ && negb _ && negb _); injection Hl as <-; [|done].
    constructor; [|done]. rewrite Hin. by intros [? _].
Qed.

(** Two sorted lists without duplicates that hold the same paths are the
    same list. *)
Lemma sorted_unique (l1 l2 : list Path) :
  NoDup l1 -> NoDup l2 -> Sorted path_le l1 -> Sorted path_le l2 ->
  (forall p, p ∈ l1 <-> p ∈ l2) -> l1 = l2.
Proof.
  intros H1 H2 S1 S2 Hin. apply (Sorted_unique path_le); [done|done|].
  by apply NoDup_Permutation.
Qed.

Lemma discover_sources_spec w :
  exists sources,
    WebAssets.discover_sources w = Ok (sources, w)
    /\ NoDup sources /\ Sorted path_le sources
    /\ forall p,
         p ∈ sources
         <-> (p ∈ dirs w \/ is_Some (files w !! p))
             /\ WebAssets.IMAGES_ROOT `prefix_of` p
             /\ p <> WebAssets.IMAGES_ROOT
             /\ endswith (name p) ".png" = true
             /\ WebAssets.should_process p = Ok true.
Proof.
  unfold WebAssets.discover_sources. rewrite bind_run.
  unfold rglob at 1. cbv beta iota.
  set (found := filter _ _).
  assert (Hfound : NoDup found).
  { apply NoDup_filter, NoDup_elements. }
  destruct (comprehension_run found) as (l & Hl & Hin).
  pose proof (comprehension_NoDup _ _ Hfound Hl) as Hnd.
  rewrite bind_run. unfold lift at 1. rewrite Hl.
  exists (sorted l). split; [done|]. split; [|split].
  - unfold sorted. by rewrite merge_sort_Permutation.
  - apply sorted_sorted.
  - intros p. rewrite sorted_elem, Hin. unfold found.
    rewrite list_elem_of_filter, elem_of_elements, elem_of_union, elem_of_dom.
    tauto.
Qed.

(** X9: the list [discover_sources] returns has no duplicates and is
    determined by which entries exist below the image tree: two worlds with
    the same entries there give the same list, whatever the files hold.
    Every source has a name, and its variant is another path. *)
Theorem discovery_is_canonical (w1 w2 : World) :
  (forall p, WebAssets.IMAGES_ROOT `prefix_of` p ->
             (p ∈ dirs w1 \/ is_Some (files w1 !! p))
             <-> (p ∈ dirs w2 \/ is_Some (files w2 !! p))) ->
  exists sources,
    WebAssets.discover_sources w1 = Ok (sources, w1)
    /\ WebAssets.discover_sources w2 = Ok (sources, w2)
    /\ NoDup sources
    /\ Forall (fun p => name p <> "" /\ p <> variant p) sources.
Proof.
  intros Hsame.
  destruct (discover_sources_spec w1) as (l1 & Hl1 & Hnd1 & Hs1 & Hin1).
  destruct (discover_sources_spec w2) as (l2 & Hl2 & Hnd2 & Hs2 & Hin2).
  assert (l1 = l2) as <-.
  { apply sorted_unique; try done. intros p. rewrite Hin1, Hin2.
    split; intros (He & Hpre & Hrest); (split; [|done]); by apply Hsame. }
  exists l1. split; [done|]. split; [done|]. split; [done|].
  apply Forall_forall. intros p (_ & _ & _ & Hpng & _)%Hin1.
  assert (Hn : name p <> "").
  { intros E. rewrite E in Hpng. discriminate. }
  split; [done|]. intros E. symmetry in E. by apply variant_differs in E.
Qed.

Lemma discovery_is_canonical_witness :
  exists sources,
    WebAssets.discover_sources sample_world = Ok (sources, sample_world)
    /\ WebAssets.discover_sources (with_stdout sample_world [Text "done"])
       = Ok (sources, with_stdout sample_world [Text "done"])
    /\ NoDup sources.
Proof.
  destruct (discovery_is_canonical sample_world
              (with_stdout sample_world [Text "done"]))
    as (sources & H1 & H2 & H3 & _).
  - intros p _. reflexivity.
  - exists sources. exact (conj H1 (conj H2 H3)).
Defined.

Section Stable.
Context `{Pil.Pillow}.

(** X10: the optimizer never selects what it writes.  The variant of a
    source is a PNG by its name, yet the selection predicate rejects it, and
    discovery after optimizing a source returns the list it returned
    before. *)
Theorem optimizer_output_not_selected (w : World) (src : Path)
    (data : list Byte.byte) (image : Pil.Image) :
  fs_wf w -> name src <> "" ->
  files w !! src = Some data -> Pil.png_decode data = Some image ->
  is_dir (variant src) w = false ->
  WebAssets.should_process (variant src) = Ok false
  /\ endswith (name (variant src)) ".png" = true
  /\ exists res w' sources,
       WebAssets.optimize src w = Ok (res, w')
       /\ WebAssets.discover_sources w = Ok (sources, w)
       /\ WebAssets.discover_sources w' = Ok (sources, w')
       /\ variant src ∉ sources.
Proof.
  intros Hw Hn Hsrc Hdec Hvd.
  split; [apply variant_not_selected|]. split.
  { rewrite variant_name.
    change (stem src +:+ ".web.png") with (stem src +:+ (".web" +:+ ".png")).
    rewrite <- string_append_assoc. apply endswith_app. }
  pose proof (optimize_run w src data image Hw Hn Hsrc Hdec Hvd) as H1.
  cbv zeta in H1.
  set (out := if size_of data <? size_of (reencoded image)
              then data else reencoded image) in *.
  set (w' := with_files w (<[variant src := out]> (files w))) in *.
  destruct (discover_sources_spec w) as (l1 & Hl1 & Hnd1 & Hs1 & Hin1).
  destruct (discover_sources_spec w') as (l2 & Hl2 & Hnd2 & Hs2 & Hin2).
  assert (l1 = l2) as <-.
  { apply sorted_unique; try done. intros p. rewrite Hin1, Hin2.
    split; intros (He & Hpre & Hne & Hpng & Hsel);
      (split; [|done]); destruct He as [?|He]; [by left| |by left|].
    - right. unfold w'. cbn. destruct (decide (variant src = p)) as [<-|Hp].
      + by rewrite lookup_insert_eq.
      + by rewrite lookup_insert_ne.
    - right. unfold w' in He. cbn in He.
      destruct (decide (variant src = p)) as [<-|Hp].
      + rewrite variant_not_selected in Hsel. discriminate.
      + by rewrite lookup_insert_ne in He. }
  eexists _, w', l1. split; [exact H1|]. split; [done|]. split; [done|].
  intros (_ & _ & _ & _ & Hsel)%Hin1.
  rewrite variant_not_selected in Hsel. discriminate.
Qed.

End Stable.

Lemma optimizer_output_not_selected_witness :
  WebAssets.should_process (variant sample_source) = Ok false
  /\ endswith (name (variant sample_source)) ".png" = true.
Proof.
  destruct (@optimizer_output_not_selected flat_pillow sample_world
              sample_source (replicate 50 Byte.x00)
              (Pil.mkImage Pil.RGB (1, 1) (Pil.Decoded (replicate 50 Byte.x00)))
              sample_world_wf ltac:(discriminate) eq_refl eq_refl eq_refl)
    as (H1 & H2 & _).
  exact (conj H1 H2).
Defined.

(** ** Variants of different sources *)

Lemma substring_split n s :
  (n <= String.length s)%nat ->
  s = String.substring 0 n s +:+ String.substring n (String.length s - n) s.
Proof.
  revert s. induction n as [|n IH]; intros s Hn.
  - rewrite Nat.sub_0_r. cbn.
    assert (Hs : forall t, String.substring 0 (String.length t) t = t).
    { induction t as [|x t IHt]; [done|]. cbn. by rewrite IHt. }
    rewrite Hs. by destruct s.
  - destruct s as [|x s]; [cbn in Hn; lia|]. cbn in Hn. cbn.
    rewrite string_app_cons. f_equal. apply IH. lia.
Qed.

Lemma endswith_split s suffix :
  endswith s suffix = true -> exists a, s = a +:+ suffix.
Proof.
  unfold endswith. intros [Hk%Nat.leb_le Heq%String.eqb_eq]%andb_true_iff.
  exists (String.substring 0 (String.length s - String.length suffix) s).
  remember (String.length suffix) as k eqn:Ek.
  pose proof (substring_split (String.length s - k) s ltac:(lia)) as Hsplit.
  replace (String.length s - (String.length s - k))%nat with k in Hsplit by lia.
  by rewrite Heq in Hsplit.
Qed.

Lemma string_app_inv_r a b c : a +:+ c = b +:+ c -> a = b.
Proof.
  revert b. induction a as [|x a IH]; intros [|y b] Heq; try done.
  - apply (f_equal String.length) in Heq.
    rewrite string_app_nil, string_app_cons in Heq. cbn in Heq.
    rewrite length_app_string in Heq. lia.
  - apply (f_equal String.length) in Heq.
    rewrite string_app_nil, string_app_cons in Heq. cbn in Heq.
    rewrite length_app_string in Heq. lia.
  - rewrite !string_app_cons in Heq. injection Heq as -> Heq.
    f_equal. by apply IH.
Qed.

(** Sources named [s.png], [s] not empty, have their variants to
    themselves. *)
Lemma variant_inj (src1 src2 : Path) :
  endswith (name src1) ".png" = true -> name src1 <> ".png" ->
  endswith (name src2) ".png" = true -> name src2 <> ".png" ->
  variant src1 = variant src2 -> src1 = src2.
Proof.
  intros [s1 H1]%endswith_split Hn1 [s2 H2]%endswith_split Hn2 Hv.
  assert (Hs1 : s1 <> "") by (intros ->; by rewrite string_app_nil in H1).
  assert (Hs2 : s2 <> "") by (intros ->; by rewrite string_app_nil in H2).
  assert (Hne1 : src1 <> []).
  { apply named_nonempty. rewrite H1. intros E.
    apply (f_equal String.length) in E. rewrite length_app_string in E.
    cbn in E. lia. }
  assert (Hne2 : src2 <> []).
  { apply named_nonempty. rewrite H2. intros E.
    apply (f_equal String.length) in E. rewrite length_app_string in E.
    cbn in E. lia. }
  unfold variant, joinpath in Hv. apply app_inj_tail in Hv as [Hp Hstem].
  rewrite (stem_png _ _ Hs1 H1), (stem_png _ _ Hs2 H2) in Hstem.
  apply string_app_inv_r in Hstem as ->.
  rewrite (path_split src1 Hne1), (path_split src2 Hne2).
  by rewrite Hp, H1, H2.
Qed.

(** X11: two sources named [s.png], [s] not empty, with different paths
    have different variants; the hidden file [.png], whose stem is its whole
    name, shares its variant's path with its neighbour [.png.png]. *)
Theorem variants_are_distinct :
  (forall src1 src2 : Path,
     endswith (name src1) ".png" = true -> name src1 <> ".png" ->
     endswith (name src2) ".png" = true -> name src2 <> ".png" ->
     variant src1 = variant src2 -> src1 = src2)
  /\ (forall dir : Path,
        variant (dir </> ".png") = variant (dir </> ".png.png")
        /\ dir </> ".png" <> dir </> ".png.png").
Proof.
  split; [exact variant_inj|].
  intros dir. split.
  - unfold variant, joinpath. rewrite !parent_snoc. f_equal. f_equal.
    unfold stem. fold (dir </> ".png") (dir </> ".png.png").
    by rewrite !name_snoc.
  - intros E. unfold joinpath in E. by apply app_inj_tail in E as [_ ?].
Qed.

(** ** A whole run of the optimizer *)

Section Run.
Context `{Pil.Pillow}.

(** X12: [run] over any list of sources that can be optimized, none of
    them the variant of another: it succeeds and returns 0, prints the
    heading, one report line per source and the totals; the totals are the
    number of sources, the sum of their sizes and the sum of the sizes of
    their variants, which is not larger; the reduction it reports lies
    between 0 and 100; no file but the variants is changed, and where the
    variants' paths are distinct each variant holds the optimized bytes of
    its source. *)
Theorem run_reports_totals (sources : list Path) (w : World) :
  fs_wf w -> Forall (optimizable w) sources ->
  (forall s s', s ∈ sources -> s' ∈ sources -> variant s <> s') ->
  exists w' lines q,
    WebAssets.run sources w = Ok (0, w')
    /\ stdout w'
       = stdout w ++ [Text "Optimizing web icon assets:"] ++ lines
         ++ [TotalReport (Z.of_nat (length sources))
               (sum_sizes (size_of ∘ content w <$> sources))
               (sum_sizes (size_of ∘ optimized ∘ content w <$> sources)) q]
    /\ length lines = length sources
    /\ Forall is_file_report lines
    /\ 0 <= sum_sizes (size_of ∘ optimized ∘ content w <$> sources)
         <= sum_sizes (size_of ∘ content w <$> sources)
    /\ WebAssets.percent_smaller
         (sum_sizes (size_of ∘ content w <$> sources))
         (sum_sizes (size_of ∘ optimized ∘ content w <$> sources)) = Ok q
    /\ (0 <= q)%Q /\ (q <= 100)%Q
    /\ heap w' = heap w /\ dirs w' = dirs w
    /\ (forall p, p ∉ variant <$> sources -> files w' !! p = files w !! p)
    /\ (NoDup (variant <$> sources) ->
        forall s, s ∈ sources ->
                  files w' !! variant s = Some (optimized (content w s)))
    /\ fs_wf w'.
Proof. exact (run_spec sources w). Qed.


(** X13: the entry point of the optimizer.  Where every entry it selects
    can be optimized (and none is the hidden file [.png]) it succeeds,
    returns 0, leaves every source as it was and at every source's variant
    the optimized bytes of that source, changes no other file and no
    directory, and prints two lines more than there are sources, the last
    being the totals with a reduction between 0 and 100. *)
Theorem optimizer_main (w : World) :
  fs_wf w ->
  (forall p,
     (p ∈ dirs w \/ is_Some (files w !! p)) ->
     WebAssets.IMAGES_ROOT `prefix_of` p -> p <> WebAssets.IMAGES_ROOT ->
     endswith (name p) ".png" = true ->
     WebAssets.should_process p = Ok true ->
     optimizable w p /\ name p <> ".png") ->
  exists sources w',
    WebAssets.discover_sources w = Ok (sources, w)
    /\ WebAssets.main w = Ok (0, w')
    /\ WebAssets.run sources w = Ok (0, w')
    /\ NoDup sources /\ NoDup (variant <$> sources)
    /\ (forall s, s ∈ sources ->
          files w' !! s = files w !! s
          /\ files w' !! variant s = Some (optimized (content w s)))
    /\ (forall p, p ∉ variant <$> sources -> files w' !! p = files w !! p)
    /\ dirs w' = dirs w
    /\ length (stdout w') = (length (stdout w) + length sources + 2)%nat
    /\ exists q,
         last (stdout w')
         = Some (TotalReport (Z.of_nat (length sources))
                   (sum_sizes (size_of ∘ content w <$> sources))
                   (sum_sizes (size_of ∘ optimized ∘ content w <$> sources)) q)
         /\ (0 <= q)%Q /\ (q <= 100)%Q.
Proof.
  intros Hw Hsel.
  destruct (discover_sources_spec w) as (sources & Hdisc & Hnd & _ & Hin).
  assert (Hopt : forall s, s ∈ sources ->
                   optimizable w s /\ name s <> ".png"
                   /\ endswith (name s) ".png" = true
                   /\ WebAssets.should_process s = Ok true).
  { intros s (He & Hpre & Hne & Hpng & Hsp)%Hin.
    destruct (Hsel s He Hpre Hne Hpng Hsp). done. }
  assert (Hfree : forall s s', s ∈ sources -> s' ∈ sources -> variant s <> s').
  { intros s s' _ (_ & _ & _ & Hsp)%Hopt E. rewrite <- E in Hsp.
    rewrite variant_not_selected in Hsp. discriminate. }
  assert (Hndv : NoDup (variant <$> sources)).
  { apply NoDup_fmap_2_strong; [|done]. intros s1 s2 H1%Hopt H2%Hopt Hv.
    destruct H1 as (_ & ? & ? & _), H2 as (_ & ? & ? & _).
    by apply variant_inj. }
  destruct (run_spec sources w Hw) as
    (w' & lines & q & Hrun & Hout & Hlen & _ & _ & _ & Hq0 & Hq100 & _ & Hd
     & Hfiles & Hvar & _); [|done|].
  { apply Forall_forall. intros s Hs. by apply Hopt. }
  exists sources, w'. split; [done|]. split.
  { unfold WebAssets.main. by rewrite bind_run, Hdisc. }
  split; [done|]. split; [done|]. split; [done|]. split.
  { intros s Hs. split; [|by apply Hvar].
    apply Hfiles. intros (s' & E & Hs')%list_elem_of_fmap.
    by apply (Hfree s' s). }
  split; [done|]. split; [done|]. split.
  { rewrite Hout, !length_app. cbn [length]. lia. }
  exists q. split; [|done].
  rewrite Hout, !app_assoc. apply last_snoc.
Qed.

End Run.

Lemma run_reports_totals_witness :
  exists w', @WebAssets.run flat_pillow [sample_source] sample_world = Ok (0, w').
Proof.
  destruct (@run_reports_totals flat_pillow [sample_source] sample_world
              sample_world_wf
              (Forall_cons_2 _ _ _ sample_source_optimizable (Forall_nil_2 _)))
    as (w' & _ & _ & Hrun & _).
  - intros s s' ->%list_elem_of_singleton ->%list_elem_of_singleton.
    discriminate.
  - exists w'. exact Hrun.
Defined.

Lemma sample_world_entries p :
  (p ∈ dirs sample_world \/ is_Some (files sample_world !! p)) ->
  p = ["assets"] \/ p = ["assets"; "images"] \/ p = sample_source.
Proof.
  unfold sample_world. cbn [dirs files].
  rewrite elem_of_union, !elem_of_singleton.
  intros [[->| ->]|[x [<- _]%lookup_singleton_Some]]; auto.
Qed.

Lemma optimizer_main_witness :
  exists sources w',
    WebAssets.discover_sources sample_world = Ok (sources, sample_world)
    /\ @WebAssets.main flat_pillow sample_world = Ok (0, w').
Proof.
  destruct (@optimizer_main flat_pillow sample_world sample_world_wf)
    as (sources & w' & Hdisc & Hmain & _).
  - intros p [->|[->| ->]]%sample_world_entries Hpre Hne Hpng Hsp;
      [discriminate Hpng|discriminate Hpng|].
    split; [exact sample_source_optimizable|discriminate].
  - exists sources, w'. exact (conj Hdisc Hmain).
Defined.

(** ** Sizes as the report prints them *)

Lemma float_of_int_exact (n : Z) :
  Z.abs n <= 2 ^ 53 -> float_of_int n = Ok (inject_Z n).
Proof.
  intros Hn. destruct (Z.eq_dec (Z.abs n) (2 ^ 53)) as [He|Hne].
  - assert (n = 2 ^ 53 \/ n = - 2 ^ 53) as [-> | ->] by lia;
      vm_compute; reflexivity.
  - assert (Hlog : Z.log2 (Z.abs n) + 1 - 53 <= 0).
    { destruct (Z.eq_dec (Z.abs n) 0) as [->|H0]; [cbn; lia|].
      assert (Z.log2 (Z.abs n) < 53); [|lia].
      apply Z.log2_lt_pow2; lia. }
    unfold float_of_int. cbv zeta.
    rewrite (proj2 (Z.leb_le _ _) Hlog).
    assert (Hsmall : Z.abs n < 2 ^ 1024).
    { apply (Z.lt_le_trans _ (2 ^ 53)); [lia|].
      apply Z.pow_le_mono_r; lia. }
    rewrite (proj2 (Z.leb_gt _ _) Hsmall).
    do 2 f_equal. destruct n; cbn; lia.
Qed.





Lemma human_size_float (size : Z) (v : Q) :
  float_of_int size = Ok v ->
  WebAssets.human_size size
  = let '(value, unit) := WebAssets.human_size_loop ["KB"; "MB"] v "B" in
    if String.eqb unit "B" then Ok (pretty (int value) +:+ unit)
    else Ok (format_1f value +:+ unit).
Proof. intros Hv. unfold WebAssets.human_size. rewrite Hv. reflexivity. Qed.



Lemma human_size_kilo size :
  1024 <= size < 1048576 ->
  WebAssets.human_size size = Ok (format_1f (inject_Z size / 1024) +:+ "KB").
Proof.
  intros Hs. rewrite (human_size_float size (inject_Z size))
    by (apply float_of_int_exact; lia).
  cbn [WebAssets.human_size_loop].
  assert (Hc : (inject_Z size ?= 1024)%Q <> Lt).
  { unfold Qcompare. cbn. rewrite Z.compare_lt_iff. lia. }
  assert (Hc' : (inject_Z size / 1024 ?= 1024)%Q = Lt).
  { unfold Qcompare. cbn. apply Z.compare_lt_iff. lia. }
  destruct (inject_Z size ?= 1024)%Q; [|done|]; by rewrite Hc'.
Qed.



Lemma round_close (x : Q) :
  (inject_Z (round x) - (1 # 2) <= x)%Q /\ (x <= inject_Z (round x) + (1 # 2))%Q.
Proof.
  destruct x as [n d]. unfold round, Qle, Qfloor. cbn.
  pose proof (Z.div_mod n (Z.pos d) ltac:(lia)) as Hdm.
  pose proof (Z.mod_pos_bound n (Z.pos d) ltac:(lia)) as Hm.
  set (f := n `div` Z.pos d) in *. set (r := n `mod` Z.pos d) in *.
  unfold Qcompare. cbn.
  match goal with
  | |- context [(?a ?= ?b)] => destruct (Z.compare_spec a b) as [E|L|G]
  end; [destruct (Z.even f)| |]; cbn; lia.
Qed.

(** X15: between 1024 and 1024 * 1024 [human_size] prints the number of
    tenths of a kibibyte nearest to the size, which is at least 1.0 and can
    reach 1024.0: the sizes from 1048525 on are printed as [1024.0KB]. *)
Theorem human_size_kilobytes (size : Z) :
  1024 <= size < 1024 * 1024 ->
  exists t,
    WebAssets.human_size size
    = Ok (pretty (t `div` 10) +:+ "." +:+ pretty (t `mod` 10) +:+ "KB")
    /\ 10 <= t <= 10240
    /\ -512 <= 10 * size - 1024 * t <= 512
    /\ (1048525 <= size -> WebAssets.human_size size = Ok "1024.0KB").
Proof.
  intros Hs. rewrite human_size_kilo by lia.
  set (x := (inject_Z size / 1024)%Q).
  assert (Hx : (0 <= x)%Q) by (unfold x, Qle; cbn; lia).
  destruct (round_close (x * 10)) as [H1 H2].
  set (t := round (x * 10)) in *.
  assert (Ht : format_1f x
               = pretty (t `div` 10) +:+ "." +:+ pretty (t `mod` 10)).
  { unfold format_1f. rewrite (proj2 (Qle_bool_iff 0 x) Hx).
    assert (E : round (Qabs x * 10) = t).
    { unfold t. destruct x as [n d]. unfold Qle in Hx. cbn in Hx.
      unfold Qabs. by rewrite Z.abs_eq by lia. }
    by rewrite E. }
  assert (Hb : -512 <= 10 * size - 1024 * t <= 512).
  { unfold x, Qle in H1, H2. cbn in H1, H2. lia. }
  exists t. rewrite Ht, !string_append_assoc.
  split; [done|]. split; [lia|]. split; [done|].
  intros Hbig. assert (t = 10240) as -> by lia. reflexivity.
Qed.

Lemma human_size_kilobytes_witness :
  WebAssets.human_size 1048575 = Ok "1024.0KB".
Proof.
  destruct (human_size_kilobytes 1048575 ltac:(lia)) as (t & _ & _ & _ & Ht).
  apply Ht. lia.
Defined.

(** ** From the generator to the optimizer *)

Lemma targets_selected :
  Forall (fun t => WebAssets.IMAGES_ROOT `prefix_of` t
                   /\ t <> WebAssets.IMAGES_ROOT
                   /\ endswith (name t) ".png" = true
                   /\ WebAssets.should_process t = Ok true
                   /\ name t <> "" /\ name t <> ".png") targets.
Proof.
  unfold targets, Icons.ICON_BUILD. cbn [fmap list_fmap fst].
  repeat first [apply Forall_nil_2 | apply Forall_cons_2];
    (split; [eexists; reflexivity|]);
    (split; [discriminate|]);
    (split; [vm_compute; reflexivity|]);
    (split; [vm_compute; reflexivity|]);
    split; discriminate.
Qed.

Lemma targets_variants :
  NoDup (variant <$> targets)
  /\ Forall (fun t => Forall (fun t' => variant t <> t'
                                      /\ ~ variant t `prefix_of` parent t')
                           targets) targets.
Proof. split; apply (bool_decide_unpack _); vm_compute; exact I. Qed.

Section Pipeline.
Context `{Pil.Pillow}.

(** X16: what the generator writes is what the optimizer reads.  After a
    run of the generator, [discover_sources] selects every destination of
    the registry; with a codec that decodes what it encodes, [run] over the
    destinations succeeds, prints one line per icon after the generator's,
    and leaves every icon as saved and beside it a variant that is not
    larger. *)
Theorem generated_icons_are_optimized (w : World) :
  fs_wf w -> Forall (writable w) targets ->
  Forall (fun t => is_dir (variant t) w = false) targets ->
  (forall img, is_Some (Pil.png_decode (saved img))) ->
  exists w1 w2 sources,
    Icons.main w = Ok (tt, w1)
    /\ WebAssets.discover_sources w1 = Ok (sources, w1)
    /\ targets ⊆ sources
    /\ WebAssets.run targets w1 = Ok (0, w2)
    /\ length (stdout w2)
       = (length (stdout w) + 2 * length Icons.ICON_BUILD + 2)%nat
    /\ Forall (fun e => exists img,
                 renders (snd e) img
                 /\ files w2 !! fst e = Some (saved img)
                 /\ files w2 !! variant (fst e) = Some (optimized (saved img))
                 /\ size_of (optimized (saved img)) <= size_of (saved img))
              Icons.ICON_BUILD.
Proof.
  intros Hw Hwr Hvd Hcodec.
  destruct (main_run w Hw Hwr) as (ds & Hmain & Hds & Hw1). cbv zeta in *.
  set (w1 := mkWorld _ _ _ _) in *.
  pose proof targets_selected as Hsel. rewrite Forall_forall in Hsel.
  destruct targets_variants as [Hndv Hvar]. rewrite Forall_forall in Hvar.
  assert (Hfile : forall e, e ∈ Icons.ICON_BUILD ->
            exists img, renders (snd e) img
                        /\ files w1 !! fst e = Some (saved img)).
  { intros e He. by apply catalog_entry_saved. }
  assert (Htarget : forall t, t ∈ targets ->
            exists e, e ∈ Icons.ICON_BUILD /\ t = fst e).
  { intros t (e & -> & He)%list_elem_of_fmap. by exists e. }
  assert (Hopt : Forall (optimizable w1) targets).
  { apply Forall_forall. intros t Ht.
    destruct (Hsel t Ht) as (_ & _ & _ & _ & Hn & _).
    split; [done|]. split.
    - rewrite Forall_forall in Hvd. specialize (Hvd t Ht).
      apply is_dir_false in Hvd as [Hne Hnin]. apply is_dir_false.
      split; [done|]. unfold w1. cbn [dirs]. rewrite Hds.
      intros [?|(t' & Ht' & _ & Hpre)]; [done|].
      specialize (Hvar t Ht). rewrite Forall_forall in Hvar.
      by destruct (Hvar t' Ht') as [_ Hnp].
    - destruct (Htarget t Ht) as (e & He & ->).
      destruct (Hfile e He) as (img & _ & Hf).
      destruct (Hcodec img) as [image Himage].
      by exists (saved img), image. }
  assert (Hfree : forall s s', s ∈ targets -> s' ∈ targets -> variant s <> s').
  { intros s s' Hs Hs'. specialize (Hvar s Hs). rewrite Forall_forall in Hvar.
    by destruct (Hvar s' Hs'). }
  destruct (run_spec targets w1 Hw1 Hopt Hfree)
    as (w2 & lines & q & Hrun & Hout & Hlen & _ & _ & _ & _ & _ & _ & _
        & Hfiles & Hvariant & _).
  destruct (discover_sources_spec w1) as (sources & Hdisc & _ & _ & Hin).
  exists w1, w2, sources.
  split; [exact Hmain|]. split; [exact Hdisc|]. split; [|split; [exact Hrun|split]].
  - intros t Ht. apply Hin.
    destruct (Hsel t Ht) as (? & ? & ? & ? & _).
    destruct (Htarget t Ht) as (e & He & ->).
    destruct (Hfile e He) as (img & _ & Hf).
    split; [right; by eexists|done].
  - rewrite Hout, !length_app. unfold w1. cbn [stdout length].
    rewrite length_app, length_fmap, Hlen. unfold targets.
    rewrite length_fmap. lia.
  - apply Forall_forall. intros e He.
    destruct (Hfile e He) as (img & Hr & Hf). exists img.
    assert (Ht : fst e ∈ targets) by (by apply list_elem_of_fmap_2).
    split; [done|]. split; [|split].
    + rewrite Hfiles; [done|]. intros (s & E & Hs)%list_elem_of_fmap.
      by apply (Hfree s (fst e)).
    + rewrite (Hvariant Hndv _ Ht). unfold content. by rewrite Hf.
    + apply optimized_size.
Qed.

End Pipeline.

Lemma generated_icons_are_optimized_witness :
  exists w1 w2,
    @Icons.main flat_pillow initial = Ok (tt, w1)
    /\ @WebAssets.run flat_pillow targets w1 = Ok (0, w2).
Proof.
  destruct (@generated_icons_are_optimized flat_pillow initial initial_wf
              initial_writable)
    as (w1 & w2 & sources & Hmain & _ & _ & Hrun & _).
  - apply Forall_forall. intros t _. apply is_dir_false. split.
    + unfold variant, joinpath. intros E. by apply app_nil in E as [_ ?].
    + apply not_elem_of_empty.
  - intros img. by eexists.
  - exists w1, w2. exact (conj Hmain Hrun).
Defined.
(** ** Running the optimizer again *)

Section Again.
Context `{Pil.Pillow}.

(** X17: running the entry point of the optimizer a second time selects
    the same sources, succeeds again and leaves every file and directory as
    the first run left them, printing as many lines as the first run. *)
Theorem optimizer_main_idempotent (w : World) :
  fs_wf w ->
  (forall p,
     (p ∈ dirs w \/ is_Some (files w !! p)) ->
     WebAssets.IMAGES_ROOT `prefix_of` p -> p <> WebAssets.IMAGES_ROOT ->
     endswith (name p) ".png" = true ->
     WebAssets.should_process p = Ok true ->
     optimizable w p /\ name p <> ".png") ->
  exists sources w1 w2,
    WebAssets.main w = Ok (0, w1)
    /\ WebAssets.discover_sources w = Ok (sources, w)
    /\ WebAssets.discover_sources w1 = Ok (sources, w1)
    /\ WebAssets.main w1 = Ok (0, w2)
    /\ files w2 = files w1 /\ dirs w2 = dirs w1
    /\ length (stdout w2) = (length (stdout w1) + length sources + 2)%nat.
Proof.
  intros Hw Hsel.
  destruct (discover_sources_spec w) as (sources & Hdisc & Hnd & Hsorted & Hin).
  assert (Hopt : forall s, s ∈ sources ->
                   optimizable w s /\ name s <> ".png"
                   /\ endswith (name s) ".png" = true
                   /\ WebAssets.should_process s = Ok true).
  { intros s (He & Hpre & Hne & Hpng & Hsp)%Hin.
    destruct (Hsel s He Hpre Hne Hpng Hsp). done. }
  assert (Hfree : forall s s', s ∈ sources -> s' ∈ sources -> variant s <> s').
  { intros s s' _ (_ & _ & _ & Hsp)%Hopt E. rewrite <- E in Hsp.
    rewrite variant_not_selected in Hsp. discriminate. }
  assert (Hndv : NoDup (variant <$> sources)).
  { apply NoDup_fmap_2_strong; [|done]. intros s1 s2 H1%Hopt H2%Hopt Hv.
    destruct H1 as (_ & ? & ? & _), H2 as (_ & ? & ? & _).
    by apply variant_inj. }
  assert (Hall : Forall (optimizable w) sources).
  { apply Forall_forall. intros s Hs. by apply Hopt. }
  destruct (run_spec sources w Hw Hall Hfree) as
    (w1 & lines & q & Hrun & Hout & Hlen & _ & _ & _ & _ & _ & Hh & Hd
     & Hfiles & Hvar & Hw1).
  assert (Hkeep : forall s, s ∈ sources -> files w1 !! s = files w !! s).
  { intros s Hs. apply Hfiles. intros (s' & E & Hs')%list_elem_of_fmap.
    by apply (Hfree s' s). }
  assert (Hexists : forall p, WebAssets.should_process p = Ok true ->
            (p ∈ dirs w1 \/ is_Some (files w1 !! p))
            <-> (p ∈ dirs w \/ is_Some (files w !! p))).
  { intros p Hsp. rewrite Hd.
    assert (Hp : p ∉ variant <$> sources).
    { intros (s & -> & _)%list_elem_of_fmap.
      rewrite variant_not_selected in Hsp. discriminate. }
    by rewrite (Hfiles p Hp). }
  destruct (discover_sources_spec w1) as (sources1 & Hdisc1 & Hnd1 & Hsorted1 & Hin1).
  assert (sources1 = sources) as ->.
  { apply sorted_unique; try done. intros p. rewrite Hin, Hin1.
    split; intros (He & Hpre & Hne & Hpng & Hsp);
      (split; [|done]); by apply (Hexists p Hsp). }
  assert (Hall1 : Forall (optimizable w1) sources).
  { apply Forall_forall. intros s Hs.
    destruct (Hopt s Hs) as ((Hn & Hvd & data & image & Hf & Hdec) & _).
    split; [done|]. split.
    - unfold is_dir in *. by rewrite Hd.
    - exists data, image. by rewrite (Hkeep s Hs). }
  destruct (run_spec sources w1 Hw1 Hall1 Hfree) as
    (w2 & lines2 & q2 & Hrun2 & Hout2 & Hlen2 & _ & _ & _ & _ & _ & Hh2 & Hd2
     & Hfiles2 & Hvar2 & _).
  exists sources, w1, w2.
  split; [unfold WebAssets.main; by rewrite bind_run, Hdisc|].
  split; [done|]. split; [done|].
  split; [unfold WebAssets.main; by rewrite bind_run, Hdisc1|].
  split; [|split; [done|]].
  - apply map_eq. intros p.
    destruct (decide (p ∈ variant <$> sources)) as [Hp|Hp].
    + apply list_elem_of_fmap in Hp as (s & -> & Hs).
      rewrite (Hvar2 Hndv s Hs), (Hvar Hndv s Hs).
      unfold content. by rewrite (Hkeep s Hs).
    + by apply Hfiles2.
  - rewrite Hout2, !length_app. cbn [length]. lia.
Qed.

End Again.

Lemma optimizer_main_idempotent_witness :
  exists w1 w2,
    @WebAssets.main flat_pillow sample_world = Ok (0, w1)
    /\ @WebAssets.main flat_pillow w1 = Ok (0, w2)
    /\ files w2 = files w1.
Proof.
  destruct (@optimizer_main_idempotent flat_pillow sample_world sample_world_wf)
    as (sources & w1 & w2 & H1 & _ & _ & H2 & H3 & _).
  - intros p [->|[->| ->]]%sample_world_entries Hpre Hne Hpng Hsp;
      [discriminate Hpng|discriminate Hpng|].
    split; [exact sample_source_optimizable|discriminate].
  - exists w1, w2. exact (conj H1 (conj H2 H3)).
Defined.
